(** * terraform-provider-gotrue: the admin client and the resource reconciler

    A shallow embedding of [adminclient] (the HTTP/JSON client of the GoTrue
    admin API for SAML identity providers) and of [gotrue/provider.go] (the
    Terraform resource built on it), with the properties of their
    specification stated and proved over the embedding.

    Go strings are byte sequences: they are [string] here (a list of
    [ascii], one per byte).  Go maps are [gmap]s, [int] is [Z] with the
    64-bit range written out where the code depends on it.  Map objects that
    the code shares and mutates ([http.Header]) live in an explicit store of
    map objects.  The library functions whose behaviour decides a property
    ([regexp], [encoding/json], [sort], [utf8], the SDK's [schema.Set]) are
    modelled below; the others ([net/url], [time], [strconv.Quote], the
    HTTP transport) are the methods of the class [GoLib] and of the
    interface [HTTPClient], and the properties hold whatever they return. *)

From Stdlib Require Import ZArith NArith Ascii String List Bool Lia Sorting.Sorted Permutation.
From stdpp Require Import base option list gmap strings sets fin_maps pretty.

Open Scope string_scope.
Open Scope list_scope.

(* ===================================================================== *)
(** * Part I: definitions                                                 *)
(* ===================================================================== *)

(** ** Bytes and runes ([unicode/utf8]) *)

Module Utf8.

Definition rune := N.

Definition RuneError : rune := 0xFFFD%N.
Definition MaxRune : rune := 0x10FFFF%N.

Definition bytes (s : string) : list N :=
  map N_of_ascii (list_ascii_of_string s).

Definition of_bytes (l : list N) : string :=
  string_of_list_ascii (map ascii_of_N l).

(** The [first] table of package utf8 together with [acceptRanges]: for
    a leading byte, the length of the encoding and the range allowed for
    the second byte; [None] for a byte that cannot start a multi-byte
    encoding. *)
Definition first (s0 : N) : option (nat * N * N) :=
  if ((0xC2 <=? s0) && (s0 <=? 0xDF))%N then Some (2%nat, 0x80%N, 0xBF%N)
  else if (s0 =? 0xE0)%N then Some (3%nat, 0xA0%N, 0xBF%N)
  else if ((0xE1 <=? s0) && (s0 <=? 0xEC))%N then Some (3%nat, 0x80%N, 0xBF%N)
  else if (s0 =? 0xED)%N then Some (3%nat, 0x80%N, 0x9F%N)
  else if ((0xEE <=? s0) && (s0 <=? 0xEF))%N then Some (3%nat, 0x80%N, 0xBF%N)
  else if (s0 =? 0xF0)%N then Some (4%nat, 0x90%N, 0xBF%N)
  else if ((0xF1 <=? s0) && (s0 <=? 0xF3))%N then Some (4%nat, 0x80%N, 0xBF%N)
  else if (s0 =? 0xF4)%N then Some (4%nat, 0x80%N, 0x8F%N)
  else None.

Definition outside (b lo hi : N) : bool := ((b <? lo) || (hi <? b))%N.

(** [utf8.DecodeRune]: the first rune of [s] and its width in bytes.  A
    byte that does not start a valid encoding is [RuneError] of width 1;
    the empty text is [RuneError] of width 0. *)
Definition DecodeRune (s : list N) : rune * nat :=
  match s with
  | [] => (RuneError, 0%nat)
  | s0 :: t0 =>
    if (s0 <? 0x80)%N then (s0, 1%nat)
    else
      match first s0 with
      | None => (RuneError, 1%nat)
      | Some (sz, lo, hi) =>
        match t0 with
        | [] => (RuneError, 1%nat)
        | s1 :: t1 =>
          if outside s1 lo hi then (RuneError, 1%nat)
          else if (sz <=? 2)%nat
          then (N.lor (N.shiftl (N.land s0 0x1F) 6) (N.land s1 0x3F), 2%nat)
          else
            match t1 with
            | [] => (RuneError, 1%nat)
            | s2 :: t2 =>
              if outside s2 0x80 0xBF then (RuneError, 1%nat)
              else if (sz <=? 3)%nat
              then (N.lor (N.shiftl (N.land s0 0x0F) 12)
                      (N.lor (N.shiftl (N.land s1 0x3F) 6) (N.land s2 0x3F)),
                    3%nat)
              else
                match t2 with
                | [] => (RuneError, 1%nat)
                | s3 :: t3 =>
                  if outside s3 0x80 0xBF then (RuneError, 1%nat)
                  else (N.lor (N.shiftl (N.land s0 0x07) 18)
                          (N.lor (N.shiftl (N.land s1 0x3F) 12)
                             (N.lor (N.shiftl (N.land s2 0x3F) 6)
                                (N.land s3 0x3F))),
                        4%nat)
                end
            end
        end
      end
  end.

(** The runes of a text, as a [for range] loop over a string or the
    input of the regexp engine sees them.  Every step consumes at least
    one byte, so [length s] steps are enough. *)
Fixpoint decode_loop (n : nat) (s : list N) : list rune :=
  match n, s with
  | S n', _ :: _ =>
    let '(r, sz) := DecodeRune s in r :: decode_loop n' (skipn sz s)
  | _, _ => []
  end.

Definition decode (s : list N) : list rune := decode_loop (length s) s.

Definition runes (s : string) : list rune := decode (bytes s).

(** [utf8.AppendRune]: surrogates and values above [MaxRune] are encoded
    as [RuneError]. *)
Definition encode (r : rune) : list N :=
  if (r <? 0x80)%N then [r]
  else if (r <? 0x800)%N then
    [N.lor 0xC0 (N.shiftr r 6); N.lor 0x80 (N.land r 0x3F)]
  else if ((MaxRune <? r) || ((0xD800 <=? r) && (r <=? 0xDFFF)))%N then
    [0xEF; 0xBF; 0xBD]%N
  else if (r <? 0x10000)%N then
    [N.lor 0xE0 (N.shiftr r 12); N.lor 0x80 (N.land (N.shiftr r 6) 0x3F);
     N.lor 0x80 (N.land r 0x3F)]
  else
    [N.lor 0xF0 (N.shiftr r 18); N.lor 0x80 (N.land (N.shiftr r 12) 0x3F);
     N.lor 0x80 (N.land (N.shiftr r 6) 0x3F); N.lor 0x80 (N.land r 0x3F)].

(** A test on the first two bytes of a text: that they do not start a
    multi-byte encoding, or that they already place its rune outside ASCII. *)
Definition lead_check (s0 s1 : N) : bool :=
  match first s0 with
  | None => true
  | Some (sz, lo, hi) =>
    outside s1 lo hi
    || (if (sz <=? 2)%nat
        then (0x80 <=? N.shiftl (N.land s0 0x1F) 6)%N
        else if (sz <=? 3)%nat
        then (0x80 <=? N.shiftl (N.land s0 0x0F) 12)%N
             || (0x80 <=? N.shiftl (N.land s1 0x3F) 6)%N
        else (0x80 <=? N.shiftl (N.land s0 0x07) 18)%N
             || (0x80 <=? N.shiftl (N.land s1 0x3F) 12)%N)
  end.

(** The byte values. *)
Definition all_bytes : list N := map N.of_nat (seq 0 256).

End Utf8.

(** ** Hash codes ([hash/crc32], the SDK's [hashcode]) *)

Module Hashcode.
Import Utf8.

(** One bit of the CRC-32 of IEEE 802.3, polynomial [0xEDB88320]. *)
Definition crc_step (crc : N) : N :=
  if N.odd crc then N.lxor (N.shiftr crc 1) 0xEDB88320 else N.shiftr crc 1.

Definition crc_byte (crc b : N) : N := Nat.iter 8 crc_step (N.lxor crc b).

(** [crc32.ChecksumIEEE] *)
Definition ChecksumIEEE (data : list N) : N :=
  N.lxor (fold_left crc_byte data 0xFFFFFFFF%N) 0xFFFFFFFF.

(** [hashcode.String]: the checksum as an [int], which has 64 bits and so
    holds it as it is. *)
Definition String (s : string) : Z := Z.of_N (ChecksumIEEE (bytes s)).

End Hashcode.

(** ** Regular expressions ([regexp]) *)

Module Regexp.
Import Utf8.

(** The syntax tree the patterns of the provider parse to.  A character
    class is a list of inclusive rune ranges, as in [regexp/syntax]. *)
Inductive regex : Type :=
| NoMatch : regex
| EmptyMatch : regex
| CharClass : list (rune * rune) -> regex
| Concat : regex -> regex -> regex
| Alternate : regex -> regex -> regex
| Star : regex -> regex.

Definition Plus (r : regex) : regex := Concat r (Star r).
Definition Quest (r : regex) : regex := Alternate r EmptyMatch.
(** [r{1,3}] *)
Definition Repeat13 (r : regex) : regex :=
  Concat r (Quest (Concat r (Quest r))).

Definition Literal1 (c : ascii) : regex :=
  CharClass [(N_of_ascii c, N_of_ascii c)].

Fixpoint Literal (s : string) : regex :=
  match s with
  | EmptyString => EmptyMatch
  | String c EmptyString => Literal1 c
  | String c s' => Concat (Literal1 c) (Literal s')
  end.

(** [.] without the [s] flag: any rune but a line feed. *)
Definition AnyCharNotNL : regex := CharClass [(0, 9); (11, MaxRune)]%N.
Definition AnyChar : regex := CharClass [(0, MaxRune)]%N.

Definition in_class (cls : list (rune * rune)) (c : rune) : bool :=
  existsb (fun '(lo, hi) => (lo <=? c) && (c <=? hi))%N cls.

Fixpoint nullable (r : regex) : bool :=
  match r with
  | NoMatch => false
  | EmptyMatch => true
  | CharClass _ => false
  | Concat r1 r2 => nullable r1 && nullable r2
  | Alternate r1 r2 => nullable r1 || nullable r2
  | Star _ => true
  end.

#[global] Instance regex_eq_dec : EqDecision regex.
Proof. solve_decision. Defined.

(** Derivatives are kept small by the usual simplifications: [NoMatch]
    and [EmptyMatch] are absorbed, and an alternation never lists the same
    alternative twice. *)
Definition mkConcat (a b : regex) : regex :=
  match a with
  | NoMatch => NoMatch
  | EmptyMatch => b
  | _ => Concat a b
  end.

Fixpoint alt_mem (x r : regex) : bool :=
  match r with
  | Alternate a b => alt_mem x a || alt_mem x b
  | _ => bool_decide (x = r)
  end.

Fixpoint mkAlt (a b : regex) : regex :=
  match b with
  | Alternate b1 b2 => mkAlt (mkAlt a b1) b2
  | NoMatch => a
  | _ =>
    match a with
    | NoMatch => b
    | _ => if alt_mem b a then a else Alternate a b
    end
  end.

Fixpoint deriv (c : rune) (r : regex) : regex :=
  match r with
  | NoMatch => NoMatch
  | EmptyMatch => NoMatch
  | CharClass cls => if in_class cls c then EmptyMatch else NoMatch
  | Concat r1 r2 =>
    if nullable r1
    then mkAlt (mkConcat (deriv c r1) r2) (deriv c r2)
    else mkConcat (deriv c r1) r2
  | Alternate r1 r2 => mkAlt (deriv c r1) (deriv c r2)
  | Star r1 => mkConcat (deriv c r1) (Star r1)
  end.

(** Whether the whole text is in the language of [r]. *)
Fixpoint fullmatch (r : regex) (w : list rune) : bool :=
  match w with
  | [] => nullable r
  | c :: w' => fullmatch (deriv c r) w'
  end.

(** A compiled pattern: the body and whether it is anchored by [^] at its
    start and by [$] at its end (without the [m] flag these are the start
    and the end of the text). *)
Record Regexp := {
  begin_text : bool;
  body : regex;
  end_text : bool
}.

(** The method [MatchString]: whether the text contains a match. *)
Definition MatchString (re : Regexp) (s : string) : bool :=
  fullmatch
    (Concat (if begin_text re then EmptyMatch else Star AnyChar)
       (Concat (body re) (if end_text re then EmptyMatch else Star AnyChar)))
    (runes s).

(** The language of a regular expression. *)
Inductive Matches : regex -> list rune -> Prop :=
| M_Empty : Matches EmptyMatch []
| M_Class cls c : in_class cls c = true -> Matches (CharClass cls) [c]
| M_Concat r1 r2 w1 w2 :
    Matches r1 w1 -> Matches r2 w2 -> Matches (Concat r1 r2) (w1 ++ w2)
| M_AltL r1 r2 w : Matches r1 w -> Matches (Alternate r1 r2) w
| M_AltR r1 r2 w : Matches r2 w -> Matches (Alternate r1 r2) w
| M_StarNil r : Matches (Star r) []
| M_StarCons r w1 w2 :
    Matches r w1 -> Matches (Star r) w2 -> Matches (Star r) (w1 ++ w2).

End Regexp.

(** ** JSON ([encoding/json]) *)

Module Json.
Import Utf8.

#[local] Unset Elimination Schemes.
Inductive json : Type :=
| JNull : json
| JBool : bool -> json
| JNumber : string -> json          (* the literal, as written *)
| JString : string -> json          (* the text, unquoted *)
| JArray : list json -> json
| JObject : list (string * json) -> json.   (* members in source order *)
#[local] Set Elimination Schemes.

Definition ch (c : ascii) : N := N_of_ascii c.

(** The double quote. *)
Definition dquote : N := 34%N.

Definition is_space (c : N) : bool :=
  ((c =? ch " ") || (c =? 9) || (c =? 13) || (c =? 10))%N.

Definition is_digit (c : N) : bool := ((ch "0" <=? c) && (c <=? ch "9"))%N.

Definition hex_val (c : N) : option N :=
  if is_digit c then Some (c - ch "0")%N
  else if ((ch "a" <=? c) && (c <=? ch "f"))%N then Some (c - ch "a" + 10)%N
  else if ((ch "A" <=? c) && (c <=? ch "F"))%N then Some (c - ch "A" + 10)%N
  else None.

Fixpoint skip_ws (s : list N) : list N :=
  match s with
  | c :: t => if is_space c then skip_ws t else s
  | [] => []
  end.

Fixpoint span_digits (s : list N) : list N * list N :=
  match s with
  | c :: t =>
    if is_digit c then let '(ds, r) := span_digits t in (c :: ds, r)
    else ([], s)
  | [] => ([], [])
  end.

(** The four hexadecimal digits of a [\uXXXX] escape. *)
Definition hex4 (h1 h2 h3 h4 : N) : option rune :=
  match hex_val h1, hex_val h2, hex_val h3, hex_val h4 with
  | Some a, Some b, Some c, Some d =>
    Some (N.lor (N.shiftl a 12) (N.lor (N.shiftl b 8) (N.lor (N.shiftl c 4) d)))
  | _, _, _, _ => None
  end.

(** [getu4]: the rune of a leading [\uXXXX], if the text starts with one. *)
Definition getu4 (s : list N) : option rune :=
  match s with
  | b :: u :: h1 :: h2 :: h3 :: h4 :: _ =>
    if ((b =? ch "\") && (u =? ch "u"))%N then hex4 h1 h2 h3 h4 else None
  | _ => None
  end.

(** The scanner inside a string literal, after the opening quote: the raw
    bytes of the literal up to the closing quote, and the text after it.
    Control characters and unknown escapes are syntax errors. *)
Fixpoint scan_string (s : list N) : option (list N * list N) :=
  match s with
  | [] => None
  | c :: t =>
    if (c =? dquote)%N then Some ([], t)
    else if (c =? ch "\")%N then
      match t with
      | e :: t1 =>
        if (e =? ch "u")%N then
          match t1 with
          | h1 :: h2 :: h3 :: h4 :: t5 =>
            match hex4 h1 h2 h3 h4, scan_string t5 with
            | Some _, Some (raw, r) => Some (c :: e :: h1 :: h2 :: h3 :: h4 :: raw, r)
            | _, _ => None
            end
          | _ => None
          end
        else if ((e =? ch "b") || (e =? ch "f") || (e =? ch "n") || (e =? ch "r")
                 || (e =? ch "t") || (e =? ch "\") || (e =? ch "/")
                 || (e =? dquote))%N then
          match scan_string t1 with
          | Some (raw, r) => Some (c :: e :: raw, r)
          | None => None
          end
        else None
      | [] => None
      end
    else if (c <? 0x20)%N then None
    else
      match scan_string t with
      | Some (raw, r) => Some (c :: raw, r)
      | None => None
      end
  end.

Definition IsSurrogate (r : rune) : bool := ((0xD800 <=? r) && (r <? 0xE000))%N.

(** [utf16.DecodeRune] on a surrogate pair; [None] where Go returns the
    replacement character. *)
Definition DecodeRune16 (r1 r2 : rune) : option rune :=
  if ((0xD800 <=? r1) && (r1 <? 0xDC00) && (0xDC00 <=? r2) && (r2 <? 0xE000))%N
  then Some (N.lor (N.shiftl (r1 - 0xD800) 10) (r2 - 0xDC00) + 0x10000)%N
  else None.

Definition unescape (e : N) : N :=
  if (e =? ch "b")%N then 8%N
  else if (e =? ch "f")%N then 12%N
  else if (e =? ch "n")%N then 10%N
  else if (e =? ch "r")%N then 13%N
  else if (e =? ch "t")%N then 9%N
  else e.

(** [unquoteBytes] on the raw bytes of a literal the scanner accepted:
    escapes are replaced, and bytes that are not well-formed UTF-8 are
    coerced to the replacement character.  Every step consumes at least
    one byte. *)
Fixpoint unquote_loop (n : nat) (s : list N) : list N :=
  match n, s with
  | S n', c :: t =>
    if (c =? ch "\")%N then
      match t with
      | [] => []
      | e :: t1 =>
        if (e =? ch "u")%N then
          match getu4 s with
          | None => []
          | Some rr =>
            let s6 := skipn 6 s in
            if IsSurrogate rr then
              match from_option (DecodeRune16 rr) None (getu4 s6) with
              | Some dec => encode dec ++ unquote_loop n' (skipn 6 s6)
              | None => encode RuneError ++ unquote_loop n' s6
              end
            else encode rr ++ unquote_loop n' s6
          end
        else unescape e :: unquote_loop n' t1
      end
    else if (c <? 0x80)%N then c :: unquote_loop n' t
    else
      let '(rr, size) := DecodeRune s in
      encode rr ++ unquote_loop n' (skipn size s)
  | _, _ => []
  end.

Definition unquote (raw : list N) : string :=
  of_bytes (unquote_loop (length raw) raw).

(** The scanner on a number literal: an optional minus sign; the integer
    part, a single 0 or a digit from 1 to 9 followed by any digits; an
    optional fraction, a dot and one or more digits; an optional exponent,
    e or E, an optional sign and one or more digits. *)
Definition scan_int (s : list N) : option (list N * list N) :=
  match s with
  | c :: t =>
    if (c =? ch "0")%N then Some ([c], t)
    else if is_digit c then let '(ds, r) := span_digits t in Some (c :: ds, r)
    else None
  | [] => None
  end.

Definition scan_frac (s : list N) : option (list N * list N) :=
  match s with
  | c :: t =>
    if (c =? ch ".")%N then
      match span_digits t with
      | ([], _) => None
      | (ds, r) => Some (c :: ds, r)
      end
    else Some ([], s)
  | [] => Some ([], [])
  end.

Definition scan_exp (s : list N) : option (list N * list N) :=
  match s with
  | c :: t =>
    if ((c =? ch "e") || (c =? ch "E"))%N then
      let '(sign, t') :=
        match t with
        | g :: u => if ((g =? ch "+") || (g =? ch "-"))%N then ([g], u) else ([], t)
        | [] => ([], t)
        end in
      match span_digits t' with
      | ([], _) => None
      | (ds, r) => Some (c :: sign ++ ds, r)
      end
    else Some ([], s)
  | [] => Some ([], [])
  end.

Definition scan_number (s : list N) : option (list N * list N) :=
  let '(neg, s1) :=
    match s with
    | c :: t => if (c =? ch "-")%N then ([c], t) else ([], s)
    | [] => ([], s)
    end in
  match scan_int s1 with
  | None => None
  | Some (i, s2) =>
    match scan_frac s2 with
    | None => None
    | Some (f, s3) =>
      match scan_exp s3 with
      | None => None
      | Some (e, s4) => Some (neg ++ i ++ f ++ e, s4)
      end
    end
  end.

Fixpoint strip_prefix (p s : list N) : option (list N) :=
  match p, s with
  | [], _ => Some s
  | a :: p', b :: s' => if (a =? b)%N then strip_prefix p' s' else None
  | _ :: _, [] => None
  end.

Inductive result (A : Type) : Type :=
| Parsed : A -> result A
| Invalid : result A        (* a syntax error *)
| NoFuel : result A.        (* never returned by [parse]: see [parse_total] *)
Arguments Parsed {A} _.
Arguments Invalid {A}.
Arguments NoFuel {A}.

(** Arrays and objects nest at most this deep. *)
Definition maxNestingDepth : N := 10000%N.

(** One value at the head of [s] (no leading white space), and the text
    after it. *)
Fixpoint parse_value (fuel : nat) (depth : N) (s : list N) : result (json * list N) :=
  match fuel with
  | O => NoFuel
  | S fuel' =>
    match s with
    | [] => Invalid
    | c :: t =>
      if (c =? ch "{")%N then
        if (maxNestingDepth <? depth + 1)%N then Invalid
        else
          match skip_ws t with
          | c' :: t' =>
            if (c' =? ch "}")%N then Parsed (JObject [], t')
            else parse_members fuel' (depth + 1)%N (c' :: t') []
          | [] => Invalid
          end
      else if (c =? ch "[")%N then
        if (maxNestingDepth <? depth + 1)%N then Invalid
        else
          match skip_ws t with
          | c' :: t' =>
            if (c' =? ch "]")%N then Parsed (JArray [], t')
            else parse_elements fuel' (depth + 1)%N (c' :: t') []
          | [] => Invalid
          end
      else if (c =? dquote)%N then
        match scan_string t with
        | Some (raw, r) => Parsed (JString (unquote raw), r)
        | None => Invalid
        end
      else if ((c =? ch "-") || is_digit c)%N then
        match scan_number s with
        | Some (lit, r) => Parsed (JNumber (of_bytes lit), r)
        | None => Invalid
        end
      else
        match strip_prefix (bytes "true") s, strip_prefix (bytes "false") s,
              strip_prefix (bytes "null") s with
        | Some r, _, _ => Parsed (JBool true, r)
        | _, Some r, _ => Parsed (JBool false, r)
        | _, _, Some r => Parsed (JNull, r)
        | _, _, _ => Invalid
        end
    end
  end

(** The elements of an array after its opening bracket, [acc] holding
    those read so far, in reverse. *)
with parse_elements (fuel : nat) (depth : N) (s : list N) (acc : list json)
  : result (json * list N) :=
  match fuel with
  | O => NoFuel
  | S fuel' =>
    match parse_value fuel' depth s with
    | Parsed (v, r) =>
      match skip_ws r with
      | c :: t =>
        if (c =? ch ",")%N then parse_elements fuel' depth (skip_ws t) (v :: acc)
        else if (c =? ch "]")%N then Parsed (JArray (rev (v :: acc)), t)
        else Invalid
      | [] => Invalid
      end
    | Invalid => Invalid
    | NoFuel => NoFuel
    end
  end

(** The members of an object after its opening brace. *)
with parse_members (fuel : nat) (depth : N) (s : list N) (acc : list (string * json))
  : result (json * list N) :=
  match fuel with
  | O => NoFuel
  | S fuel' =>
    match s with
    | q :: s1 =>
      if (q =? dquote)%N then
        match scan_string s1 with
        | Some (raw, r) =>
          match skip_ws r with
          | c :: t =>
            if (c =? ch ":")%N then
              match parse_value fuel' depth (skip_ws t) with
              | Parsed (v, r') =>
                match skip_ws r' with
                | c' :: t' =>
                  if (c' =? ch ",")%N
                  then parse_members fuel' depth (skip_ws t') ((unquote raw, v) :: acc)
                  else if (c' =? ch "}")%N
                  then Parsed (JObject (rev ((unquote raw, v) :: acc)), t')
                  else Invalid
                | [] => Invalid
                end
              | Invalid => Invalid
              | NoFuel => NoFuel
              end
            else Invalid
          | [] => Invalid
          end
        | None => Invalid
        end
      else Invalid
    | [] => Invalid
    end
  end.

(** A whole document: one value, white space allowed around it. *)
Definition parse_fuel (fuel : nat) (data : string) : result json :=
  match parse_value fuel 0%N (skip_ws (bytes data)) with
  | Parsed (v, r) =>
    match skip_ws r with
    | [] => Parsed v
    | _ :: _ => Invalid
    end
  | Invalid => Invalid
  | NoFuel => NoFuel
  end.

Definition parse (data : string) : result json :=
  parse_fuel (2 * String.length data + 1) data.

(** *** Decoding into Go values

    [Unmarshal] first checks that the whole input is valid JSON and
    changes nothing when it is not.  It then decodes member by member;
    a value of the wrong kind for its destination is recorded as an
    [UnmarshalTypeError] and skipped, decoding goes on, and the first such
    error is returned at the end.  The decoders below return the decoded
    value and whether no such error occurred. *)

Inductive error : Type :=
| SyntaxError : error
| UnmarshalTypeError : error.

Definition is_lower (c : N) : bool := ((ch "a" <=? c) && (c <=? ch "z"))%N.

(** [foldName]: the key under which a member name is looked up when no
    field has exactly that name.  ASCII letters are folded to upper case;
    the Kelvin sign and the long s, the only other runes that fold to an
    ASCII letter, are folded to K and S. *)
Fixpoint foldName (s : list N) : list N :=
  match s with
  | [] => []
  | c :: t =>
    if is_lower c then (c - 32)%N :: foldName t
    else
      match t with
      | c1 :: t1 =>
        if ((c =? 0xC5) && (c1 =? 0xBF))%N then ch "S" :: foldName t1
        else
          match t1 with
          | c2 :: t2 =>
            if ((c =? 0xE2) && (c1 =? 0x84) && (c2 =? 0xAA))%N
            then ch "K" :: foldName t2
            else c :: foldName t
          | [] => c :: foldName t
          end
      | [] => [c]
      end
  end.

Fixpoint index_where {A} (p : A -> bool) (l : list A) : option nat :=
  match l with
  | [] => None
  | x :: l' => if p x then Some 0%nat else S <$> index_where p l'
  end.

(** The field a member of a JSON object is decoded into: the one with
    exactly that name, else the one whose name matches case-insensitively;
    [names] are the JSON names of the struct's fields, in order. *)
Definition field_index (names : list string) (key : string) : option nat :=
  match index_where (String.eqb key) names with
  | Some i => Some i
  | None =>
    index_where (fun n => bool_decide (foldName (bytes n) = foldName (bytes key))) names
  end.

Definition digits_val (ds : list N) : Z :=
  fold_left (fun acc d => (10 * acc + Z.of_N (d - ch "0"))%Z) ds 0%Z.

(** [strconv.ParseInt(lit, 10, 64)] on a JSON number literal: it fails on
    a fraction or an exponent, and outside the range of [int64]. *)
Definition ParseInt64 (lit : string) : option Z :=
  let '(neg, ds) :=
    match bytes lit with
    | c :: t => if (c =? ch "-")%N then (true, t) else (false, c :: t)
    | [] => (false, [])
    end in
  if forallb is_digit ds && negb (bool_decide (ds = [])) then
    let v := if neg then (- digits_val ds)%Z else digits_val ds in
    if ((- 2 ^ 63 <=? v) && (v <? 2 ^ 63))%Z then Some v else None
  else None.

(** Whether [strconv.ParseFloat(lit, 64)] fails on a JSON number literal:
    it does when the value rounds to an infinity, that is when its
    magnitude is at least [2^1024 - 2^970]. *)
Definition float_overflows (lit : string) : bool :=
  let s := bytes lit in
  let s1 := match s with
            | c :: t => if (c =? ch "-")%N then t else s
            | [] => s
            end in
  let '(ip, s2) := span_digits s1 in
  let '(fp, s3) := match s2 with
                   | c :: t => if (c =? ch ".")%N then span_digits t else ([], s2)
                   | [] => ([], s2)
                   end in
  let e : Z := match s3 with
               | _ :: g :: u =>
                 if (g =? ch "-")%N then (- digits_val u)%Z
                 else if (g =? ch "+")%N then digits_val u
                 else digits_val (g :: u)
               | _ => 0%Z
               end in
  let d := digits_val (ip ++ fp) in
  let e10 := (e - Z.of_nat (length fp))%Z in
  let limit := (2 ^ 1024 - 2 ^ 970)%Z in
  if (0 <=? e10)%Z then (limit <=? d * 10 ^ e10)%Z
  else (limit * 10 ^ (- e10) <=? d)%Z.

(** Whether a value decodes into an [interface{}] without error: only a
    number too large for a [float64] does not. *)
Fixpoint interface_ok (v : json) : bool :=
  match v with
  | JNumber lit => negb (float_overflows lit)
  | JArray l => forallb interface_ok l
  | JObject ms => forallb (fun m => interface_ok (snd m)) ms
  | _ => true
  end.

(** Into a [string]: [null] leaves the destination as it is. *)
Definition decode_string (v : json) (old : string) : string * bool :=
  match v with
  | JNull => (old, true)
  | JString s => (s, true)
  | _ => (old, false)
  end.

(** Into an [int] (64 bits). *)
Definition decode_int (v : json) (old : Z) : Z * bool :=
  match v with
  | JNull => (old, true)
  | JNumber lit =>
    match ParseInt64 lit with
    | Some z => (z, true)
    | None => (old, false)
    end
  | _ => (old, false)
  end.

(** The elements of an array into a [[]string].  A slice is the visible
    part of a backing array: [old] lists the backing array from its
    first element, the elements of the slice first and after them the
    ones a longer slice left behind.  Element [i] of the array is
    decoded into element [i] of the backing array, which comes back
    into the slice when it lay beyond its length, or into a new empty
    string where the backing array has ended: [null], which leaves a
    destination as it is, keeps what an older array wrote there. *)
Fixpoint decode_strings (l : list json) (old : list string) : list string * bool :=
  match l with
  | [] => ([], true)
  | v :: l' =>
    let '(x, ok1) := decode_string v (hd "" old) in
    let '(xs, ok2) := decode_strings l' (tl old) in
    (x :: xs, ok1 && ok2)
  end.

(** Into a [[]string] with the elements [old], whose backing array holds
    [spare] after them: the slice, what its backing array holds after
    it, and whether every value fitted.  [null] gives the nil slice and
    an empty array a new empty slice, neither with a backing array; an
    array shorter than the slice cuts the slice and keeps the backing
    array. *)
Definition decode_string_slice (v : json) (old spare : list string)
  : list string * list string * bool :=
  match v with
  | JNull => ([], [], true)
  | JArray [] => ([], [], true)
  | JArray l =>
    let '(xs, ok) := decode_strings l (old ++ spare) in
    (xs, drop (length l) (old ++ spare), ok)
  | _ => (old, spare, false)
  end.

(** Into an [interface{}], [None] being the nil interface.  The value
    held is represented by the JSON value it was decoded from. *)
Definition decode_interface (v : json) (old : option json) : option json * bool :=
  match v with
  | JNull => (None, true)
  | JNumber lit => if float_overflows lit then (old, false) else (Some v, true)
  | _ => (Some v, interface_ok v)
  end.

End Json.

(** ** Package [adminclient] *)

Module Adminclient.
Import Json.

(** A [time.Time], as the instant it denotes (the code only normalises
    to UTC and formats); the zero value is instant 0. *)
Definition Time : Type := Z.

(** The fields of [url.URL] the code reads or writes. *)
Record URL := {
  Scheme : string;
  Host : string;
  Path : string
}.

Record Attribute := {
  Name : string;
  Names : list string;
  Default : option json
}.

Record AttributeMapping := {
  Keys : gmap string Attribute
}.

(** [Domains] is declared a [*[]string] and used by the provider as a
    [[]string]: it is nil ([None]) or a list, and the provider never makes
    it an empty list, so the two readings agree. *)
Record IdentityProviderRequest := {
  req_ID : string;
  req_ResourceID : string;
  req_Type : string;
  req_Domains : option (list string);
  req_MetadataXML : string;
  req_MetadataURL : string;
  req_AttributeMapping : AttributeMapping;
  req_CreatedAt : Time;
  req_UpdatedAt : Time
}.

Record Domain := {
  domain_Domain : string
}.

Record SAML := {
  saml_MetadataXML : string;
  saml_MetadataURL : string;
  saml_AttributeMapping : AttributeMapping
}.

Record IdentityProviderResponse := {
  ID : string;
  ResourceID : string;
  Domains : list Domain;
  SAML_ : SAML;
  CreatedAt : Time;
  UpdatedAt : Time
}.

(** The struct [Error]: [Op] and [Expected] carry the tag [json:"-"] and
    are invisible to the decoder. *)
Record Error := {
  Op : string;
  Expected : Z;
  Code : Z;
  Message : string;
  ErrorID : string
}.

(** The values of Go's interface [error] the package returns. *)
Inductive error : Type :=
| APIError : Error -> error            (* a [*adminclient.Error] *)
| JSONError : string -> Json.error -> error   (* from [encoding/json], on an input *)
| OtherError : string -> error.        (* from the transport, [io], [net/url] *)

Definition zeroAttribute : Attribute :=
  {| Name := ""; Names := []; Default := None |}.

Definition zeroAttributeMapping : AttributeMapping := {| Keys := ∅ |}.

Definition zeroRequest : IdentityProviderRequest :=
  {| req_ID := ""; req_ResourceID := ""; req_Type := ""; req_Domains := None;
     req_MetadataXML := ""; req_MetadataURL := "";
     req_AttributeMapping := zeroAttributeMapping;
     req_CreatedAt := 0%Z; req_UpdatedAt := 0%Z |}.

(** Assignments to the fields of a request. *)
Definition set_Type (v : string) (r : IdentityProviderRequest) : IdentityProviderRequest :=
  {| req_ID := req_ID r; req_ResourceID := req_ResourceID r; req_Type := v;
     req_Domains := req_Domains r; req_MetadataXML := req_MetadataXML r;
     req_MetadataURL := req_MetadataURL r;
     req_AttributeMapping := req_AttributeMapping r;
     req_CreatedAt := req_CreatedAt r; req_UpdatedAt := req_UpdatedAt r |}.

Definition set_Domains (v : option (list string)) (r : IdentityProviderRequest)
  : IdentityProviderRequest :=
  {| req_ID := req_ID r; req_ResourceID := req_ResourceID r; req_Type := req_Type r;
     req_Domains := v; req_MetadataXML := req_MetadataXML r;
     req_MetadataURL := req_MetadataURL r;
     req_AttributeMapping := req_AttributeMapping r;
     req_CreatedAt := req_CreatedAt r; req_UpdatedAt := req_UpdatedAt r |}.

Definition set_MetadataXML (v : string) (r : IdentityProviderRequest)
  : IdentityProviderRequest :=
  {| req_ID := req_ID r; req_ResourceID := req_ResourceID r; req_Type := req_Type r;
     req_Domains := req_Domains r; req_MetadataXML := v;
     req_MetadataURL := req_MetadataURL r;
     req_AttributeMapping := req_AttributeMapping r;
     req_CreatedAt := req_CreatedAt r; req_UpdatedAt := req_UpdatedAt r |}.

Definition set_MetadataURL (v : string) (r : IdentityProviderRequest)
  : IdentityProviderRequest :=
  {| req_ID := req_ID r; req_ResourceID := req_ResourceID r; req_Type := req_Type r;
     req_Domains := req_Domains r; req_MetadataXML := req_MetadataXML r;
     req_MetadataURL := v;
     req_AttributeMapping := req_AttributeMapping r;
     req_CreatedAt := req_CreatedAt r; req_UpdatedAt := req_UpdatedAt r |}.

Definition set_AttributeMapping (v : AttributeMapping) (r : IdentityProviderRequest)
  : IdentityProviderRequest :=
  {| req_ID := req_ID r; req_ResourceID := req_ResourceID r; req_Type := req_Type r;
     req_Domains := req_Domains r; req_MetadataXML := req_MetadataXML r;
     req_MetadataURL := req_MetadataURL r;
     req_AttributeMapping := v;
     req_CreatedAt := req_CreatedAt r; req_UpdatedAt := req_UpdatedAt r |}.

(** *** What [json.Unmarshal] does on the structs of the package *)

(** A member of an object decoded into an [Attribute]: beside the
    attribute, the state holds what the backing array of [Names] has
    after the slice. *)
Definition decode_Attribute_member (st : Attribute * list string * bool)
    (m : string * json) : Attribute * list string * bool :=
  let '(a, spare, ok) := st in
  match field_index ["name"; "names"; "default"] (fst m) with
  | Some 0%nat =>
    let '(x, ok') := decode_string (snd m) (Name a) in
    ({| Name := x; Names := Names a; Default := Default a |}, spare, ok && ok')
  | Some 1%nat =>
    let '(x, spare', ok') := decode_string_slice (snd m) (Names a) spare in
    ({| Name := Name a; Names := x; Default := Default a |}, spare', ok && ok')
  | Some _ =>
    let '(x, ok') := decode_interface (snd m) (Default a) in
    ({| Name := Name a; Names := Names a; Default := x |}, spare, ok && ok')
  | None => (a, spare, ok)
  end.

(** The destination [old] is a new [Attribute] wherever the package
    decodes one: its [Names] has no backing array. *)
Definition decode_Attribute (v : json) (old : Attribute) : Attribute * bool :=
  match v with
  | JNull => (old, true)
  | JObject ms =>
    let '(a, _, ok) := fold_left decode_Attribute_member ms (old, [], true) in
    (a, ok)
  | _ => (old, false)
  end.

(** Into a [map[string]Attribute]: every member is decoded into a new
    zero [Attribute], which is then stored under the member's name. *)
Definition decode_Keys_member (st : gmap string Attribute * bool)
    (m : string * json) : gmap string Attribute * bool :=
  let '(keys, ok) := st in
  let '(a, ok') := decode_Attribute (snd m) zeroAttribute in
  (<[fst m := a]> keys, ok && ok').

Definition decode_Keys (v : json) (old : gmap string Attribute)
  : gmap string Attribute * bool :=
  match v with
  | JNull => (∅, true)
  | JObject ms => fold_left decode_Keys_member ms (old, true)
  | _ => (old, false)
  end.

Definition decode_AttributeMapping_member (st : AttributeMapping * bool)
    (m : string * json) : AttributeMapping * bool :=
  let '(am, ok) := st in
  match field_index ["keys"] (fst m) with
  | Some _ =>
    let '(k, ok') := decode_Keys (snd m) (Keys am) in
    ({| Keys := k |}, ok && ok')
  | None => (am, ok)
  end.

Definition decode_AttributeMapping (v : json) (old : AttributeMapping)
  : AttributeMapping * bool :=
  match v with
  | JNull => (old, true)
  | JObject ms => fold_left decode_AttributeMapping_member ms (old, true)
  | _ => (old, false)
  end.

Definition decode_Error_member (st : Error * bool) (m : string * json)
  : Error * bool :=
  let '(e, ok) := st in
  match field_index ["code"; "msg"; "error_id"] (fst m) with
  | Some 0%nat =>
    let '(x, ok') := decode_int (snd m) (Code e) in
    ({| Op := Op e; Expected := Expected e; Code := x; Message := Message e;
        ErrorID := ErrorID e |}, ok && ok')
  | Some 1%nat =>
    let '(x, ok') := decode_string (snd m) (Message e) in
    ({| Op := Op e; Expected := Expected e; Code := Code e; Message := x;
        ErrorID := ErrorID e |}, ok && ok')
  | Some _ =>
    let '(x, ok') := decode_string (snd m) (ErrorID e) in
    ({| Op := Op e; Expected := Expected e; Code := Code e; Message := Message e;
        ErrorID := x |}, ok && ok')
  | None => (e, ok)
  end.

Definition decode_Error (v : json) (old : Error) : Error * bool :=
  match v with
  | JNull => (old, true)
  | JObject ms => fold_left decode_Error_member ms (old, true)
  | _ => (old, false)
  end.

(** [json.Unmarshal(data, &x)] for a decoder [dec] of the type of [x]:
    the value [x] holds afterwards and the error returned. *)
Definition Unmarshal {A} (dec : json -> A -> A * bool) (data : string) (x : A)
  : A * option Json.error :=
  match parse data with
  | Parsed v =>
    let '(y, ok) := dec v x in
    (y, if ok then None else Some UnmarshalTypeError)
  | _ => (x, Some SyntaxError)
  end.

(** *** Errors *)

(** What the HTTP transport hands back: the status code, and what
    [io.ReadAll] gives on the body, its bytes or a read error. *)
Record Response := {
  StatusCode : Z;
  Body : string + string
}.

Definition StatusOK : Z := 200.
Definition StatusCreated : Z := 201.

Definition parseError (res : Response) (expected : Z) (op : string) : error :=
  match Body res with
  | inr err => OtherError err
  | inl body =>
    let errorObject :=
      {| Op := op; Expected := expected; Code := StatusCode res;
         Message := ""; ErrorID := "" |} in
    match Unmarshal decode_Error body errorObject with
    | (e, Some _) =>
      APIError {| Op := Op e; Expected := Expected e; Code := Code e;
                  Message := body; ErrorID := ErrorID e |}
    | (e, None) => APIError e
    end
  end.

(** The method [Error] of [*Error]. *)
Definition Error_Error (e : Error) : string :=
  "adminclient: expected HTTP " ++ pretty (Expected e) ++ " when " ++ Op e
  ++ ", got HTTP " ++ pretty (Code e) ++ ": " ++ Message e.

(** *** What the encoder emits ([json.Marshal], [Encoder.Encode])

    The JSON value a struct is encoded as, by its field tags: a member
    tagged [omitempty] is left out when its field is an empty string, an
    empty slice or map, a nil pointer or a nil interface; a struct-valued
    member ([attribute_mapping], the two times) is always emitted.  The
    keys of a map are emitted in sorted order. *)

Definition member_if (b : bool) (k : string) (v : json) : list (string * json) :=
  if b then [(k, v)] else [].

Definition nonempty (s : string) : bool := negb (String.eqb s "").

Definition Marshal_Attribute (a : Attribute) : json :=
  JObject
    (member_if (nonempty (Name a)) "name" (JString (Name a))
     ++ member_if (negb (bool_decide (Names a = []))) "names"
          (JArray (map JString (Names a)))
     ++ match Default a with
        | Some v => [("default", v)]
        | None => []
        end).

Fixpoint insert_sorted (x : string) (l : list string) : list string :=
  match l with
  | [] => [x]
  | y :: l' => if String.leb x y then x :: l else y :: insert_sorted x l'
  end.

(** [sort.Strings]: the list in increasing order of its byte strings.
    (A list of strings has one sorted arrangement, so the result does not
    depend on how Go sorts: lemma [sort_Strings_unique].) *)
Definition sort_Strings (l : list string) : list string :=
  fold_right insert_sorted [] l.

Definition Marshal_AttributeMapping (am : AttributeMapping) : json :=
  JObject
    (member_if (negb (bool_decide (Keys am = ∅))) "keys"
       (JObject
          (omap (fun k => (fun a => (k, Marshal_Attribute a)) <$> Keys am !! k)
             (sort_Strings (map fst (map_to_list (Keys am))))))).


(** *** The client *)

(** An [http.Header] is a map object.  The map objects the program
    creates live in a store, and a variable of type [http.Header] holds the
    location of one: two variables can name the same map. *)
Abbreviation Header := (gmap string (list string)).
Abbreviation loc := positive.
Abbreviation store := (gmap positive (gmap string (list string))).

Definition alloc (m : Header) (h : store) : loc * store :=
  let l := fresh (dom h) in (l, <[l := m]> h).

(** [Header.Clone] of a map that is not nil: a new map object with the
    same entries. *)
Definition Header_Clone (l : loc) (h : store) : loc * store :=
  alloc (h !!! l) h.

(** An [*http.Request], as far as the client sets it up. *)
Record Request := {
  Method : string;
  RequestURL : string;
  RequestHeader : loc;
  RequestBody : option string
}.

(** The interface [HTTPClient].  An implementation is handed the request;
    of the store it is given, and may change, the header map of that
    request, which is the one map of the client's it can reach. *)
Record HTTPClient := {
  Do : Request -> Header -> (error + Response) * Header
}.

Definition HTTPClient_Do (t : HTTPClient) (req : Request) (h : store)
  : (error + Response) * store :=
  let '(res, m) := Do t req (h !!! RequestHeader req) in
  (res, <[RequestHeader req := m]> h).

(** The functions of Go's library that the client and the provider call
    and that are not modelled: the properties below hold whatever they
    return. *)
Class GoLib := {
  (** [strconv.Quote], the verb [%q] *)
  Quote : string -> string;
  (** [t.UTC().Format(time.RFC3339)] *)
  Format_RFC3339_UTC : Time -> string;
  (** [Time.MarshalJSON] *)
  Time_MarshalJSON : Time -> json;
  (** the text of a JSON value, with the line feed [Encode] appends *)
  json_text : json -> string;
  (** the method [Error] of the errors of [encoding/json], for an input *)
  json_error_text : string -> Json.error -> string;
  (** [url.ParseRequestURI]: the text of the error, or the URL *)
  ParseRequestURI : string -> string + URL;
  (** the method [String] of a URL *)
  URL_String : URL -> string;
  (** the error of [http.NewRequestWithContext] for a method and a URL,
      if it returns one *)
  NewRequest_error : string -> string -> option error;
  CanonicalMIMEHeaderKey : string -> string;
  (** [provider.UserAgent("terraform-provider-gotrue", Version)]; the
      constant [Version] is declared outside the files at hand *)
  UserAgent : string;
  DefaultClient : HTTPClient;
  (** [json.NewDecoder(body).Decode(&provider)] *)
  Decode_response : string -> error + IdentityProviderResponse
}.

(** [Header.Add] *)
Definition Header_Add `{GoLib} (l : loc) (key value : string) (h : store) : store :=
  let k := CanonicalMIMEHeaderKey key in
  <[l := <[k := (h !!! l) !!! k ++ [value]]> (h !!! l)]> h.

(** [Header.Get]: the first value under a key, or the empty string. *)
Definition Header_Get `{GoLib} (l : loc) (key : string) (h : store) : string :=
  hd "" ((h !!! l) !!! CanonicalMIMEHeaderKey key).

Definition Marshal_IdentityProviderRequest `{GoLib} (r : IdentityProviderRequest) : json :=
  JObject
    (member_if (nonempty (req_ID r)) "id" (JString (req_ID r))
     ++ member_if (nonempty (req_ResourceID r)) "resource_id"
          (JString (req_ResourceID r))
     ++ member_if (nonempty (req_Type r)) "type" (JString (req_Type r))
     ++ match req_Domains r with
        | Some l => [("domains", JArray (map JString l))]
        | None => []
        end
     ++ member_if (nonempty (req_MetadataXML r)) "metadata_xml"
          (JString (req_MetadataXML r))
     ++ member_if (nonempty (req_MetadataURL r)) "metadata_url"
          (JString (req_MetadataURL r))
     ++ [("attribute_mapping", Marshal_AttributeMapping (req_AttributeMapping r));
         ("created_at", Time_MarshalJSON (req_CreatedAt r));
         ("updated_at", Time_MarshalJSON (req_UpdatedAt r))]).

(** The struct [client] while the options are applied to it: the
    transport and the header map can be nil. *)
Record client := {
  client_HTTPClient : option HTTPClient;
  client_BaseURL : URL;
  client_Headers : option loc
}.

(** A [Client] as [New] returns it: [New] has replaced a nil transport and
    a nil header map, so the methods find neither nil. *)
Record Client := {
  HTTPClient_ : HTTPClient;
  BaseURL : URL;
  Headers : loc
}.

Definition Option : Type := client -> store -> client * store.

Definition WithHTTPClient (httpClient : option HTTPClient) : Option :=
  fun c h =>
    ({| client_HTTPClient := httpClient; client_BaseURL := client_BaseURL c;
        client_Headers := client_Headers c |}, h).

(** [strings.TrimSuffix(s, "/")] *)
Fixpoint TrimSuffix_slash (s : string) : string :=
  match s with
  | EmptyString => EmptyString
  | String c EmptyString => if Ascii.eqb c "/" then EmptyString else s
  | String c s' => String c (TrimSuffix_slash s')
  end.

Definition WithBaseURL (url : URL) : Option :=
  fun c h =>
    ({| client_HTTPClient := client_HTTPClient c;
        client_BaseURL :=
          {| Scheme := Scheme url; Host := Host url;
             Path := TrimSuffix_slash (Path url) |};
        client_Headers := client_Headers c |}, h).

(** The clone of a nil map is nil. *)
Definition WithHeaders (headers : option loc) : Option :=
  fun c h =>
    match headers with
    | Some l =>
      let '(l', h') := Header_Clone l h in
      ({| client_HTTPClient := client_HTTPClient c;
          client_BaseURL := client_BaseURL c;
          client_Headers := Some l' |}, h')
    | None =>
      ({| client_HTTPClient := client_HTTPClient c;
          client_BaseURL := client_BaseURL c;
          client_Headers := None |}, h)
    end.

Definition zero_client : client :=
  {| client_HTTPClient := None;
     client_BaseURL := {| Scheme := ""; Host := ""; Path := "" |};
     client_Headers := None |}.

(** [New]; the error it returns is always nil. *)
Definition New `{GoLib} (options : list Option) (h : store) : Client * store :=
  let '(c, h1) := fold_left (fun st (option : Option) => option (fst st) (snd st))
                    options (zero_client, h) in
  let '(l, h2) := match client_Headers c with
                  | Some l => (l, h1)
                  | None => alloc ∅ h1
                  end in
  ({| HTTPClient_ := default DefaultClient (client_HTTPClient c);
      BaseURL := client_BaseURL c;
      Headers := l |}, h2).

Section Methods.
Context `{GoLib}.

Definition provider_url (c : Client) (suffix : string) : string :=
  URL_String {| Scheme := Scheme (BaseURL c); Host := Host (BaseURL c);
                Path := Path (BaseURL c) ++ suffix |}.

(** The part the four methods share once the request is made: the
    transport is called; a status other than the expected one is an
    API error. *)
Definition send (c : Client) (req : Request) (expected : Z) (op : string)
    (h : store) : (error + Response) * store :=
  match HTTPClient_Do (HTTPClient_ c) req h with
  | (inl err, h') => (inl err, h')
  | (inr res, h') =>
    if bool_decide (StatusCode res ≠ expected)
    then (inl (parseError res expected op), h')
    else (inr res, h')
  end.

Definition decode_provider (res : Response) : error + IdentityProviderResponse :=
  match Body res with
  | inr err => inl (OtherError err)
  | inl data => Decode_response data
  end.

Definition GetIdentityProvider (c : Client) (id : string) (h : store)
  : (error + IdentityProviderResponse) * store :=
  let url := provider_url c ("/admin/sso/providers/" ++ id) in
  match NewRequest_error "GET" url with
  | Some err => (inl err, h)
  | None =>
    let '(hdr, h1) := Header_Clone (Headers c) h in
    let req := {| Method := "GET"; RequestURL := url; RequestHeader := hdr;
                  RequestBody := None |} in
    match send c req StatusOK
            ("fetching identity provider with id " ++ Quote id) h1 with
    | (inl err, h2) => (inl err, h2)
    | (inr res, h2) => (decode_provider res, h2)
    end
  end.

(** ([Encode] returns an error only for a default value or a time that
    JSON cannot represent; the values of a request here are all
    representable, so that return of Create and of Update is left out.) *)
Definition CreateIdentityProvider (c : Client) (template : IdentityProviderRequest)
    (h : store) : (error + IdentityProviderResponse) * store :=
  let url := provider_url c "/admin/sso/providers" in
  let buffer := json_text (Marshal_IdentityProviderRequest template) in
  match NewRequest_error "POST" url with
  | Some err => (inl err, h)
  | None =>
    let '(hdr, h1) := Header_Clone (Headers c) h in
    let req := {| Method := "POST"; RequestURL := url; RequestHeader := hdr;
                  RequestBody := Some buffer |} in
    let h1' := Header_Add hdr "Content-Type" "application/json" h1 in
    match send c req StatusCreated "creating new identity provider" h1' with
    | (inl err, h2) => (inl err, h2)
    | (inr res, h2) => (decode_provider res, h2)
    end
  end.

Definition UpdateIdentityProvider (c : Client) (id : string)
    (template : IdentityProviderRequest) (h : store)
  : (error + IdentityProviderResponse) * store :=
  let url := provider_url c ("/admin/sso/providers/" ++ id) in
  let buffer := json_text (Marshal_IdentityProviderRequest template) in
  match NewRequest_error "PUT" url with
  | Some err => (inl err, h)
  | None =>
    let '(hdr, h1) := Header_Clone (Headers c) h in
    let req := {| Method := "PUT"; RequestURL := url; RequestHeader := hdr;
                  RequestBody := Some buffer |} in
    let h1' := Header_Add hdr "Content-Type" "application/json" h1 in
    match send c req StatusOK
            ("updating identity provider with ID " ++ Quote id) h1' with
    | (inl err, h2) => (inl err, h2)
    | (inr res, h2) => (decode_provider res, h2)
    end
  end.

Definition DeleteIdentityProvider (c : Client) (id : string) (h : store)
  : option error * store :=
  let url := provider_url c ("/admin/sso/providers/" ++ id) in
  match NewRequest_error "DELETE" url with
  | Some err => (Some err, h)
  | None =>
    let '(hdr, h1) := Header_Clone (Headers c) h in
    let req := {| Method := "DELETE"; RequestURL := url; RequestHeader := hdr;
                  RequestBody := None |} in
    match send c req StatusOK
            ("deleting identity provider with ID " ++ Quote id) h1 with
    | (inl err, h2) => (Some err, h2)
    | (inr _, h2) => (None, h2)
    end
  end.

End Methods.

End Adminclient.

(** ** Package [gotrue]: the provider *)

Module Gotrue.
Import Utf8 Regexp Json Adminclient.

(** *** Diagnostics (package [diag]) *)

Inductive Severity : Type :=
| Error : Severity
| Warning : Severity.

Record Diagnostic := {
  Severity_ : Severity;
  Summary : string;
  Detail : string
}.

Abbreviation Diagnostics := (list Diagnostic).

(** The method [Error] of an [error]. *)
Definition error_text `{GoLib} (err : Adminclient.error) : string :=
  match err with
  | APIError e => Error_Error e
  | JSONError data e => json_error_text data e
  | OtherError msg => msg
  end.

(** [diag.FromErr] *)
Definition FromErr (text : string) : Diagnostics :=
  [{| Severity_ := Error; Summary := text; Detail := "" |}].

(** What a function that can panic does. *)
Inductive outcome (A : Type) : Type :=
| Returned : A -> outcome A
| Panicked : outcome A.
Arguments Returned {A} _.
Arguments Panicked {A}.

(** *** The resource record ([schema.ResourceData])

    A [schema.Set] keeps its items in a map, each under the decimal text
    of its hash code: an item whose code the set already has is not added.
    The sets of the provider hold strings and hash them with
    [schema.HashString]. *)
Abbreviation schema_Set := (gmap string string).

(** [schema.HashString], and the key [Set.hash] makes of it. *)
Definition HashString (v : string) : Z := Hashcode.String v.

Definition Set_hash (item : string) : string :=
  let code := HashString item in
  pretty (if (code <? 0)%Z then (- code)%Z else code).

(** [schema.NewSet(schema.HashString, nil)] *)
Definition NewSet : schema_Set := ∅.

(** [Set.Add] *)
Definition Set_Add (item : string) (s : schema_Set) : schema_Set :=
  let code := Set_hash item in
  match s !! code with
  | Some _ => s
  | None => <[code := item]> s
  end.

(** [Set.List]: the items in the order of their keys. *)
Definition Set_List (s : schema_Set) : list string :=
  omap (fun code => s !! code) (sort_Strings (map fst (map_to_list s))).

(** [Set.Len] *)
Definition Set_Len (s : schema_Set) : nat := size s.

(** The fields of the resource [gotrue_saml_identity_provider]. *)
Record Fields := {
  metadata_url : string;
  metadata_xml : string;
  domains : schema_Set;
  attribute_mapping : string;
  created_at : string;
  updated_at : string
}.

(** The record holds the values of the prior state and the current ones
    (the configuration merged over the state, then what [Set] wrote):
    [Get] reads the current value of a field, [HasChange] compares it with
    the prior one, [Set] and [SetId] write. *)
Record ResourceData := {
  Id : string;
  prior : Fields;
  current : Fields
}.

Definition SetId (v : string) (d : ResourceData) : ResourceData :=
  {| Id := v; prior := prior d; current := current d |}.

Definition Set_metadata_url (v : string) (d : ResourceData) : ResourceData :=
  {| Id := Id d; prior := prior d;
     current := {| metadata_url := v; metadata_xml := metadata_xml (current d);
                   domains := domains (current d);
                   attribute_mapping := attribute_mapping (current d);
                   created_at := created_at (current d);
                   updated_at := updated_at (current d) |} |}.

Definition Set_metadata_xml (v : string) (d : ResourceData) : ResourceData :=
  {| Id := Id d; prior := prior d;
     current := {| metadata_url := metadata_url (current d); metadata_xml := v;
                   domains := domains (current d);
                   attribute_mapping := attribute_mapping (current d);
                   created_at := created_at (current d);
                   updated_at := updated_at (current d) |} |}.

Definition Set_domains (v : schema_Set) (d : ResourceData) : ResourceData :=
  {| Id := Id d; prior := prior d;
     current := {| metadata_url := metadata_url (current d);
                   metadata_xml := metadata_xml (current d);
                   domains := v;
                   attribute_mapping := attribute_mapping (current d);
                   created_at := created_at (current d);
                   updated_at := updated_at (current d) |} |}.

Definition Set_attribute_mapping (v : string) (d : ResourceData) : ResourceData :=
  {| Id := Id d; prior := prior d;
     current := {| metadata_url := metadata_url (current d);
                   metadata_xml := metadata_xml (current d);
                   domains := domains (current d);
                   attribute_mapping := v;
                   created_at := created_at (current d);
                   updated_at := updated_at (current d) |} |}.

Definition Set_created_at (v : string) (d : ResourceData) : ResourceData :=
  {| Id := Id d; prior := prior d;
     current := {| metadata_url := metadata_url (current d);
                   metadata_xml := metadata_xml (current d);
                   domains := domains (current d);
                   attribute_mapping := attribute_mapping (current d);
                   created_at := v;
                   updated_at := updated_at (current d) |} |}.

Definition Set_updated_at (v : string) (d : ResourceData) : ResourceData :=
  {| Id := Id d; prior := prior d;
     current := {| metadata_url := metadata_url (current d);
                   metadata_xml := metadata_xml (current d);
                   domains := domains (current d);
                   attribute_mapping := attribute_mapping (current d);
                   created_at := created_at (current d);
                   updated_at := v |} |}.

(** [d.HasChange(key)] for a field read by [get]: whether the prior and the
    current value differ (two sets are equal when their maps are). *)
Definition HasChange {A} `{EqDecision A} (get : Fields -> A) (d : ResourceData) : bool :=
  negb (bool_decide (get (prior d) = get (current d))).

(** [d.GetOk(key)] on a string field: the value and whether it is not the
    zero value. *)
Definition GetOk_string (get : Fields -> string) (d : ResourceData) : string * bool :=
  (get (current d), negb (String.eqb (get (current d)) "")).

(** [d.GetOk("domains")]: a set is zero when it has no items. *)
Definition GetOk_domains (d : ResourceData) : schema_Set * bool :=
  (domains (current d), negb (Set_Len (domains (current d)) =? 0)%nat).

(** [append] to a slice that may be nil. *)
Definition append (l : option (list string)) (x : string) : option (list string) :=
  Some (default [] l ++ [x]).

(** *** Synchronisation of a response into the record *)

(** The strings of the response's domains, sorted: the local [domains]
    after [sort.Strings]. *)
Definition sorted_domains (provider : IdentityProviderResponse) : list string :=
  sort_Strings (fold_left (fun domains domain => domains ++ [domain_Domain domain])
                  (Domains provider) []).

(** The set the sorted strings are added to, one after the other. *)
Definition domainsSet (provider : IdentityProviderResponse) : schema_Set :=
  fold_left (fun s domain => Set_Add domain s) (sorted_domains provider) NewSet.

(** [resourceIdentityProviderSet].  ([d.Set] returns an error only for a
    key or a type the schema does not have, and [json.Marshal] only for a
    value JSON cannot represent; neither happens here.) *)
Definition resourceIdentityProviderSet `{GoLib} (provider : IdentityProviderResponse)
    (d : ResourceData) : ResourceData * Diagnostics :=
  let d := SetId (ID provider) d in
  let d :=
    if nonempty (saml_MetadataURL (SAML_ provider))
    then Set_metadata_url (saml_MetadataURL (SAML_ provider)) d
    else if nonempty (saml_MetadataXML (SAML_ provider))
    then Set_metadata_xml (saml_MetadataXML (SAML_ provider)) d
    else d in
  let d := Set_created_at (Format_RFC3339_UTC (CreatedAt provider)) d in
  let d := Set_updated_at (Format_RFC3339_UTC (UpdatedAt provider)) d in
  let d := Set_domains (domainsSet provider) d in
  let keys := json_text (Marshal_AttributeMapping (saml_AttributeMapping (SAML_ provider))) in
  let d := Set_attribute_mapping keys d in
  (d, []).

(** *** The four operations of the resource

    Each takes the record, the client and the store of header maps, and
    returns the record and the store as it leaves them, with its
    diagnostics. *)

Definition resourceIdentityProviderRead `{GoLib} (d : ResourceData) (m : Client)
    (h : store) : ResourceData * Diagnostics * store :=
  match GetIdentityProvider m (Id d) h with
  | (inl err, h') => (d, FromErr (error_text err), h')
  | (inr provider, h') => (resourceIdentityProviderSet provider d, h')
  end.

(** The request [resourceIdentityProviderUpdate] builds before it calls the
    client, or the error of [json.Unmarshal] it returns instead. *)
Definition update_template (d : ResourceData) : Json.error + IdentityProviderRequest :=
  let template := zeroRequest in
  let template :=
    if HasChange metadata_url d then
      set_MetadataURL (metadata_url (current d)) template
    else if HasChange metadata_xml d then
      set_MetadataXML (metadata_xml (current d)) template
    else template in
  let template :=
    if HasChange domains d then
      fold_left (fun template domain =>
                   set_Domains (append (req_Domains template) domain) template)
        (Set_List (domains (current d))) template
    else template in
  if HasChange attribute_mapping d then
    let '(keys, ok) := GetOk_string attribute_mapping d in
    if ok && nonempty keys then
      match Unmarshal decode_AttributeMapping keys (req_AttributeMapping template) with
      | (_, Some err) => inl err
      | (am, None) => inr (set_AttributeMapping am template)
      end
    else inr template
  else inr template.

Definition resourceIdentityProviderUpdate `{GoLib} (d : ResourceData) (m : Client)
    (h : store) : ResourceData * Diagnostics * store :=
  match update_template d with
  | inl err =>
    (d, FromErr (error_text (JSONError (attribute_mapping (current d)) err)), h)
  | inr template =>
    match UpdateIdentityProvider m (Id d) template h with
    | (inl err, h') => (d, FromErr (error_text err), h')
    | (inr provider, h') => (resourceIdentityProviderSet provider d, h')
    end
  end.

Definition resourceIdentityProviderDelete `{GoLib} (d : ResourceData) (m : Client)
    (h : store) : ResourceData * Diagnostics * store :=
  match DeleteIdentityProvider m (Id d) h with
  | (Some err, h') => (d, FromErr (error_text err), h')
  | (None, h') => (SetId "" d, [], h')
  end.

(** The request [resourceIdentityProviderCreate] builds. *)
Definition create_template (d : ResourceData) : Json.error + IdentityProviderRequest :=
  let template := set_Type "saml" zeroRequest in
  let template :=
    let '(metadataURL, ok) := GetOk_string metadata_url d in
    if ok && nonempty metadataURL then set_MetadataURL metadataURL template
    else
      let '(metadataXML, ok) := GetOk_string metadata_xml d in
      if ok && nonempty metadataXML then set_MetadataXML metadataXML template
      else template in
  let template :=
    let '(domainsSet, ok) := GetOk_domains d in
    if ok then
      let domains := fold_left append (Set_List domainsSet) None in
      set_Domains domains template
    else template in
  let '(keys, ok) := GetOk_string attribute_mapping d in
  if ok && nonempty keys then
    match Unmarshal decode_AttributeMapping keys (req_AttributeMapping template) with
    | (_, Some err) => inl err
    | (am, None) => inr (set_AttributeMapping am template)
    end
  else inr template.

Definition resourceIdentityProviderCreate `{GoLib} (d : ResourceData) (m : Client)
    (h : store) : ResourceData * Diagnostics * store :=
  match create_template d with
  | inl err =>
    (d, FromErr (error_text (JSONError (attribute_mapping (current d)) err)), h)
  | inr template =>
    match CreateIdentityProvider m template h with
    | (inl err, h') => (d, FromErr (error_text err), h')
    | (inr provider, h') => (resourceIdentityProviderSet provider d, h')
    end
  end.

(** *** Validation of the fields *)

(** The class [a-z0-9-]. *)
Definition domain_chars : regex :=
  CharClass [(ch "a", ch "z"); (ch "0", ch "9"); (ch "-", ch "-")].

(** [domainPattern], the pattern [^[a-z0-9-]+(.[a-z0-9-]+)*$]: the dot is
    not escaped in the source and stands for any character but a line
    feed. *)
Definition domainPattern : Regexp :=
  {| begin_text := true;
     body := Concat (Plus domain_chars)
               (Star (Concat AnyCharNotNL (Plus domain_chars)));
     end_text := true |}.

(** The [ValidateDiagFunc] of an element of [domains]. *)
Definition validate_domain `{GoLib} (value : string) : Diagnostics :=
  let diags := [] in
  let diags :=
    if negb (MatchString domainPattern value) then
      diags ++ [{| Severity_ := Error;
                   Summary := "Value " ++ Quote value ++ " is not a valid domain";
                   Detail := "" |}]
    else diags in
  diags.

Definition is_nil {A} (x : option A) : bool :=
  match x with
  | None => true
  | Some _ => false
  end.

(** The body of the loop over [value.Names]. *)
Definition validate_name `{GoLib} (key : string) (i : nat) (name : string) : Diagnostics :=
  if String.eqb name "" then
    [{| Severity_ := Error;
        Summary := "Attribute mapping name under " ++ Quote key
                   ++ ".names at position " ++ pretty i ++ " is empty";
        Detail := "" |}]
  else [].

(** The body of the loop over [mapping.Keys]. *)
Definition validate_key `{GoLib} (entry : string * Attribute) : Diagnostics :=
  let '(key, value) := entry in
  if String.eqb (Name value) "" && (length (Names value) =? 0)%nat
     && is_nil (Default value) then
    [{| Severity_ := Error;
        Summary := "Attribute mapping key " ++ Quote key
                   ++ " must have at least one property set: name, names or default";
        Detail := "" |}]
  else if (0 <? length (Names value))%nat then
    mjoin (imap (validate_name key) (Names value))
  else [].

(** The [ValidateDiagFunc] of [attribute_mapping].  Go ranges over a map
    in an order it does not specify; [map_to_list] is one such order, and
    the diagnostics of any other are a permutation of these. *)
Definition validate_attribute_mapping `{GoLib} (value : string) : Diagnostics :=
  match Unmarshal decode_AttributeMapping value zeroAttributeMapping with
  | (_, Some err) =>
    [{| Severity_ := Error;
        Summary := "attribute_mapping must be valid JSON";
        Detail := "JSON parsing failed: " ++ json_error_text value err |}]
  | (mapping, None) =>
    mjoin (map validate_key (map_to_list (Keys mapping)))
  end.

Definition digit : regex := CharClass [(ch "0", ch "9")].

(** The pattern [^(localhost|127(.[0-9]{1,3}){3})(:[0-9]+)?$] of the
    validator of [url]; its dots are not escaped either. *)
Definition loopbackPattern : Regexp :=
  {| begin_text := true;
     body :=
       Concat
         (Alternate (Literal "localhost")
            (Concat (Literal "127")
               (Concat (Concat AnyCharNotNL (Repeat13 digit))
                  (Concat (Concat AnyCharNotNL (Repeat13 digit))
                     (Concat AnyCharNotNL (Repeat13 digit))))))
         (Quest (Concat (Literal1 ":") (Plus digit)));
     end_text := true |}.

(** The [ValidateDiagFunc] of the provider's [url].  [parsedURL] is a
    pointer, nil when [url.ParseRequestURI] returns an error; reading a
    field through a nil pointer panics. *)
Definition validate_url `{GoLib} (rawURL : string) : outcome Diagnostics :=
  let diags := [] in
  if String.eqb rawURL "" then
    Returned (diags ++ [{| Severity_ := Error; Summary := "GoTrue URL is empty";
                           Detail := "" |}])
  else
    let '(parsedURL, err) :=
      match ParseRequestURI rawURL with
      | inl err => (None, Some err)
      | inr u => (Some u, None)
      end in
    let diags :=
      match err with
      | Some err =>
        diags ++ [{| Severity_ := Error; Summary := "GoTrue URL is not valid";
                     Detail := "Unable to parse URL: " ++ err |}]
      | None => diags
      end in
    match parsedURL with
    | None => Panicked
    | Some parsedURL =>
      let diags :=
        if negb (String.eqb (Scheme parsedURL) "http")
           && negb (String.eqb (Scheme parsedURL) "https") then
          diags ++ [{| Severity_ := Error;
                       Summary := "GoTrue URL is not HTTP(S): "
                                  ++ Quote (Scheme parsedURL);
                       Detail := "" |}]
        else diags in
      let islocalhost := MatchString loopbackPattern (Host parsedURL) in
      let diags :=
        if negb islocalhost then
          if String.eqb (Scheme parsedURL) "http" then
            diags ++ [{| Severity_ := Warning;
                         Summary := "GoTrue URL does not use HTTPS";
                         Detail := "Communication with GoTrue should occur over HTTPS whenever possible" |}]
          else diags
        else diags in
      Returned diags
    end.

(** *** Configuration of the provider *)

(** The configuration of the provider: the address and the headers. *)
Record ProviderData := {
  url : string;
  headers : gmap string string
}.

(** [providerConfigure]: it panics on an address that does not parse (the
    validator is meant to have refused it), collects the configured headers
    and the user agent in a new header map, warns when there is no
    [Authorization] header, and makes the client, which gets a copy of the
    map.  ([New] never returns an error.) *)
Definition providerConfigure `{GoLib} (d : ProviderData) (h : store)
  : outcome (Client * Diagnostics * store) :=
  let diags := [] in
  match ParseRequestURI (url d) with
  | inl err => Panicked
  | inr parsedURL =>
    let '(headers_, h) := alloc ∅ h in
    let h := fold_left (fun h kv => Header_Add headers_ (fst kv) (snd kv) h)
               (map_to_list (headers d)) h in
    let h := Header_Add headers_ "User-Agent" UserAgent h in
    let diags :=
      if String.eqb (Header_Get headers_ "Authorization" h) "" then
        diags ++ [{| Severity_ := Warning;
                     Summary := "No Authorization header, requests may fail";
                     Detail := "There was no Authorization header configured, requests may fail (depending on setup)" |}]
      else diags in
    let '(client, h) := New [WithBaseURL parsedURL; WithHeaders (Some headers_)] h in
    Returned (client, diags, h)
  end.

End Gotrue.

(** ** The specification's own definitions

    What the specification says in words, written down beside the code so
    that the two can be compared. *)

Module Spec.
Import Utf8 Regexp Json Adminclient Gotrue.

(** A lowercase letter, a digit or a hyphen. *)
Definition domain_char (c : ascii) : bool :=
  let n := N_of_ascii c in
  ((97 <=? n) && (n <=? 122) || (48 <=? n) && (n <=? 57) || (n =? 45))%N.

(** A segment: one or more such characters. *)
Inductive segment : string -> Prop :=
| segment_one c : domain_char c = true -> segment (String c EmptyString)
| segment_more c s : domain_char c = true -> segment s -> segment (String c s).

(** Segments separated by single dots, at least one segment, no leading
    and no trailing dot. *)
Inductive domain_name : string -> Prop :=
| domain_one s : segment s -> domain_name s
| domain_dot s d : segment s -> domain_name d -> domain_name (s ++ "." ++ d).

(** The one diagnostic of a value that is not a valid domain. *)
Definition invalid_domain `{GoLib} (value : string) : Diagnostic :=
  {| Severity_ := Error;
     Summary := "Value " ++ Quote value ++ " is not a valid domain";
     Detail := "" |}.

(** An attribute with none of name, a non-empty list of names, default. *)
Definition nothing_set (a : Attribute) : Prop :=
  Name a = "" /\ Names a = [] /\ Default a = None.

#[global] Instance nothing_set_dec a : Decision (nothing_set a).
Proof.
  unfold nothing_set. destruct (Default a).
  - right. intros (_ & _ & Hd). discriminate.
  - destruct (decide (Name a = "")); [|right; tauto].
    destruct (decide (Names a = [])); [|right; tauto].
    left. tauto.
Defined.

(** The JSON names of the fields of [Error] the decoder sees. *)
Definition Error_fields : list string := ["code"; "msg"; "error_id"].

Definition int_value (v : json) : option Z :=
  match v with
  | JNumber lit => ParseInt64 lit
  | _ => None
  end.

Definition string_value (v : json) : option string :=
  match v with
  | JString s => Some s
  | _ => None
  end.

(** The values a payload gives for the field of index [i], in order. *)
Definition values_for (i : nat) (ms : list (string * json)) : list json :=
  omap (fun m => if bool_decide (field_index Error_fields (fst m) = Some i)
                 then Some (snd m) else None) ms.

(** The [code] of a payload: the last integer it gives for that field. *)
Definition payload_code (v : json) : option Z :=
  match v with
  | JObject ms => last (omap int_value (values_for 0 ms))
  | _ => None
  end.

(** The [msg] of a payload: the last string it gives for that field. *)
Definition payload_msg (v : json) : option string :=
  match v with
  | JObject ms => last (omap string_value (values_for 1 ms))
  | _ => None
  end.

(** Whether a value can be decoded into an [int]: [null] or an integer. *)
Definition fits_int (v : json) : bool :=
  match v with
  | JNull => true
  | JNumber lit => bool_decide (is_Some (ParseInt64 lit))
  | _ => false
  end.

(** Whether a value can be decoded into a [string]: [null] or a string. *)
Definition fits_string (v : json) : bool :=
  match v with
  | JNull | JString _ => true
  | _ => false
  end.

(** A member fits the error shape when it is none of the three fields or
    has the kind of its field: an integer for [code], a string for [msg]
    and for [error_id]. *)
Definition member_fits (m : string * json) : bool :=
  match field_index Error_fields (fst m) with
  | Some 0%nat => fits_int (snd m)
  | Some _ => fits_string (snd m)
  | None => true
  end.

(** JSON of the error shape: [null], or an object whose members fit. *)
Definition error_shape (v : json) : bool :=
  match v with
  | JNull => true
  | JObject ms => forallb member_fits ms
  | _ => false
  end.

(** The error [parseError] builds from a response whose body can be read. *)
Definition api_error_of (res : Response) (expected : Z) (op body : string)
    (e : Adminclient.Error) : Prop :=
  Op e = op /\ Expected e = expected
  /\ match parse body with
     | Parsed v =>
       Code e = default (StatusCode res) (payload_code v)
       /\ Message e = if error_shape v then default "" (payload_msg v) else body
     | _ => Code e = StatusCode res /\ Message e = body
     end.


(** The positions of the empty strings in a list of names that starts at
    position [i]. *)
Fixpoint empty_positions_from (i : nat) (names : list string) : list nat :=
  match names with
  | [] => []
  | n :: names' =>
    (if String.eqb n "" then [i] else []) ++ empty_positions_from (S i) names'
  end.

Definition empty_positions (names : list string) : list nat :=
  empty_positions_from 0 names.

(** The diagnostic for a key with nothing set. *)
Definition nothing_set_diag `{GoLib} (key : string) : Diagnostic :=
  {| Severity_ := Error;
     Summary := "Attribute mapping key " ++ Quote key
                ++ " must have at least one property set: name, names or default";
     Detail := "" |}.

(** The diagnostic for an empty name at a position. *)
Definition empty_name_diag `{GoLib} (key : string) (i : nat) : Diagnostic :=
  {| Severity_ := Error;
     Summary := "Attribute mapping name under " ++ Quote key
                ++ ".names at position " ++ pretty i ++ " is empty";
     Detail := "" |}.

(** The diagnostic for a value that is not valid JSON. *)
Definition invalid_json_diag `{GoLib} (value : string) (err : Json.error) : Diagnostic :=
  {| Severity_ := Error;
     Summary := "attribute_mapping must be valid JSON";
     Detail := "JSON parsing failed: " ++ json_error_text value err |}.

(** What the specification asks for one key: one error when nothing is
    set, else one error for each empty name. *)
Definition key_diags `{GoLib} (entry : string * Attribute) : Diagnostics :=
  if decide (nothing_set (snd entry)) then [nothing_set_diag (fst entry)]
  else map (empty_name_diag (fst entry)) (empty_positions (Names (snd entry))).

(** Increasing order of byte strings. *)
Definition string_le (a b : string) : Prop := String.leb a b = true.

(** A header map with one more value under a key. *)
Definition with_header `{GoLib} (key value : string) (m : gmap string (list string))
  : gmap string (list string) :=
  <[CanonicalMIMEHeaderKey key := m !!! CanonicalMIMEHeaderKey key ++ [value]]> m.

(** What a method returns once the transport has answered. *)
Definition answer `{GoLib} (expected : Z) (op : string)
    (result : error + Response) : error + IdentityProviderResponse :=
  match result with
  | inl err => inl err
  | inr res =>
    if bool_decide (StatusCode res ≠ expected)
    then inl (parseError res expected op)
    else decode_provider res
  end.

(** The names of the members of a JSON object. *)
Definition member_names (v : json) : list string :=
  match v with
  | JObject ms => map fst ms
  | _ => []
  end.

End Spec.

(** ** An instance of the library for the worked examples

    The properties below hold for every [GoLib] and every [HTTPClient].
    The examples need some instance to be evaluated with: this one is a
    stand-in with no other purpose, simple where the examples do not look
    (quoting without escapes, instants shown as numbers, an address parser
    for the plain form scheme://host/path). *)

Module Sample.
Import Utf8 Json Adminclient Gotrue.

Definition dq : string := String (ascii_of_nat 34) EmptyString.

(** Writes a JSON text with single quotes in place of the double ones. *)
Definition jq (s : string) : string :=
  string_of_list_ascii
    (map (fun c => if Ascii.eqb c "'" then ascii_of_nat 34 else c)
       (list_ascii_of_string s)).

Fixpoint join (sep : string) (l : list string) : string :=
  match l with
  | [] => ""
  | [x] => x
  | x :: l' => x ++ sep ++ join sep l'
  end.

Fixpoint sample_text (v : json) : string :=
  match v with
  | JNull => "null"
  | JBool b => if b then "true" else "false"
  | JNumber lit => lit
  | JString s => dq ++ s ++ dq
  | JArray l => "[" ++ join "," (map sample_text l) ++ "]"
  | JObject ms =>
    "{" ++ join ","
             (map (fun m => (dq ++ fst m ++ dq ++ ":" ++ sample_text (snd m))%string) ms)
    ++ "}"
  end.

(** The text before the first [c] and the text after it. *)
Fixpoint cut (c : ascii) (s : string) : option (string * string) :=
  match s with
  | EmptyString => None
  | String a s' =>
    if Ascii.eqb a c then Some (EmptyString, s')
    else match cut c s' with
         | Some (l, r) => Some (String a l, r)
         | None => None
         end
  end.

Definition sample_ParseRequestURI (raw : string) : string + URL :=
  match raw with
  | String "/" _ => inr {| Scheme := ""; Host := ""; Path := raw |}
  | _ =>
    match cut ":" raw with
    | Some (scheme, String "/" (String "/" rest)) =>
      match cut "/" rest with
      | Some (host, path) =>
        inr {| Scheme := scheme; Host := host; Path := String "/" path |}
      | None => inr {| Scheme := scheme; Host := rest; Path := "" |}
      end
    | Some (scheme, _) => inr {| Scheme := scheme; Host := ""; Path := "" |}
    | None => inl ("parse " ++ dq ++ raw ++ dq ++ ": invalid URI for request")%string
    end
  end.

Definition lookup_member (k : string) (v : json) : json :=
  match v with
  | JObject ms => default JNull (snd <$> List.find (fun m => String.eqb (fst m) k) ms)
  | _ => JNull
  end.

Definition text_of (v : json) : string :=
  match v with
  | JString s => s
  | _ => ""
  end.

Definition sample_Decode_response (data : string) : error + IdentityProviderResponse :=
  match parse data with
  | Parsed v =>
    inr {| ID := text_of (lookup_member "id" v);
           ResourceID := text_of (lookup_member "resource_id" v);
           Domains :=
             match lookup_member "domains" v with
             | JArray l =>
               map (fun x => {| domain_Domain := text_of (lookup_member "domain" x) |}) l
             | _ => []
             end;
           SAML_ :=
             {| saml_MetadataXML :=
                  text_of (lookup_member "metadata_xml" (lookup_member "saml" v));
                saml_MetadataURL :=
                  text_of (lookup_member "metadata_url" (lookup_member "saml" v));
                saml_AttributeMapping := zeroAttributeMapping |};
           CreatedAt := 0%Z;
           UpdatedAt := 0%Z |}
  | _ => inl (JSONError data SyntaxError)
  end.

#[global] Instance sample_lib : GoLib := {|
  Quote s := (dq ++ s ++ dq)%string;
  Format_RFC3339_UTC t := pretty t;
  Time_MarshalJSON t := JString (pretty t);
  json_text := sample_text;
  json_error_text data e :=
    match e with
    | SyntaxError =>
      if String.eqb data "" then "unexpected end of JSON input" else "invalid JSON"
    | UnmarshalTypeError => "json: cannot unmarshal"
    end;
  ParseRequestURI := sample_ParseRequestURI;
  URL_String u := (Scheme u ++ "://" ++ Host u ++ Path u)%string;
  NewRequest_error _ _ := None;
  CanonicalMIMEHeaderKey k := k;
  UserAgent := "terraform-provider-gotrue";
  DefaultClient := {| Do _ hdr := (inl (OtherError "no network"), hdr) |};
  Decode_response := sample_Decode_response
|}.

(** A transport that answers every request with one response. *)
Definition answering (res : Response) : HTTPClient :=
  {| Do _ hdr := (inr res, hdr) |}.

Definition fields0 : Fields :=
  {| metadata_url := ""; metadata_xml := ""; domains := ∅;
     attribute_mapping := ""; created_at := ""; updated_at := "" |}.

Definition res422 : Response :=
  {| StatusCode := 400; Body := inl (jq "{'code':422,'msg':'invalid metadata'}") |}.

Definition mapping_example : string :=
  jq "{'keys':{'a':{'name':'mail'},'b':{},'c':{'names':['x','',null]}}}".

Definition both_changed : ResourceData :=
  {| Id := "abc";
     prior := fields0;
     current := {| metadata_url := "https://idp.example/saml";
                   metadata_xml := "<EntityDescriptor/>";
                   domains := ∅; attribute_mapping := "";
                   created_at := ""; updated_at := "" |} |}.

Definition same_domains : ResourceData :=
  {| Id := "abc";
     prior := {| metadata_url := "https://idp.example/saml"; metadata_xml := "";
                 domains := Set_Add "a.com" NewSet; attribute_mapping := "";
                 created_at := ""; updated_at := "" |};
     current := {| metadata_url := "https://idp.example/saml2"; metadata_xml := "";
                   domains := Set_Add "a.com" NewSet; attribute_mapping := "";
                   created_at := ""; updated_at := "" |} |}.

Definition record0 : ResourceData :=
  {| Id := "abc"; prior := fields0; current := fields0 |}.

Definition client_of (t : HTTPClient) : Client :=
  {| HTTPClient_ := t;
     BaseURL := {| Scheme := "http"; Host := "localhost:9999"; Path := "" |};
     Headers := 1%positive |}.

Definition store0 : gmap positive (gmap string (list string)) :=
  {[ 1%positive := {[ "Authorization" := ["Bearer token"] ]} ]}.

End Sample.

(** ** Notions used to state further properties *)

Module Notions.
Import Utf8 Regexp Json Adminclient Gotrue Spec.

(** The members of a JSON object. *)
Definition members (v : json) : list (string * json) :=
  match v with
  | JObject ms => ms
  | _ => []
  end.

(** The JSON names of the fields of [IdentityProviderRequest], in the
    order of the struct. *)
Definition Request_fields : list string :=
  ["id"; "resource_id"; "type"; "domains"; "metadata_xml"; "metadata_url";
   "attribute_mapping"; "created_at"; "updated_at"].

(** A rune of the class [a-z0-9-], and a rune the dot of a pattern
    matches: any but the line feed. *)
Definition domain_rune (c : rune) : bool :=
  in_class [(ch "a", ch "z"); (ch "0", ch "9"); (ch "-", ch "-")] c.

Definition dot_rune (c : rune) : bool := in_class [(0, 9); (11, MaxRune)]%N c.

(** Runes of the class, with single other runes between them: read from
    left to right, [after] telling whether the rune before was of the
    class, a rune outside the class must follow one of the class and be
    one the dot matches, and the text must end on a rune of the class. *)
Fixpoint separated (after : bool) (w : list rune) : bool :=
  match w with
  | [] => after
  | c :: w' =>
    if domain_rune c then separated true w'
    else after && dot_rune c && separated false w'
  end.

(** A text of characters of the class and dots only. *)
Fixpoint dotted (s : string) : bool :=
  match s with
  | EmptyString => true
  | String c s' => (domain_char c || Ascii.eqb c ".") && dotted s'
  end.

(** The pattern of a domain and its derivatives: the pattern itself, a
    segment and the groups of a dot and a segment; then the rest of a
    segment and the groups; then either of the two. *)
Definition groups : regex := Star (Concat AnyCharNotNL (Plus domain_chars)).
Definition start : regex := Concat (Plus domain_chars) groups.
Definition inside : regex := Concat (Star domain_chars) groups.
Definition inside' : regex := Alternate inside start.

(** A text made of decimal digits; one to three of them. *)
Definition is_digits (s : string) : bool := forallb is_digit (bytes s).

Definition octet (s : string) : bool :=
  is_digits s && (1 <=? String.length s)%nat && (String.length s <=? 3)%nat.

(** The two forms of host the loopback pattern is written for. *)
Definition loopback_base : regex :=
  Alternate (Literal "localhost")
    (Concat (Literal "127")
       (Concat (Concat AnyCharNotNL (Repeat13 digit))
          (Concat (Concat AnyCharNotNL (Repeat13 digit))
             (Concat AnyCharNotNL (Repeat13 digit))))).

(** A host with a port, or without one when the port is empty. *)
Definition with_port (host port : string) : string :=
  if String.eqb port "" then host else host ++ ":" ++ port.

(** The two diagnostics of the validator of the address on an address
    that parses. *)
Definition not_http_diag `{GoLib} (scheme : string) : Diagnostic :=
  {| Severity_ := Error;
     Summary := "GoTrue URL is not HTTP(S): " ++ Quote scheme;
     Detail := "" |}.

Definition no_https_diag : Diagnostic :=
  {| Severity_ := Warning;
     Summary := "GoTrue URL does not use HTTPS";
     Detail := "Communication with GoTrue should occur over HTTPS whenever possible" |}.

(** The values the configuration gives for a header, by the canonical
    form of its name, in the order in which the map of the configuration is
    walked. *)
Definition configured_values `{GoLib} (cfg : gmap string string) (k : string)
  : list string :=
  omap (fun kv => if decide (CanonicalMIMEHeaderKey (fst kv) = k)
                  then Some (snd kv) else None)
    (map_to_list cfg).

(** A mapping whose default values are values that decoding can have
    stored: not the JSON [null], which is the nil interface, and no number
    beyond the range of a [float64]. *)
Definition encodable (am : AttributeMapping) : Prop :=
  forall k a, Keys am !! k = Some a ->
    match Default a with
    | Some v => v <> JNull /\ interface_ok v = true
    | None => True
    end.

(** The header map [providerConfigure] builds: the configured headers,
    then the user agent. *)
Definition built `{GoLib} (cfg : gmap string string) : gmap string (list string) :=
  with_header "User-Agent" UserAgent
    (fold_left (fun m (kv : string * string) => with_header (fst kv) (snd kv) m)
       (map_to_list cfg) ∅).

(** The warning of [providerConfigure]. *)
Definition no_authorization_diag : Diagnostic :=
  {| Severity_ := Warning;
     Summary := "No Authorization header, requests may fail";
     Detail := "There was no Authorization header configured, requests may fail (depending on setup)" |}.

(** What an operation makes of the answer of the transport to its request:
    the record as it was with one error, or the record synchronised. *)
Definition outcome_of `{GoLib} (d : ResourceData) (expected : Z) (op : string)
    (result : error + Response) : ResourceData * Diagnostics :=
  match result with
  | inl err => (d, FromErr (error_text err))
  | inr res =>
    if bool_decide (StatusCode res = expected) then
      match decode_provider res with
      | inl err => (d, FromErr (error_text err))
      | inr provider => resourceIdentityProviderSet provider d
      end
    else (d, FromErr (error_text (parseError res expected op)))
  end.

(** The JSON names of the fields of [Attribute] the decoder sees. *)
Definition Attribute_fields : list string := ["name"; "names"; "default"].

(** The values an object gives for the field of index [i] among the
    fields of a struct, in order. *)
Definition field_values (fields : list string) (i : nat) (ms : list (string * json))
  : list json :=
  omap (fun m => if bool_decide (field_index fields (fst m) = Some i)
                 then Some (snd m) else None) ms.

(** The name an element of a JSON array gives: a string gives itself,
    [null] the empty string. *)
Definition name_of (v : json) : string := default "" (string_value v).

(** The names a JSON value gives: those of the elements of an array, none
    for [null]. *)
Definition names_of (v : json) : list string :=
  match v with
  | JArray l => map name_of l
  | _ => []
  end.

(** What a JSON value gives for a default: [null] gives none, any other
    value itself; a number beyond the range of a [float64] gives
    nothing. *)
Definition interface_value (v : json) : option (option json) :=
  match v with
  | JNull => Some None
  | JNumber lit => if float_overflows lit then None else Some (Some v)
  | _ => Some (Some v)
  end.

(** Whether a value can be decoded into a list of strings: [null], or an
    array of strings and [null]s. *)
Definition fits_names (v : json) : bool :=
  match v with
  | JNull => true
  | JArray l => forallb fits_string l
  | _ => false
  end.

(** A member fits the shape of an attribute when it is none of the three
    fields or has the kind of its field. *)
Definition attribute_member_fits (m : string * json) : bool :=
  match field_index Attribute_fields (fst m) with
  | Some 0%nat => fits_string (snd m)
  | Some 1%nat => fits_names (snd m)
  | Some _ => interface_ok (snd m)
  | None => true
  end.

Definition attribute_shape (v : json) : bool :=
  match v with
  | JNull => true
  | JObject ms => forallb attribute_member_fits ms
  | _ => false
  end.

Definition keys_shape (v : json) : bool :=
  match v with
  | JNull => true
  | JObject entries => forallb (fun e => attribute_shape (snd e)) entries
  | _ => false
  end.

Definition mapping_member_fits (m : string * json) : bool :=
  match field_index ["keys"] (fst m) with
  | Some _ => keys_shape (snd m)
  | None => true
  end.

(** JSON of the shape of an [AttributeMapping]: [null], or an object
    whose members [keys] are [null] or objects of attributes. *)
Definition mapping_shape (v : json) : bool :=
  match v with
  | JNull => true
  | JObject ms => forallb mapping_member_fits ms
  | _ => false
  end.

(** The attribute the members of an object describe: the last string
    given for [name], the names of the value given for [names], the last
    value given for [default]. *)
Definition attribute_read (ms : list (string * json)) : Attribute :=
  {| Name := default "" (last (omap string_value (field_values Attribute_fields 0 ms)));
     Names := match field_values Attribute_fields 1 ms with
              | [v] => names_of v
              | _ => []
              end;
     Default := default None
                  (last (omap interface_value (field_values Attribute_fields 2 ms))) |}.

Definition attribute_of (v : json) : Attribute :=
  match v with
  | JObject ms => attribute_read ms
  | _ => zeroAttribute
  end.

(** An object that gives [names] at most once. *)
Definition names_once (v : json) : Prop :=
  match v with
  | JObject ms => length (field_values Attribute_fields 1 ms) <= 1
  | _ => True
  end.

(** The keys the members of an object describe: a key given twice has the
    attribute given last. *)
Definition keys_read (entries : list (string * json)) : gmap string Attribute :=
  fold_left (fun keys e => <[fst e := attribute_of (snd e)]> keys) entries ∅.

End Notions.

(** ** Further sample values for the worked examples *)

Module Cases.
Import Utf8 Json Adminclient Gotrue Sample.

(** An answer whose body cannot be read. *)
Definition broken_body : Response :=
  {| StatusCode := 500; Body := inr "unexpected EOF" |}.

(** The answer to a request for a provider that does not exist. *)
Definition not_found : Response :=
  {| StatusCode := 404; Body := inl (jq "{'code':404,'msg':'not found'}") |}.

(** A record as configured before Create: an address of metadata, also
    metadata XML, one domain and an attribute mapping. *)
Definition configured : ResourceData :=
  {| Id := "";
     prior := fields0;
     current := {| metadata_url := "https://idp.example/saml";
                   metadata_xml := "<EntityDescriptor/>";
                   domains := Set_Add "example.com" NewSet;
                   attribute_mapping := jq "{'keys':{'email':{'name':'mail'}}}";
                   created_at := ""; updated_at := "" |} |}.

(** A record whose one domain has been taken out of the configuration. *)
Definition domains_removed : ResourceData :=
  {| Id := "abc";
     prior := {| metadata_url := "https://idp.example/saml"; metadata_xml := "";
                 domains := Set_Add "a.com" NewSet; attribute_mapping := "";
                 created_at := ""; updated_at := "" |};
     current := {| metadata_url := "https://idp.example/saml"; metadata_xml := "";
                   domains := NewSet; attribute_mapping := "";
                   created_at := ""; updated_at := "" |} |}.

(** A configuration of the provider. *)
Definition provider_config : ProviderData :=
  {| url := "http://localhost:9999/";
     headers := {[ "Authorization" := "Bearer token" ]} |}.

(** A mapping of one key. *)
Definition email_mapping : AttributeMapping :=
  {| Keys := {[ "email" := {| Name := "mail"; Names := []; Default := None |} ]} |}.

(** An answer whose payload gives a code other than its status. *)
Definition server_error : Response :=
  {| StatusCode := 500; Body := inl (jq "{'code':200,'msg':'boom'}") |}.

(** A server that routes on the method: one answer to a GET, another to
    every other request. *)
Definition routing (get other : Response) : HTTPClient :=
  {| Do req hdr := (inr (if String.eqb (Method req) "GET" then get else other), hdr) |}.

(** A response with the domains given. *)
Definition response_of (l : list string) : IdentityProviderResponse :=
  {| ID := "abc"; ResourceID := "";
     Domains := map (fun s => {| domain_Domain := s |}) l;
     SAML_ := {| saml_MetadataXML := ""; saml_MetadataURL := "";
                 saml_AttributeMapping := zeroAttributeMapping |};
     CreatedAt := 0%Z; UpdatedAt := 0%Z |}.

End Cases.

(* ===================================================================== *)
(** * Part II: properties                                                 *)
(* ===================================================================== *)

(** ** The regular expression matcher decides the language *)

Module RegexpFacts.
Import Utf8 Regexp.

Create HintDb re.
#[local] Hint Constructors Matches : re.

Lemma nullable_spec r : nullable r = true <-> Matches r [].
Proof.
  split.
  - induction r; simpl; intros Hn; try discriminate; eauto with re.
    + apply andb_true_iff in Hn as [H1 H2].
      change (@nil rune) with (@nil rune ++ []). eauto with re.
    + apply orb_true_iff in Hn as [H1|H2]; eauto with re.
  - intros Hm. remember [] as w eqn:Hw.
    induction Hm; simpl; try discriminate; auto.
    + apply app_eq_nil in Hw as [-> ->]. rewrite IHHm1, IHHm2; auto.
    + rewrite IHHm; auto.
    + rewrite IHHm; auto using orb_true_r.
Qed.

Lemma Matches_Concat_inv r1 r2 w :
  Matches (Concat r1 r2) w ->
  exists w1 w2, w = w1 ++ w2 /\ Matches r1 w1 /\ Matches r2 w2.
Proof. inversion 1; subst; eauto. Qed.

Lemma Matches_Alternate_inv r1 r2 w :
  Matches (Alternate r1 r2) w -> Matches r1 w \/ Matches r2 w.
Proof. inversion 1; subst; eauto. Qed.

Lemma mkConcat_spec a b w : Matches (mkConcat a b) w <-> Matches (Concat a b) w.
Proof.
  destruct a; simpl; try tauto.
  - split; intros Hm; [inversion Hm|].
    apply Matches_Concat_inv in Hm as (w1 & w2 & _ & Hm & _). inversion Hm.
  - split; intros Hm.
    + change w with ([] ++ w). eauto with re.
    + apply Matches_Concat_inv in Hm as (w1 & w2 & -> & Hm & ?).
      inversion Hm; subst. assumption.
Qed.

Lemma alt_mem_sound x r w : alt_mem x r = true -> Matches x w -> Matches r w.
Proof.
  induction r; simpl; intros Hx Hm;
    try (apply bool_decide_eq_true in Hx; subst; assumption).
  apply orb_true_iff in Hx as [Hx|Hx]; eauto with re.
Qed.

Lemma mkAlt_spec b : forall a w,
  Matches (mkAlt a b) w <-> Matches a w \/ Matches b w.
Proof.
  assert (Hleaf : forall a b' w, b' <> NoMatch ->
            Matches (match a with
                     | NoMatch => b'
                     | _ => if alt_mem b' a then a else Alternate a b'
                     end) w <-> Matches a w \/ Matches b' w).
  { intros a b' w _.
    assert (Hgen : Matches (if alt_mem b' a then a else Alternate a b') w
                   <-> Matches a w \/ Matches b' w).
    { destruct (alt_mem b' a) eqn:Hmem.
      - split; [tauto|]. intros [?|?]; eauto using alt_mem_sound.
      - split; [apply Matches_Alternate_inv|]. intros [?|?]; eauto with re. }
    destruct a; try exact Hgen.
    split; [tauto|]. intros [Hm|?]; [inversion Hm|assumption]. }
  induction b; intros a w; simpl;
    try (apply Hleaf; discriminate).
  - split; [tauto|]. intros [?|Hm]; [assumption|inversion Hm].
  - rewrite IHb2, IHb1. split.
    + intros [[?|?]|?]; eauto with re.
    + intros [?|Hm]; [tauto|].
      apply Matches_Alternate_inv in Hm. tauto.
Qed.

Lemma Matches_Star_cons_inv r c w :
  Matches (Star r) (c :: w) ->
  exists w1 w2, w = w1 ++ w2 /\ Matches r (c :: w1) /\ Matches (Star r) w2.
Proof.
  intros Hm. remember (Star r) as r' eqn:Hr. remember (c :: w) as cw eqn:Hw.
  revert c w Hw. induction Hm; intros a u Hw; try discriminate.
  injection Hr as ->.
  destruct w1 as [|c1 w1]; simpl in Hw.
  - apply IHHm2; auto.
  - injection Hw as -> <-. eauto.
Qed.

Lemma deriv_spec r : forall c w, Matches (deriv c r) w <-> Matches r (c :: w).
Proof.
  induction r; intros c w; simpl.
  - split; inversion 1.
  - split; inversion 1.
  - destruct (in_class l c) eqn:Hc; split; intros Hm; inversion Hm; subst.
    + constructor. assumption.
    + constructor.
    + congruence.
  - assert (Hcat : Matches (mkConcat (deriv c r1) r2) w <->
                   exists w1 w2, w = w1 ++ w2 /\ Matches r1 (c :: w1) /\ Matches r2 w2).
    { rewrite mkConcat_spec. split.
      - intros Hm. apply Matches_Concat_inv in Hm as (w1 & w2 & -> & H1 & H2).
        apply IHr1 in H1. eauto.
      - intros (w1 & w2 & -> & H1 & H2). apply IHr1 in H1. eauto with re. }
    assert (Hsplit : Matches (Concat r1 r2) (c :: w) <->
              (exists w1 w2, w = w1 ++ w2 /\ Matches r1 (c :: w1) /\ Matches r2 w2)
              \/ (Matches r1 [] /\ Matches r2 (c :: w))).
    { split.
      - intros Hm. apply Matches_Concat_inv in Hm as (w1 & w2 & Hw & H1 & H2).
        destruct w1 as [|c1 w1]; simpl in Hw.
        + subst w2. right. split; assumption.
        + injection Hw as -> ->. left. eauto.
      - intros [(w1 & w2 & -> & H1 & H2)|[H1 H2]].
        + change (c :: w1 ++ w2) with ((c :: w1) ++ w2). eauto with re.
        + change (c :: w) with ([] ++ c :: w). eauto with re. }
    rewrite Hsplit. destruct (nullable r1) eqn:Hn.
    + rewrite mkAlt_spec, Hcat, IHr2.
      apply nullable_spec in Hn. tauto.
    + rewrite Hcat. split; [tauto|].
      intros [?|[H1 _]]; [assumption|].
      apply nullable_spec in H1. congruence.
  - rewrite mkAlt_spec, IHr1, IHr2. split.
    + intros [?|?]; eauto with re.
    + apply Matches_Alternate_inv.
  - rewrite mkConcat_spec. split.
    + intros Hm. apply Matches_Concat_inv in Hm as (w1 & w2 & -> & H1 & H2).
      apply IHr in H1. change (c :: w1 ++ w2) with ((c :: w1) ++ w2). eauto with re.
    + intros Hm. apply Matches_Star_cons_inv in Hm as (w1 & w2 & -> & H1 & H2).
      apply IHr in H1. eauto with re.
Qed.

Lemma fullmatch_spec w : forall r, fullmatch r w = true <-> Matches r w.
Proof.
  induction w as [|c w IH]; intros r; simpl.
  - apply nullable_spec.
  - rewrite IH. apply deriv_spec.
Qed.

End RegexpFacts.

(** ** Text that is ASCII decodes to itself *)

Module Utf8Facts.
Import Utf8.

Lemma decode_loop_ascii s : forall n,
  Forall (fun b => (b < 0x80)%N) s -> length s <= n -> decode_loop n s = s.
Proof.
  induction s as [|b s IH]; intros n Hs Hn.
  - destruct n; reflexivity.
  - destruct n as [|n]; simpl in Hn; [lia|].
    apply Forall_cons_1 in Hs as [Hb Hs].
    cbn [decode_loop DecodeRune].
    apply N.ltb_lt in Hb. rewrite Hb. cbn [skipn]. f_equal.
    apply IH; [assumption|lia].
Qed.

Lemma decode_ascii s : Forall (fun b => (b < 0x80)%N) s -> decode s = s.
Proof. intros Hs. apply decode_loop_ascii; [assumption|lia]. Qed.

Lemma bytes_app s1 s2 : bytes (s1 ++ s2) = bytes s1 ++ bytes s2.
Proof.
  unfold bytes. induction s1 as [|c s1 IH]; simpl; [reflexivity|].
  f_equal. exact IH.
Qed.

Lemma bytes_length s : length (bytes s) = String.length s.
Proof.
  unfold bytes. induction s as [|c s IH]; simpl; [reflexivity|].
  f_equal. exact IH.
Qed.

Lemma le_lor_l a b : (a <= N.lor a b)%N.
Proof.
  apply N.ldiff_le. apply N.bits_inj. intros n.
  rewrite N.ldiff_spec, N.lor_spec, N.bits_0.
  destruct (N.testbit a n), (N.testbit b n); reflexivity.
Qed.

Lemma le_lor_r a b : (b <= N.lor a b)%N.
Proof. rewrite N.lor_comm. apply le_lor_l. Qed.

Lemma in_all_bytes b : (b < 256)%N -> In b all_bytes.
Proof.
  intros Hb. unfold all_bytes. apply in_map_iff. exists (N.to_nat b).
  split; [apply N2Nat.id|]. apply in_seq. lia.
Qed.

(** The test holds of every pair of byte values. *)
Lemma lead_check_all :
  forallb (fun s0 => forallb (lead_check s0) all_bytes) all_bytes = true.
Proof. vm_compute. reflexivity. Qed.

Lemma lead_check_ok s0 s1 : (s0 < 256)%N -> (s1 < 256)%N -> lead_check s0 s1 = true.
Proof.
  intros H0 H1. pose proof lead_check_all as Hall.
  rewrite forallb_forall in Hall. specialize (Hall s0 (in_all_bytes s0 H0)).
  rewrite forallb_forall in Hall. exact (Hall s1 (in_all_bytes s1 H1)).
Qed.

(** A first byte outside ASCII gives a first rune outside ASCII. *)
Lemma DecodeRune_not_ascii s0 t :
  (0x80 <= s0)%N -> Forall (fun b => (b < 256)%N) (s0 :: t) ->
  (0x80 <= fst (DecodeRune (s0 :: t)))%N.
Proof.
  intros Hs0 Hb. apply Forall_cons_1 in Hb as [Hb0 Hbt].
  cbn [DecodeRune].
  destruct (s0 <? 0x80)%N eqn:Hlt; [apply N.ltb_lt in Hlt; lia|].
  assert (Herr : (0x80 <= RuneError)%N) by (vm_compute; discriminate).
  destruct (first s0) as [[[sz lo] hi]|] eqn:Hf; [|exact Herr].
  destruct t as [|s1 t1]; [exact Herr|].
  apply Forall_cons_1 in Hbt as [Hb1 Hbt].
  pose proof (lead_check_ok s0 s1 Hb0 Hb1) as Hc.
  unfold lead_check in Hc. rewrite Hf in Hc.
  destruct (outside s1 lo hi); [exact Herr|]. cbn [orb] in Hc.
  destruct (sz <=? 2)%nat.
  { cbn [fst]. apply N.leb_le in Hc.
    etransitivity; [exact Hc|apply le_lor_l]. }
  destruct t1 as [|s2 t2]; [exact Herr|].
  destruct (outside s2 128 191); [exact Herr|].
  destruct (sz <=? 3)%nat.
  { cbn [fst]. apply orb_true_iff in Hc as [Hc|Hc]; apply N.leb_le in Hc.
    - etransitivity; [exact Hc|apply le_lor_l].
    - etransitivity; [exact Hc|].
      etransitivity; [apply le_lor_l|apply le_lor_r]. }
  destruct t2 as [|s3 t3]; [exact Herr|].
  destruct (outside s3 128 191); [exact Herr|].
  cbn [fst]. apply orb_true_iff in Hc as [Hc|Hc]; apply N.leb_le in Hc.
  - etransitivity; [exact Hc|apply le_lor_l].
  - etransitivity; [exact Hc|].
    etransitivity; [apply le_lor_l|apply le_lor_r].
Qed.

Lemma bytes_bounded s : Forall (fun b => (b < 256)%N) (bytes s).
Proof.
  unfold bytes. induction s as [|c s IH]; simpl; constructor.
  - apply N_ascii_bounded.
  - exact IH.
Qed.

(** The first rune of a text that is not empty: its first byte when that
    is ASCII, a rune outside ASCII otherwise. *)
Lemma runes_head c s :
  exists r w, runes (String c s) = r :: w
              /\ ((N_of_ascii c < 0x80)%N -> r = N_of_ascii c)
              /\ ((0x80 <= N_of_ascii c)%N -> (0x80 <= r)%N).
Proof.
  unfold runes, decode.
  change (bytes (String c s)) with (N_of_ascii c :: bytes s).
  cbn [length decode_loop].
  destruct (DecodeRune (N_of_ascii c :: bytes s)) as [r sz] eqn:Hd.
  exists r, (decode_loop (length (bytes s)) (skipn sz (N_of_ascii c :: bytes s))).
  split; [reflexivity|]. split.
  - intros Hlt. cbn [DecodeRune] in Hd. apply N.ltb_lt in Hlt.
    rewrite Hlt in Hd. congruence.
  - intros Hge.
    pose proof (DecodeRune_not_ascii (N_of_ascii c) (bytes s) Hge
                  (bytes_bounded (String c s))) as Hr.
    rewrite Hd in Hr. exact Hr.
Qed.

End Utf8Facts.

(** ** C1: validation of a domain *)

Module DomainValidation.
Import Utf8 Regexp Json Adminclient Gotrue Spec Notions RegexpFacts Utf8Facts.

Lemma MatchString_anchored r s :
  MatchString {| begin_text := true; body := r; end_text := true |} s = true
  <-> Matches r (runes s).
Proof.
  unfold MatchString. cbn [begin_text body end_text].
  rewrite fullmatch_spec. split.
  - intros Hm. apply Matches_Concat_inv in Hm as (w1 & w2 & -> & H1 & H2).
    inversion H1; subst. cbn [app].
    apply Matches_Concat_inv in H2 as (w3 & w4 & -> & H3 & H4).
    inversion H4; subst. rewrite app_nil_r. exact H3.
  - intros Hm. change (runes s) with ([] ++ runes s).
    constructor; [constructor|].
    rewrite <- (app_nil_r (runes s)). constructor; [exact Hm|constructor].
Qed.

Lemma Matches_Star_class cls w :
  Forall (fun c => in_class cls c = true) w -> Matches (Star (CharClass cls)) w.
Proof.
  induction 1 as [|c w Hc _ IH]; [constructor|].
  change (c :: w) with ([c] ++ w). constructor; [constructor; exact Hc|exact IH].
Qed.

Lemma Matches_Plus_class cls c w :
  Forall (fun c => in_class cls c = true) (c :: w) -> Matches (Plus (CharClass cls)) (c :: w).
Proof.
  intros Hw. apply Forall_cons_1 in Hw as [Hc Hw].
  change (c :: w) with ([c] ++ w). unfold Plus.
  constructor; [constructor; exact Hc|apply Matches_Star_class; exact Hw].
Qed.

Lemma Matches_Plus_class_head cls w :
  Matches (Plus (CharClass cls)) w ->
  exists c w', w = c :: w' /\ in_class cls c = true.
Proof.
  intros Hm. apply Matches_Concat_inv in Hm as (w1 & w2 & -> & H1 & _).
  inversion H1; subst. eauto.
Qed.

Lemma domain_char_class c :
  domain_char c = in_class [(ch "a", ch "z"); (ch "0", ch "9"); (ch "-", ch "-")]
                    (N_of_ascii c).
Proof.
  unfold domain_char, in_class, existsb.
  change (ch "a") with 97%N. change (ch "z") with 122%N.
  change (ch "0") with 48%N. change (ch "9") with 57%N. change (ch "-") with 45%N.
  destruct ((97 <=? N_of_ascii c)%N && (N_of_ascii c <=? 122)%N); [reflexivity|].
  destruct ((48 <=? N_of_ascii c)%N && (N_of_ascii c <=? 57)%N); [reflexivity|].
  cbn [orb]. rewrite orb_false_r.
  destruct (N.eqb_spec (N_of_ascii c) 45) as [->|Hne]; [reflexivity|].
  symmetry. apply andb_false_iff.
  destruct (N.leb_spec 45 (N_of_ascii c)); [right|left; reflexivity].
  apply N.leb_gt. lia.
Qed.

Lemma domain_char_ascii c : domain_char c = true -> (N_of_ascii c < 0x80)%N.
Proof.
  unfold domain_char. intros Hc.
  repeat (apply orb_true_iff in Hc as [Hc|Hc]).
  - apply andb_true_iff in Hc as [_ Hc]. apply N.leb_le in Hc. lia.
  - apply andb_true_iff in Hc as [_ Hc]. apply N.leb_le in Hc. lia.
  - apply N.eqb_eq in Hc. lia.
Qed.

Lemma segment_bytes s :
  segment s ->
  exists c w, bytes s = c :: w
              /\ Forall (fun b => (b < 0x80)%N /\ in_class [(ch "a", ch "z"); (ch "0", ch "9"); (ch "-", ch "-")] b = true) (c :: w).
Proof.
  induction 1 as [c Hc|c s Hc _ (c' & w & Hs & Hall)].
  - exists (N_of_ascii c), []. split; [reflexivity|].
    constructor; [|constructor].
    split; [apply domain_char_ascii; exact Hc|rewrite <- domain_char_class; exact Hc].
  - exists (N_of_ascii c), (c' :: w). split.
    + change (bytes (String c s)) with (N_of_ascii c :: bytes s). rewrite Hs. reflexivity.
    + constructor; [|exact Hall].
      split; [apply domain_char_ascii; exact Hc|rewrite <- domain_char_class; exact Hc].
Qed.

Lemma segment_matches s :
  segment s -> Forall (fun b => (b < 0x80)%N) (bytes s)
               /\ Matches (Plus domain_chars) (bytes s).
Proof.
  intros Hs. apply segment_bytes in Hs as (c & w & -> & Hall). split.
  - eapply Forall_impl; [exact Hall|]. intros b [Hb _]. exact Hb.
  - apply Matches_Plus_class. eapply Forall_impl; [exact Hall|].
    intros b [_ Hb]. exact Hb.
Qed.

Lemma domain_name_matches s :
  domain_name s ->
  Forall (fun b => (b < 0x80)%N) (bytes s)
  /\ Matches (body domainPattern) (bytes s).
Proof.
  induction 1 as [s Hs|s d Hs _ [IHa IHm]].
  - apply segment_matches in Hs as [Ha Hm]. split; [exact Ha|].
    cbn [body domainPattern]. rewrite <- (app_nil_r (bytes s)).
    constructor; [exact Hm|constructor].
  - apply segment_matches in Hs as [Ha Hm].
    rewrite !bytes_app. change (bytes ".") with [ch "."]. split.
    + apply Forall_app. split; [exact Ha|].
      constructor; [vm_compute; reflexivity|exact IHa].
    + cbn [body domainPattern] in *.
      apply Matches_Concat_inv in IHm as (w1 & w2 & Hd & H1 & H2).
      constructor; [exact Hm|]. rewrite Hd.
      change ([ch "."] ++ w1 ++ w2) with (([ch "."] ++ w1) ++ w2).
      constructor; [|exact H2].
      constructor; [|exact H1]. constructor. vm_compute. reflexivity.
Qed.

(** The pattern accepts every domain name of the specification. *)
Lemma domainPattern_accepts s : domain_name s -> MatchString domainPattern s = true.
Proof.
  intros Hd. apply domain_name_matches in Hd as [Ha Hm].
  apply MatchString_anchored. unfold runes. rewrite decode_ascii; assumption.
Qed.

(** What it accepts starts with a lowercase letter, a digit or a hyphen. *)
Lemma domainPattern_first s :
  MatchString domainPattern s = true ->
  exists c s', s = String c s' /\ domain_char c = true.
Proof.
  intros Hm. apply MatchString_anchored in Hm. cbn [body domainPattern] in Hm.
  apply Matches_Concat_inv in Hm as (w1 & w2 & Hw & H1 & _).
  apply Matches_Plus_class_head in H1 as (r & w' & -> & Hr).
  destruct s as [|c s]; [discriminate Hw|].
  exists c, s. split; [reflexivity|].
  destruct (runes_head c s) as (r' & w'' & Hrun & Hlt & Hge).
  rewrite Hrun in Hw. injection Hw as -> _.
  assert (Hr128 : (r < 0x80)%N).
  { unfold in_class, existsb in Hr.
    change (ch "a") with 97%N in Hr. change (ch "z") with 122%N in Hr.
    change (ch "0") with 48%N in Hr. change (ch "9") with 57%N in Hr.
    change (ch "-") with 45%N in Hr.
    repeat (apply orb_true_iff in Hr as [Hr|Hr]); try discriminate Hr;
      apply andb_true_iff in Hr as [_ Hr]; apply N.leb_le in Hr; lia. }
  destruct (N.lt_ge_cases (N_of_ascii c) 0x80) as [Hc|Hc].
  - rewrite domain_char_class, <- (Hlt Hc). exact Hr.
  - specialize (Hge Hc). lia.
Qed.

Lemma domain_rune_dot c : domain_rune c = true -> dot_rune c = true.
Proof.
  unfold domain_rune, dot_rune, in_class, existsb.
  change (ch "a") with 97%N. change (ch "z") with 122%N.
  change (ch "0") with 48%N. change (ch "9") with 57%N. change (ch "-") with 45%N.
  change MaxRune with 1114111%N.
  intros Hc. repeat (apply orb_true_iff in Hc as [Hc|Hc]); try discriminate Hc;
    apply andb_true_iff in Hc as [H1 H2]; apply N.leb_le in H1, H2;
    apply orb_true_iff; right; apply orb_true_iff; left;
    apply andb_true_iff; split; apply N.leb_le; lia.
Qed.

Lemma deriv_start c :
  deriv c start = if domain_rune c then inside else NoMatch.
Proof.
  unfold start, inside, groups, Plus, domain_chars. cbn [deriv nullable andb].
  fold (domain_rune c). destruct (domain_rune c); reflexivity.
Qed.

Lemma deriv_inside c :
  deriv c inside
  = if domain_rune c then inside' else if dot_rune c then start else NoMatch.
Proof.
  unfold inside', start, inside, groups, Plus, domain_chars, AnyCharNotNL.
  cbn [deriv nullable andb].
  fold (domain_rune c). fold (dot_rune c).
  destruct (domain_rune c) eqn:Hd.
  - rewrite (domain_rune_dot c Hd). vm_compute. reflexivity.
  - destruct (dot_rune c); vm_compute; reflexivity.
Qed.

Lemma deriv_inside' c :
  deriv c inside'
  = if domain_rune c then inside' else if dot_rune c then start else NoMatch.
Proof.
  unfold inside'. cbn [deriv]. rewrite deriv_inside, deriv_start.
  destruct (domain_rune c); [vm_compute; reflexivity|].
  destruct (dot_rune c); vm_compute; reflexivity.
Qed.

Lemma fullmatch_NoMatch w : fullmatch NoMatch w = false.
Proof. induction w as [|c w IH]; [reflexivity|exact IH]. Qed.

Lemma fullmatch_separated w :
  fullmatch start w = separated false w
  /\ fullmatch inside w = separated true w
  /\ fullmatch inside' w = separated true w.
Proof.
  induction w as [|c w (IH0 & IH1 & IH2)]; [repeat split; reflexivity|].
  cbn [fullmatch separated]. rewrite deriv_start, deriv_inside, deriv_inside'.
  destruct (domain_rune c); [repeat split; assumption|].
  cbn [andb]. destruct (dot_rune c); cbn [andb];
    rewrite ?fullmatch_NoMatch; repeat split; try reflexivity; assumption.
Qed.

(** The pattern read from left to right. *)
Lemma MatchString_separated s :
  MatchString domainPattern s = separated false (runes s).
Proof.
  destruct (fullmatch_separated (runes s)) as [H0 _]. rewrite <- H0.
  pose proof (MatchString_anchored (body domainPattern) s) as Ha.
  pose proof (fullmatch_spec (runes s) start) as Hf.
  change (body domainPattern) with start in Ha.
  change {| begin_text := true; body := start; end_text := true |}
    with domainPattern in Ha.
  destruct (MatchString domainPattern s), (fullmatch start (runes s));
    try reflexivity.
  - symmetry. apply Hf, Ha. reflexivity.
  - apply Ha, Hf. reflexivity.
Qed.

Lemma dotted_ascii s : dotted s = true -> Forall (fun b => (b < 0x80)%N) (bytes s).
Proof.
  induction s as [|c s IH]; [constructor|].
  cbn [dotted]. intros Hd. apply andb_true_iff in Hd as [Hc Hs].
  change (bytes (String c s)) with (N_of_ascii c :: bytes s).
  constructor; [|apply IH; exact Hs].
  apply orb_true_iff in Hc as [Hc|Hc].
  - apply domain_char_ascii. exact Hc.
  - apply Ascii.eqb_eq in Hc. subst c. vm_compute. reflexivity.
Qed.

Lemma domain_name_cons c d :
  domain_char c = true -> domain_name d -> domain_name (String c d).
Proof.
  intros Hc Hd. destruct Hd as [s Hs|s d Hs Hd].
  - apply domain_one. apply segment_more; assumption.
  - change (String c (s ++ "." ++ d)%string) with (String c s ++ "." ++ d)%string.
    apply domain_dot; [apply segment_more; assumption|exact Hd].
Qed.

(** On a text of characters of the class and dots, the reading from left
    to right finds the domain names of the specification: after a
    character of the class, the rest is empty, or a domain name, or a dot
    and a domain name. *)
Lemma separated_dotted s :
  dotted s = true ->
  (separated false (bytes s) = true -> domain_name s)
  /\ (separated true (bytes s) = true ->
      s = "" \/ domain_name s \/ exists d, s = String "." d /\ domain_name d).
Proof.
  induction s as [|c s IH]; intros Hd.
  - split; [discriminate|]. intros _. left. reflexivity.
  - cbn [dotted] in Hd. apply andb_true_iff in Hd as [Hc Hs].
    specialize (IH Hs) as [IH0 IH1].
    change (bytes (String c s)) with (N_of_ascii c :: bytes s).
    cbn [separated]. unfold domain_rune. rewrite <- domain_char_class.
    destruct (domain_char c) eqn:Hdc.
    + assert (Hname : separated true (bytes s) = true -> domain_name (String c s)).
      { intros Hsep. destruct (IH1 Hsep) as [->|[Hn|(d & -> & Hn)]].
        - apply domain_one, segment_one. exact Hdc.
        - apply domain_name_cons; assumption.
        - apply (domain_dot (String c "") d); [apply segment_one; exact Hdc|exact Hn]. }
      split; [exact Hname|]. intros Hsep. right. left. apply Hname. exact Hsep.
    + cbn [orb] in Hc. apply Ascii.eqb_eq in Hc. subst c.
      split; [discriminate|]. cbn [andb].
      intros Hsep. apply andb_true_iff in Hsep as [_ Hsep].
      right. right. exists s. split; [reflexivity|]. apply IH0. exact Hsep.
Qed.

(** Among the texts of characters of the class and dots, the pattern
    accepts the domain names of the specification and no other. *)
Lemma dotted_domain_name s :
  dotted s = true -> (separated false (runes s) = true <-> domain_name s).
Proof.
  intros Hd. split.
  - unfold runes. rewrite decode_ascii by (apply dotted_ascii; exact Hd).
    apply separated_dotted. exact Hd.
  - intros Hn. rewrite <- MatchString_separated. apply domainPattern_accepts. exact Hn.
Qed.

Section Validator.
Context `{GoLib}.

Lemma validate_domain_eq value :
  validate_domain value =
  if MatchString domainPattern value then [] else [invalid_domain value].
Proof. unfold validate_domain. destruct (MatchString domainPattern value); reflexivity. Qed.

Lemma validate_domain_separated value :
  validate_domain value =
  if separated false (runes value) then [] else [invalid_domain value].
Proof. rewrite validate_domain_eq, MatchString_separated. reflexivity. Qed.

(** One error for each value rejected, in their order. *)
Lemma validate_domains_rejected values :
  mjoin (map validate_domain values)
  = map invalid_domain (List.filter (fun v => negb (separated false (runes v))) values).
Proof.
  induction values as [|v values IH]; [reflexivity|].
  change (mjoin (map validate_domain (v :: values)))
    with (validate_domain v ++ mjoin (map validate_domain values)).
  rewrite IH, validate_domain_separated. cbn [List.filter].
  destruct (separated false (runes v)); reflexivity.
Qed.

(** C1, as the code has it.  A domain name as the specification words it
    (segments of lowercase letters, digits and hyphens, separated by single
    dots) produces no diagnostic; "-bad.com" is one.  Every value produces
    no diagnostic or exactly one error that names it.  Every other text of
    those characters and dots produces that error: the empty text, a text
    that starts or ends with a dot, one with two dots in a row.  So does
    every text that cannot be read as runs of those characters with
    single characters between the runs, none of them a line feed: a text
    that starts or ends with another character or has two of them in a
    row, as "EXAMPLE.com" and "example.COM".  Values are validated one by
    one: a list of such values produces the errors of the values that are
    no domain names, one for each, in their order. *)
Theorem domain_validation :
  (forall s, domain_name s -> validate_domain s = [])
  /\ (forall s, validate_domain s = [] \/ validate_domain s = [invalid_domain s])
  /\ (forall s, dotted s = true ->
        (validate_domain s = [] <-> domain_name s)
        /\ (validate_domain s = [invalid_domain s] <-> ~ domain_name s))
  /\ (forall s, separated false (runes s) = false ->
        validate_domain s = [invalid_domain s])
  /\ (forall s, s = "" \/ (exists c s', s = String c s' /\ domain_char c = false) ->
                validate_domain s = [invalid_domain s])
  /\ validate_domain "EXAMPLE.com" = [invalid_domain "EXAMPLE.com"]
  /\ validate_domain "example.COM" = [invalid_domain "example.COM"]
  /\ validate_domain "" = [invalid_domain ""]
  /\ validate_domain "a." = [invalid_domain "a."]
  /\ validate_domain ".a" = [invalid_domain ".a"]
  /\ validate_domain "a..b" = [invalid_domain "a..b"]
  /\ validate_domain "-bad.com" = []
  /\ (forall values,
        Forall (fun v => domain_name v \/ separated false (runes v) = false) values ->
        Forall (fun v => separated false (runes v) = false <-> ~ domain_name v) values
        /\ mjoin (map validate_domain values)
           = map invalid_domain
               (List.filter (fun v => negb (separated false (runes v))) values)
        /\ length (mjoin (map validate_domain values))
           = length (List.filter (fun v => negb (separated false (runes v))) values)).
Proof.
  assert (Hreject : forall s,
            s = "" \/ (exists c s', s = String c s' /\ domain_char c = false) ->
            validate_domain s = [invalid_domain s]).
  { intros s Hs. rewrite validate_domain_eq.
    destruct (MatchString domainPattern s) eqn:Hm; [|reflexivity].
    apply domainPattern_first in Hm as (c & s' & -> & Hc).
    destruct Hs as [Hs|(c' & s'' & Hs & Hc')]; [discriminate Hs|].
    injection Hs as <- _. congruence. }
  repeat match goal with |- _ /\ _ => split end.
  - intros s Hs. rewrite validate_domain_eq, domainPattern_accepts; auto.
  - intros s. rewrite validate_domain_separated.
    destruct (separated false (runes s)); auto.
  - intros s Hd. rewrite validate_domain_separated.
    generalize (dotted_domain_name s Hd).
    destruct (separated false (runes s)); intros Hn.
    + split; split.
      * intros _. apply Hn. reflexivity.
      * intros _. reflexivity.
      * intros Hx. discriminate Hx.
      * intros Hx. exfalso. apply Hx, Hn. reflexivity.
    + split; split.
      * intros Hx. discriminate Hx.
      * intros Hx. apply Hn in Hx. discriminate Hx.
      * intros _ Hc. apply Hn in Hc. discriminate Hc.
      * intros _. reflexivity.
  - intros s Hs. rewrite validate_domain_separated, Hs. reflexivity.
  - exact Hreject.
  - rewrite validate_domain_separated. reflexivity.
  - rewrite validate_domain_separated. reflexivity.
  - rewrite validate_domain_separated. reflexivity.
  - rewrite validate_domain_separated. reflexivity.
  - rewrite validate_domain_separated. reflexivity.
  - rewrite validate_domain_separated. reflexivity.
  - rewrite validate_domain_separated. reflexivity.
  - intros values Hv. split; [|split].
    + eapply Forall_impl; [exact Hv|]. intros v [Hn|Hr]; cbn beta.
      * rewrite <- MatchString_separated, (domainPattern_accepts v Hn).
        split; [discriminate|]. intros Hc. contradiction.
      * split; [|intros _; exact Hr]. intros _ Hn.
        rewrite <- MatchString_separated, (domainPattern_accepts v Hn) in Hr.
        discriminate Hr.
    + apply validate_domains_rejected.
    + rewrite validate_domains_rejected. apply length_map.
Qed.

End Validator.

(** The dot of the pattern is not escaped: any character but a line feed
    separates two segments as well as a dot does. *)
Example domainPattern_unescaped_dot :
  MatchString domainPattern "aXb" = true
  /\ MatchString domainPattern "a b" = true
  /\ MatchString domainPattern "a..b" = false
  /\ MatchString domainPattern "example.COM" = false.
Proof. repeat apply conj; vm_compute; reflexivity. Qed.

(** C1 as the specification states it fails: "-bad.com" is one of the
    values it says produce exactly one error, and the validator produces
    none for it. *)
Lemma domain_validation_counterexample :
  @validate_domain Sample.sample_lib "-bad.com" = []
  /\ length (@validate_domain Sample.sample_lib "-bad.com") <> 1.
Proof. split; [reflexivity|discriminate]. Qed.

Lemma domain_validation_witness :
  domain_name "samltest.id"
  /\ @validate_domain Sample.sample_lib "samltest.id" = [].
Proof.
  assert (Hd : domain_name "samltest.id").
  { apply (domain_dot "samltest" "id").
    - repeat (first [apply segment_one; reflexivity
                    |apply segment_more; [reflexivity|]]).
    - apply domain_one.
      repeat (first [apply segment_one; reflexivity
                    |apply segment_more; [reflexivity|]]). }
  split; [exact Hd|].
  exact (proj1 (@domain_validation Sample.sample_lib) "samltest.id" Hd).
Defined.

End DomainValidation.

(** ** The JSON parser is total *)

Module JsonFacts.
Import Utf8 Json.

Lemma skip_ws_length s : length (skip_ws s) <= length s.
Proof.
  induction s as [|c s IH]; simpl; [lia|].
  destruct (is_space c); simpl; lia.
Qed.

Lemma scan_string_length s : forall raw r,
  scan_string s = Some (raw, r) -> length r < length s.
Proof.
  induction s as [s IH] using (induction_ltof1 _ (@length N)). unfold ltof in IH.
  intros raw r Hs. destruct s as [|c t]; [discriminate|].
  cbn [scan_string] in Hs.
  repeat case_match; simplify_eq; simpl;
    repeat match goal with
           | H : scan_string ?x = Some (_, ?r) |- _ =>
             apply IH in H; [|simpl; lia]
           end; simpl in *; try lia.
Qed.

Lemma span_digits_length s : forall ds r,
  span_digits s = (ds, r) -> length r <= length s /\ (ds <> [] -> length r < length s).
Proof.
  induction s as [|c s IH]; intros ds r Hs; simpl in Hs.
  - simplify_eq. split; [simpl; lia|congruence].
  - destruct (is_digit c).
    + destruct (span_digits s) as [ds' r'] eqn:Hd. simplify_eq.
      destruct (IH _ _ eq_refl). simpl. split; lia.
    + simplify_eq. split; [simpl; lia|congruence].
Qed.

Lemma scan_int_length s i r : scan_int s = Some (i, r) -> length r < length s.
Proof.
  unfold scan_int. intros Hs. destruct s as [|c t]; [discriminate|].
  destruct (c =? ch "0")%N; [simplify_eq; simpl; lia|].
  destruct (is_digit c); [|discriminate].
  destruct (span_digits t) as [ds r'] eqn:Hd. simplify_eq.
  apply span_digits_length in Hd as [? _]. simpl. lia.
Qed.

Lemma scan_frac_length s f r : scan_frac s = Some (f, r) -> length r <= length s.
Proof.
  unfold scan_frac. intros Hs. destruct s as [|c t]; [simplify_eq; simpl; lia|].
  destruct (c =? ch ".")%N; [|simplify_eq; simpl; lia].
  destruct (span_digits t) as [ds r'] eqn:Hd.
  apply span_digits_length in Hd as [? _].
  destruct ds; simplify_eq. simpl. lia.
Qed.

Lemma scan_exp_length s e r : scan_exp s = Some (e, r) -> length r <= length s.
Proof.
  unfold scan_exp. intros Hs. destruct s as [|c t]; [simplify_eq; simpl; lia|].
  destruct ((c =? ch "e")%N || (c =? ch "E")%N); [|simplify_eq; simpl; lia].
  assert (Hsign : forall sign t',
            match t with
            | g :: u => if ((g =? ch "+")%N || (g =? ch "-")%N) then ([g], u) else ([], t)
            | [] => ([], t)
            end = (sign, t') -> length t' <= length t).
  { intros sign t' Ht. destruct t as [|g u]; [simplify_eq; simpl; lia|].
    destruct ((g =? ch "+")%N || (g =? ch "-")%N); simplify_eq; simpl; lia. }
  destruct (match t with
            | g :: u => if ((g =? ch "+")%N || (g =? ch "-")%N) then ([g], u) else ([], t)
            | [] => ([], t)
            end) as [sign t'] eqn:Ht.
  specialize (Hsign _ _ eq_refl).
  destruct (span_digits t') as [ds r'] eqn:Hd.
  apply span_digits_length in Hd as [? _].
  destruct ds; simplify_eq. simpl. lia.
Qed.

Lemma scan_number_length s lit r :
  scan_number s = Some (lit, r) -> length r < length s.
Proof.
  unfold scan_number. intros Hs.
  assert (Hneg : forall neg s1,
            match s with
            | c :: t => if (c =? ch "-")%N then ([c], t) else ([], s)
            | [] => ([], s)
            end = (neg, s1) -> length s1 <= length s).
  { intros neg s1 Hn. destruct s as [|c t]; [simplify_eq; simpl; lia|].
    destruct (c =? ch "-")%N; simplify_eq; simpl; lia. }
  destruct (match s with
            | c :: t => if (c =? ch "-")%N then ([c], t) else ([], s)
            | [] => ([], s)
            end) as [neg s1] eqn:Hn.
  specialize (Hneg _ _ eq_refl).
  destruct (scan_int s1) as [[i s2]|] eqn:Hi; [|discriminate].
  destruct (scan_frac s2) as [[f s3]|] eqn:Hf; [|discriminate].
  destruct (scan_exp s3) as [[e s4]|] eqn:He; [|discriminate].
  simplify_eq.
  apply scan_int_length in Hi. apply scan_frac_length in Hf.
  apply scan_exp_length in He. lia.
Qed.

Lemma strip_prefix_length p : forall s r,
  strip_prefix p s = Some r -> length r + length p = length s.
Proof.
  induction p as [|a p IH]; intros s r Hs; simpl in Hs.
  - simplify_eq. simpl. lia.
  - destruct s as [|b s]; [discriminate|].
    destruct (a =? b)%N; [|discriminate]. apply IH in Hs. simpl. lia.
Qed.

Lemma skip_ws_cons s c t : skip_ws s = c :: t -> length t < length s.
Proof. intros Hs. pose proof (skip_ws_length s) as Hl. rewrite Hs in Hl. simpl in Hl. lia. Qed.

(** What is left after a value is shorter than the text it was read from. *)
Lemma parse_length fuel : forall depth s,
  (forall v r, parse_value fuel depth s = Parsed (v, r) -> length r < length s)
  /\ (forall acc v r, parse_elements fuel depth s acc = Parsed (v, r) -> length r < length s)
  /\ (forall acc v r, parse_members fuel depth s acc = Parsed (v, r) -> length r < length s).
Proof.
  induction fuel as [|fuel IH]; intros depth s.
  { repeat apply conj; intros; discriminate. }
  repeat apply conj.
  - intros v r Hp. cbn [parse_value] in Hp.
    destruct s as [|c t]; [discriminate|].
    repeat case_match; simplify_eq;
      repeat match goal with
             | H : skip_ws _ = _ :: _ |- _ => apply skip_ws_cons in H
             | H : parse_members _ _ _ _ = Parsed _ |- _ => apply IH in H
             | H : parse_elements _ _ _ _ = Parsed _ |- _ => apply IH in H
             | H : scan_string _ = Some _ |- _ => apply scan_string_length in H
             | H : scan_number _ = Some _ |- _ => apply scan_number_length in H
             | H : strip_prefix _ _ = Some _ |- _ => apply strip_prefix_length in H
             end; simpl in *; lia.
  - intros acc v r Hp. cbn [parse_elements] in Hp.
    repeat case_match; simplify_eq;
      repeat match goal with
             | H : skip_ws _ = _ :: _ |- _ => apply skip_ws_cons in H
             | H : parse_value _ _ _ = Parsed _ |- _ => apply IH in H
             | H : parse_elements _ _ _ _ = Parsed _ |- _ => apply IH in H
             end;
      repeat match goal with
             | |- context [skip_ws ?x] => pose proof (skip_ws_length x); generalize dependent (skip_ws x); intros
             | H : context [skip_ws ?x] |- _ => pose proof (skip_ws_length x); generalize dependent (skip_ws x); intros
             end; simpl in *; lia.
  - intros acc v r Hp. cbn [parse_members] in Hp.
    repeat case_match; simplify_eq;
      repeat match goal with
             | H : skip_ws _ = _ :: _ |- _ => apply skip_ws_cons in H
             | H : parse_value _ _ _ = Parsed _ |- _ => apply IH in H
             | H : parse_members _ _ _ _ = Parsed _ |- _ => apply IH in H
             | H : scan_string _ = Some _ |- _ => apply scan_string_length in H
             end;
      repeat match goal with
             | |- context [skip_ws ?x] => pose proof (skip_ws_length x); generalize dependent (skip_ws x); intros
             | H : context [skip_ws ?x] |- _ => pose proof (skip_ws_length x); generalize dependent (skip_ws x); intros
             end; simpl in *; lia.
Qed.

Ltac skip_ws_bounds :=
  repeat match goal with
         | H : skip_ws _ = _ :: _ |- _ => apply skip_ws_cons in H
         | H : parse_value _ _ _ = Parsed _ |- _ => apply parse_length in H
         | H : scan_string _ = Some _ |- _ => apply scan_string_length in H
         end;
  repeat match goal with
         | |- context [skip_ws ?x] =>
           pose proof (skip_ws_length x); generalize dependent (skip_ws x); intros
         | H : context [skip_ws ?x] |- _ =>
           pose proof (skip_ws_length x); generalize dependent (skip_ws x); intros
         end.

(** With fuel for twice the length of the text, the parser does not run
    out of fuel. *)
Lemma parse_fuel_enough fuel : forall depth s,
  (2 * length s + 1 <= fuel -> parse_value fuel depth s <> NoFuel)
  /\ (forall acc, 2 * length s + 2 <= fuel -> parse_elements fuel depth s acc <> NoFuel)
  /\ (forall acc, 2 * length s + 2 <= fuel -> parse_members fuel depth s acc <> NoFuel).
Proof.
  induction fuel as [|fuel IH]; intros depth s.
  { repeat apply conj; intros; lia. }
  repeat apply conj.
  - intros Hf. cbn [parse_value].
    destruct s as [|c t]; [discriminate|]. cbn [length] in Hf.
    repeat case_match; try discriminate.
    + apply IH. skip_ws_bounds. simpl in *. lia.
    + apply IH. skip_ws_bounds. simpl in *. lia.
  - intros acc Hf. cbn [parse_elements].
    destruct (parse_value fuel depth s) as [[v r]| |] eqn:Hv.
    + repeat case_match; try discriminate.
      apply IH. skip_ws_bounds. simpl in *. lia.
    + discriminate.
    + exfalso. revert Hv. apply IH. lia.
  - intros acc Hf. cbn [parse_members].
    repeat case_match; try discriminate.
    + apply IH. skip_ws_bounds. simpl in *. lia.
    + exfalso.
      match goal with
      | H : parse_value _ _ _ = NoFuel |- _ => revert H; apply IH
      end.
      skip_ws_bounds. simpl in *. lia.
Qed.

Lemma parse_total data : parse data <> NoFuel.
Proof.
  unfold parse, parse_fuel.
  destruct (parse_value _ _ _) as [[v r]| |] eqn:Hp.
  - destruct (skip_ws r); discriminate.
  - discriminate.
  - exfalso. revert Hp. apply parse_fuel_enough.
    pose proof (skip_ws_length (bytes data)) as Hl.
    rewrite Utf8Facts.bytes_length in Hl. lia.
Qed.

End JsonFacts.

(** ** C3: the error of a response with an unexpected status *)

Module ApiError.
Import Utf8 Regexp Json Adminclient Gotrue Spec Sample Cases.

Lemma values_for_snoc i ms m :
  values_for i (ms ++ [m]) =
  values_for i ms ++ (if bool_decide (field_index Error_fields (fst m) = Some i)
                      then [snd m] else []).
Proof.
  unfold values_for. rewrite omap_app. f_equal. simpl.
  destruct (bool_decide _); reflexivity.
Qed.

Lemma decode_string_spec v old :
  decode_string v old = (default old (string_value v), fits_string v).
Proof. destruct v; reflexivity. Qed.

Lemma decode_int_spec v old :
  decode_int v old = (default old (int_value v), fits_int v).
Proof.
  destruct v; try reflexivity. simpl.
  destruct (ParseInt64 s); reflexivity.
Qed.

Lemma last_omap_snoc {A B} (f : A -> option B) (l : list A) (sel : bool) (x : A) (d : B) :
  default d (last (omap f (l ++ (if sel then [x] else []))))
  = if sel then default (default d (last (omap f l))) (f x)
    else default d (last (omap f l)).
Proof.
  destruct sel; [|rewrite app_nil_r; reflexivity].
  rewrite omap_app. cbn [omap list_omap].
  destruct (f x); [rewrite last_snoc|rewrite app_nil_r]; reflexivity.
Qed.

(** What decoding the members of an object into an [Error] yields. *)
Lemma decode_Error_members ms e0 :
  let '(e, ok) := fold_left decode_Error_member ms (e0, true) in
  Op e = Op e0 /\ Expected e = Expected e0
  /\ Code e = default (Code e0) (last (omap int_value (values_for 0 ms)))
  /\ Message e = default (Message e0) (last (omap string_value (values_for 1 ms)))
  /\ ok = forallb member_fits ms.
Proof.
  induction ms as [|m ms IH] using rev_ind; [simpl; tauto|].
  rewrite fold_left_app. cbn [fold_left].
  destruct (fold_left decode_Error_member ms (e0, true)) as [e ok].
  destruct IH as (Hop & Hexp & Hcode & Hmsg & Hok).
  rewrite forallb_app, !values_for_snoc, !last_omap_snoc. cbn [forallb].
  rewrite andb_true_r, <- Hok, <- Hcode, <- Hmsg.
  unfold decode_Error_member, member_fits.
  change (field_index ["code"; "msg"; "error_id"] (fst m)) with
    (field_index Error_fields (fst m)).
  destruct (field_index Error_fields (fst m)) as [[|[|i]]|];
    rewrite ?decode_int_spec, ?decode_string_spec; cbn;
    repeat apply conj; try assumption; try reflexivity;
    rewrite andb_true_r; reflexivity.
Qed.

Lemma decode_Error_spec v e0 :
  let '(e, ok) := decode_Error v e0 in
  Op e = Op e0 /\ Expected e = Expected e0
  /\ Code e = default (Code e0) (payload_code v)
  /\ Message e = default (Message e0) (payload_msg v)
  /\ ok = error_shape v.
Proof.
  destruct v; try (simpl; tauto).
  apply decode_Error_members.
Qed.

Lemma parseError_spec res expected op body :
  Body res = inl body ->
  exists e, parseError res expected op = APIError e /\ api_error_of res expected op body e.
Proof.
  intros Hb. unfold parseError, api_error_of, Unmarshal. rewrite Hb.
  destruct (parse body) as [v| |].
  - pose proof (decode_Error_spec v
                  {| Op := op; Expected := expected; Code := StatusCode res;
                     Message := ""; ErrorID := "" |}) as Hd.
    destruct (decode_Error v _) as [e ok].
    cbn [Op Expected Code Message] in Hd.
    destruct Hd as (Hop & Hexp & Hcode & Hmsg & Hok). rewrite <- Hok.
    destruct ok; eexists; (split; [reflexivity|]); cbn [Op Expected Code Message]; tauto.
  - eexists; split; [reflexivity|]; cbn; tauto.
  - eexists; split; [reflexivity|]; cbn; tauto.
Qed.

Section Ops.
Context `{GoLib}.

Lemma send_wrong_status c req expected op h res :
  (forall req hdr, fst (Do (HTTPClient_ c) req hdr) = inr res) ->
  StatusCode res <> expected ->
  fst (send c req expected op h) = inl (parseError res expected op).
Proof.
  intros Hdo Hst. unfold send, HTTPClient_Do.
  specialize (Hdo req (h !!! RequestHeader req)).
  destruct (Do (HTTPClient_ c) req (h !!! RequestHeader req)) as [r m].
  cbn [fst] in Hdo. subst r.
  rewrite bool_decide_eq_true_2 by exact Hst. reflexivity.
Qed.

(** What [send] returns, by what the transport answers to the request. *)
Lemma send_cases c req expected op (h : gmap positive (gmap string (list string))) :
  fst (send c req expected op h)
  = match fst (Do (HTTPClient_ c) req (h !!! RequestHeader req)) with
    | inl err => inl err
    | inr res => if bool_decide (StatusCode res = expected) then inr res
                 else inl (parseError res expected op)
    end.
Proof.
  unfold send, HTTPClient_Do.
  destruct (Do (HTTPClient_ c) req (h !!! RequestHeader req)) as [[err|res] m];
    cbn [fst]; [reflexivity|].
  destruct (decide (StatusCode res = expected)) as [Heq|Hne].
  - rewrite bool_decide_eq_false_2 by (intros Hc; exact (Hc Heq)).
    rewrite bool_decide_eq_true_2 by exact Heq. reflexivity.
  - rewrite bool_decide_eq_true_2 by exact Hne.
    rewrite bool_decide_eq_false_2 by exact Hne. reflexivity.
Qed.

Lemma send_then {A} c req expected op (h : gmap positive (gmap string (list string)))
    (k : Response -> error + A) :
  fst (match send c req expected op h with
       | (inl err, h2) => (inl err, h2)
       | (inr r, h2) => (k r, h2)
       end)
  = match fst (Do (HTTPClient_ c) req (h !!! RequestHeader req)) with
    | inl err => inl err
    | inr res => if bool_decide (StatusCode res = expected) then k res
                 else inl (parseError res expected op)
    end.
Proof.
  pose proof (send_cases c req expected op h) as Hs.
  destruct (send c req expected op h) as [[err|r] h2]; cbn [fst] in *;
    destruct (fst (Do (HTTPClient_ c) req (h !!! RequestHeader req))) as [err'|res];
    try destruct (bool_decide (StatusCode res = expected)); congruence.
Qed.

Lemma send_then_delete c req expected op (h : gmap positive (gmap string (list string))) :
  fst (match send c req expected op h with
       | (inl err, h2) => (Some err, h2)
       | (inr _, h2) => (None, h2)
       end)
  = match fst (Do (HTTPClient_ c) req (h !!! RequestHeader req)) with
    | inl err => Some err
    | inr res => if bool_decide (StatusCode res = expected) then None
                 else Some (parseError res expected op)
    end.
Proof.
  pose proof (send_cases c req expected op h) as Hs.
  destruct (send c req expected op h) as [[err|r] h2]; cbn [fst] in *;
    destruct (fst (Do (HTTPClient_ c) req (h !!! RequestHeader req))) as [err'|res];
    try destruct (bool_decide (StatusCode res = expected)); congruence.
Qed.

(** The request of Get and what Get makes of the answer. *)
Lemma Get_request c id (h : gmap positive (gmap string (list string))) :
  NewRequest_error "GET" (provider_url c ("/admin/sso/providers/" ++ id)) = None ->
  fst (GetIdentityProvider c id h)
  = match fst (Do (HTTPClient_ c)
                 {| Method := "GET";
                    RequestURL := provider_url c ("/admin/sso/providers/" ++ id);
                    RequestHeader := fresh (dom h);
                    RequestBody := None |}
                 (h !!! Headers c)) with
    | inl err => inl err
    | inr res =>
      if bool_decide (StatusCode res = 200%Z) then decode_provider res
      else inl (parseError res 200 ("fetching identity provider with id " ++ Quote id))
    end.
Proof.
  intros Hreq. unfold GetIdentityProvider. rewrite Hreq.
  unfold Header_Clone, alloc. rewrite send_then.
  cbn [RequestHeader]. rewrite lookup_total_insert_eq. reflexivity.
Qed.

Lemma Delete_request c id (h : gmap positive (gmap string (list string))) :
  NewRequest_error "DELETE" (provider_url c ("/admin/sso/providers/" ++ id)) = None ->
  fst (DeleteIdentityProvider c id h)
  = match fst (Do (HTTPClient_ c)
                 {| Method := "DELETE";
                    RequestURL := provider_url c ("/admin/sso/providers/" ++ id);
                    RequestHeader := fresh (dom h);
                    RequestBody := None |}
                 (h !!! Headers c)) with
    | inl err => Some err
    | inr res =>
      if bool_decide (StatusCode res = 200%Z) then None
      else Some (parseError res 200 ("deleting identity provider with ID " ++ Quote id))
    end.
Proof.
  intros Hreq. unfold DeleteIdentityProvider. rewrite Hreq.
  unfold Header_Clone, alloc. rewrite send_then_delete.
  cbn [RequestHeader]. rewrite lookup_total_insert_eq. reflexivity.
Qed.

(** The request of Create and what Create makes of the answer. *)
Lemma Create_sent c template (h : gmap positive (gmap string (list string))) :
  NewRequest_error "POST" (provider_url c "/admin/sso/providers") = None ->
  fst (CreateIdentityProvider c template h)
  = match fst (Do (HTTPClient_ c)
                 {| Method := "POST";
                    RequestURL := provider_url c "/admin/sso/providers";
                    RequestHeader := fresh (dom h);
                    RequestBody :=
                      Some (json_text (Marshal_IdentityProviderRequest template)) |}
                 (with_header "Content-Type" "application/json" (h !!! Headers c))) with
    | inl err => inl err
    | inr res =>
      if bool_decide (StatusCode res = 201%Z) then decode_provider res
      else inl (parseError res 201 "creating new identity provider")
    end.
Proof.
  intros Hreq. unfold CreateIdentityProvider. rewrite Hreq.
  unfold Header_Clone, alloc. rewrite send_then.
  cbn [RequestHeader]. unfold Header_Add. rewrite !lookup_total_insert_eq. reflexivity.
Qed.

Lemma Update_sent c id template (h : gmap positive (gmap string (list string))) :
  NewRequest_error "PUT" (provider_url c ("/admin/sso/providers/" ++ id)) = None ->
  fst (UpdateIdentityProvider c id template h)
  = match fst (Do (HTTPClient_ c)
                 {| Method := "PUT";
                    RequestURL := provider_url c ("/admin/sso/providers/" ++ id);
                    RequestHeader := fresh (dom h);
                    RequestBody :=
                      Some (json_text (Marshal_IdentityProviderRequest template)) |}
                 (with_header "Content-Type" "application/json" (h !!! Headers c))) with
    | inl err => inl err
    | inr res =>
      if bool_decide (StatusCode res = 200%Z) then decode_provider res
      else inl (parseError res 200 ("updating identity provider with ID " ++ Quote id))
    end.
Proof.
  intros Hreq. unfold UpdateIdentityProvider. rewrite Hreq.
  unfold Header_Clone, alloc. rewrite send_then.
  cbn [RequestHeader]. unfold Header_Add. rewrite !lookup_total_insert_eq. reflexivity.
Qed.

(** C3, as the code has it.  When the transport answers the request of a
    method with a status other than the one expected and a body that can
    be read, the method returns an API error with the description of the
    operation and the expected status.  Its message is the [msg] of the
    payload when the body is JSON of the error shape, and the raw body
    otherwise.  Its code is the HTTP status unless the payload gives an
    integer [code]: then it is the code of the payload, whatever the
    status, and the text of the error prints that code after the words
    [got HTTP].  Create answered with status 400 and the body
    [{"code":400,"msg":"invalid metadata"}] returns the message
    [invalid metadata], expected status 201 and code 400; Get answered
    with status 500 and the body [{"code":200,"msg":"boom"}] returns an
    error with expected status 200 and code 200. *)
Theorem api_error (c : Client) (h : gmap positive (gmap string (list string)))
    (res : Response) (body : string) :
  Body res = inl body ->
  (forall id,
      NewRequest_error "GET" (provider_url c ("/admin/sso/providers/" ++ id)) = None ->
      fst (Do (HTTPClient_ c)
             {| Method := "GET";
                RequestURL := provider_url c ("/admin/sso/providers/" ++ id);
                RequestHeader := fresh (dom h);
                RequestBody := None |}
             (h !!! Headers c)) = inr res ->
      StatusCode res <> StatusOK ->
      exists e, fst (GetIdentityProvider c id h) = inl (APIError e)
                /\ api_error_of res StatusOK
                     ("fetching identity provider with id " ++ Quote id) body e)
  /\ (forall template,
        NewRequest_error "POST" (provider_url c "/admin/sso/providers") = None ->
        fst (Do (HTTPClient_ c)
               {| Method := "POST";
                  RequestURL := provider_url c "/admin/sso/providers";
                  RequestHeader := fresh (dom h);
                  RequestBody :=
                    Some (json_text (Marshal_IdentityProviderRequest template)) |}
               (with_header "Content-Type" "application/json" (h !!! Headers c)))
        = inr res ->
        StatusCode res <> StatusCreated ->
        exists e, fst (CreateIdentityProvider c template h) = inl (APIError e)
                  /\ api_error_of res StatusCreated "creating new identity provider" body e)
  /\ (forall id template,
        NewRequest_error "PUT" (provider_url c ("/admin/sso/providers/" ++ id)) = None ->
        fst (Do (HTTPClient_ c)
               {| Method := "PUT";
                  RequestURL := provider_url c ("/admin/sso/providers/" ++ id);
                  RequestHeader := fresh (dom h);
                  RequestBody :=
                    Some (json_text (Marshal_IdentityProviderRequest template)) |}
               (with_header "Content-Type" "application/json" (h !!! Headers c)))
        = inr res ->
        StatusCode res <> StatusOK ->
        exists e, fst (UpdateIdentityProvider c id template h) = inl (APIError e)
                  /\ api_error_of res StatusOK
                       ("updating identity provider with ID " ++ Quote id) body e)
  /\ (forall id,
        NewRequest_error "DELETE" (provider_url c ("/admin/sso/providers/" ++ id)) = None ->
        fst (Do (HTTPClient_ c)
               {| Method := "DELETE";
                  RequestURL := provider_url c ("/admin/sso/providers/" ++ id);
                  RequestHeader := fresh (dom h);
                  RequestBody := None |}
               (h !!! Headers c)) = inr res ->
        StatusCode res <> StatusOK ->
        exists e, fst (DeleteIdentityProvider c id h) = Some (APIError e)
                  /\ api_error_of res StatusOK
                       ("deleting identity provider with ID " ++ Quote id) body e)
  /\ (forall e expected op,
        api_error_of res expected op body e ->
        Error_Error e
        = ("adminclient: expected HTTP " ++ pretty expected ++ " when " ++ op
           ++ ", got HTTP " ++ pretty (Code e) ++ ": " ++ Message e)%string)
  /\ (forall template,
        NewRequest_error "POST" (provider_url c "/admin/sso/providers") = None ->
        fst (Do (HTTPClient_ c)
               {| Method := "POST";
                  RequestURL := provider_url c "/admin/sso/providers";
                  RequestHeader := fresh (dom h);
                  RequestBody :=
                    Some (json_text (Marshal_IdentityProviderRequest template)) |}
               (with_header "Content-Type" "application/json" (h !!! Headers c)))
        = inr res ->
        StatusCode res = 400%Z -> body = jq "{'code':400,'msg':'invalid metadata'}" ->
        fst (CreateIdentityProvider c template h)
        = inl (APIError {| Op := "creating new identity provider"; Expected := 201;
                           Code := 400; Message := "invalid metadata";
                           ErrorID := "" |}))
  /\ (forall id,
        NewRequest_error "GET" (provider_url c ("/admin/sso/providers/" ++ id)) = None ->
        fst (Do (HTTPClient_ c)
               {| Method := "GET";
                  RequestURL := provider_url c ("/admin/sso/providers/" ++ id);
                  RequestHeader := fresh (dom h);
                  RequestBody := None |}
               (h !!! Headers c)) = inr res ->
        StatusCode res = 500%Z -> body = jq "{'code':200,'msg':'boom'}" ->
        fst (GetIdentityProvider c id h)
        = inl (APIError {| Op := "fetching identity provider with id " ++ Quote id;
                           Expected := 200; Code := 200; Message := "boom";
                           ErrorID := "" |})).
Proof.
  intros Hbody. repeat apply conj.
  - intros id Hreq Hdo Hst.
    destruct (parseError_spec res StatusOK
                ("fetching identity provider with id " ++ Quote id) body Hbody)
      as (e & He & Hspec).
    exists e. split; [|exact Hspec]. rewrite <- He.
    rewrite Get_request by exact Hreq. rewrite Hdo.
    rewrite bool_decide_eq_false_2 by exact Hst. reflexivity.
  - intros template Hreq Hdo Hst.
    destruct (parseError_spec res StatusCreated "creating new identity provider"
                body Hbody) as (e & He & Hspec).
    exists e. split; [|exact Hspec]. rewrite <- He.
    rewrite Create_sent by exact Hreq. rewrite Hdo.
    rewrite bool_decide_eq_false_2 by exact Hst. reflexivity.
  - intros id template Hreq Hdo Hst.
    destruct (parseError_spec res StatusOK
                ("updating identity provider with ID " ++ Quote id) body Hbody)
      as (e & He & Hspec).
    exists e. split; [|exact Hspec]. rewrite <- He.
    rewrite Update_sent by exact Hreq. rewrite Hdo.
    rewrite bool_decide_eq_false_2 by exact Hst. reflexivity.
  - intros id Hreq Hdo Hst.
    destruct (parseError_spec res StatusOK
                ("deleting identity provider with ID " ++ Quote id) body Hbody)
      as (e & He & Hspec).
    exists e. split; [|exact Hspec]. rewrite <- He.
    rewrite Delete_request by exact Hreq. rewrite Hdo.
    rewrite bool_decide_eq_false_2 by exact Hst. reflexivity.
  - intros e expected op (Hop & Hexp & _). unfold Error_Error.
    rewrite Hop, Hexp. reflexivity.
  - intros template Hreq Hdo Hst ->.
    rewrite Create_sent by exact Hreq. rewrite Hdo.
    rewrite bool_decide_eq_false_2 by (rewrite Hst; discriminate).
    unfold parseError. rewrite Hbody, Hst. vm_compute. reflexivity.
  - intros id Hreq Hdo Hst ->.
    rewrite Get_request by exact Hreq. rewrite Hdo.
    rewrite bool_decide_eq_false_2 by (rewrite Hst; discriminate).
    unfold parseError. rewrite Hbody, Hst.
    change (Unmarshal decode_Error (jq "{'code':200,'msg':'boom'}")
              {| Op := "fetching identity provider with id " ++ Quote id;
                 Expected := 200; Code := 500; Message := ""; ErrorID := "" |})
      with ({| Op := "fetching identity provider with id " ++ Quote id;
               Expected := 200; Code := 200; Message := "boom"; ErrorID := "" |},
            @None Json.error).
    reflexivity.
Qed.

End Ops.

(** Status 400 with a payload whose code is 422: the error has code 422. *)
Example payload_code_over_status :
  let '(c, h) := @New sample_lib [WithHTTPClient (Some (answering res422))] ∅ in
  exists e, fst (@CreateIdentityProvider sample_lib c zeroRequest h) = inl (APIError e)
            /\ Code e = 422%Z /\ Code e <> StatusCode res422.
Proof.
  vm_compute. eexists. split; [reflexivity|]. split; [reflexivity|discriminate].
Qed.

Lemma api_error_witness :
  Body server_error = inl (jq "{'code':200,'msg':'boom'}")
  /\ fst (@GetIdentityProvider sample_lib
            (client_of (routing server_error {| StatusCode := 200; Body := inl "{}" |}))
            "abc" store0)
     = inl (APIError {| Op := "fetching identity provider with id " ++ @Quote sample_lib "abc";
                        Expected := 200; Code := 200; Message := "boom";
                        ErrorID := "" |})
  /\ StatusCode server_error = 500%Z.
Proof.
  split; [reflexivity|]. split; [|reflexivity].
  exact (proj2 (proj2 (proj2 (proj2 (proj2 (proj2
           (@api_error sample_lib
              (client_of (routing server_error {| StatusCode := 200; Body := inl "{}" |}))
              store0 server_error (jq "{'code':200,'msg':'boom'}") eq_refl))))))
           "abc" eq_refl eq_refl eq_refl eq_refl).
Defined.

End ApiError.

(** ** C5 and C10: validation of the attribute mapping *)

Module AttributeMappingValidation.
Import Utf8 Regexp Json Adminclient Gotrue Spec Sample Notions.
Import ApiError.

Lemma fold_set_Domains l : forall template,
  fold_left (fun template domain =>
               set_Domains (append (req_Domains template) domain) template) l template
  = match l with
    | [] => template
    | _ :: _ => set_Domains (fold_left append l (req_Domains template)) template
    end.
Proof.
  induction l as [|x l IH]; intros template; [reflexivity|].
  cbn [fold_left]. rewrite IH. destruct l; reflexivity.
Qed.

Lemma empty_positions_from_spec names : forall i j,
  j ∈ empty_positions_from i names <-> i <= j /\ names !! (j - i) = Some "".
Proof.
  induction names as [|n names IH]; intros i j; cbn [empty_positions_from].
  - rewrite elem_of_nil. split; [tauto|]. intros [_ Hl]. discriminate.
  - rewrite elem_of_app, IH. split.
    + intros [Hj|[Hle Hl]].
      * destruct (String.eqb_spec n ""); [|apply elem_of_nil in Hj; tauto].
        apply list_elem_of_singleton in Hj. subst. rewrite Nat.sub_diag.
        split; [lia|reflexivity].
      * split; [lia|]. replace (j - i) with (S (j - S i)) by lia. exact Hl.
    + intros [Hle Hl]. destruct (decide (j = i)) as [->|Hne].
      * left. rewrite Nat.sub_diag in Hl. injection Hl as ->.
        apply list_elem_of_singleton. reflexivity.
      * right. split; [lia|]. replace (j - i) with (S (j - S i)) in Hl by lia.
        exact Hl.
Qed.

(** The positions listed are those of the empty names, each once. *)
Lemma empty_positions_spec names j :
  j ∈ empty_positions names <-> names !! j = Some "".
Proof.
  unfold empty_positions. rewrite empty_positions_from_spec, Nat.sub_0_r.
  split; [tauto|]. intros Hl. split; [lia|exact Hl].
Qed.

Lemma empty_positions_from_NoDup names : forall i, NoDup (empty_positions_from i names).
Proof.
  induction names as [|n names IH]; intros i; cbn [empty_positions_from].
  - constructor.
  - destruct (String.eqb n ""); [|apply IH].
    cbn [app]. constructor; [|apply IH].
    rewrite empty_positions_from_spec. lia.
Qed.

Lemma field_values_snoc fields i ms m :
  field_values fields i (ms ++ [m]) =
  field_values fields i ms ++ (if bool_decide (field_index fields (fst m) = Some i)
                               then [snd m] else []).
Proof.
  unfold field_values. rewrite omap_app. f_equal. simpl.
  destruct (bool_decide _); reflexivity.
Qed.

Lemma decode_interface_spec v old :
  decode_interface v old = (default old (interface_value v), interface_ok v).
Proof.
  destruct v; try reflexivity. cbn.
  destruct (float_overflows _); reflexivity.
Qed.

Lemma decode_strings_ok l : forall old,
  snd (decode_strings l old) = forallb fits_string l.
Proof.
  induction l as [|v l IH]; intros old; [reflexivity|].
  cbn [decode_strings forallb]. rewrite decode_string_spec.
  specialize (IH (tl old)). destruct (decode_strings l (tl old)) as [xs ok2].
  cbn [snd] in *. rewrite IH. reflexivity.
Qed.

Lemma decode_strings_names l : fst (decode_strings l []) = map name_of l.
Proof.
  induction l as [|v l IH]; [reflexivity|].
  cbn [decode_strings map hd tl]. rewrite decode_string_spec.
  destruct (decode_strings l []) as [xs ok2]. cbn [fst] in *. rewrite IH. reflexivity.
Qed.

Lemma decode_string_slice_ok v old spare :
  snd (decode_string_slice v old spare) = fits_names v.
Proof.
  destruct v as [| | | |l|]; try reflexivity.
  destruct l as [|x l]; [reflexivity|].
  unfold decode_string_slice. pose proof (decode_strings_ok (x :: l) (old ++ spare)) as Hok.
  destruct (decode_strings (x :: l) (old ++ spare)) as [xs ok]. exact Hok.
Qed.

Lemma decode_string_slice_fresh v :
  decode_string_slice v [] [] = (names_of v, [], fits_names v).
Proof.
  destruct v as [| | | |l|]; try reflexivity.
  destruct l as [|x l]; [reflexivity|].
  unfold decode_string_slice, names_of, fits_names. cbn [app].
  pose proof (decode_strings_ok (x :: l) []) as Hok.
  pose proof (decode_strings_names (x :: l)) as Hn.
  destruct (decode_strings (x :: l) []) as [xs ok]. cbn [fst snd] in *.
  rewrite Hok, Hn, drop_nil. reflexivity.
Qed.

Lemma index_where_bound {A} (p : A -> bool) (l : list A) i :
  index_where p l = Some i -> i < length l.
Proof.
  revert i. induction l as [|x l IH]; intros i; cbn [index_where length]; [discriminate|].
  destruct (p x); [intros [= <-]; lia|].
  destruct (index_where p l) as [j|]; [|discriminate].
  intros [= <-]. specialize (IH j eq_refl). lia.
Qed.

Lemma field_index_bound names key i : field_index names key = Some i -> i < length names.
Proof.
  unfold field_index.
  destruct (index_where (String.eqb key) names) as [j|] eqn:Hj.
  - intros [= <-]. eapply index_where_bound. exact Hj.
  - apply index_where_bound.
Qed.

Ltac decide_indices :=
  repeat match goal with
         | |- context [bool_decide (?a = ?b :> option nat)] =>
           first [rewrite (bool_decide_eq_true_2 (a = b)) by reflexivity
                 |rewrite (bool_decide_eq_false_2 (a = b)) by discriminate]
         end.

(** What decoding the members of an object into an [Attribute] yields. *)
Lemma decode_Attribute_members ms :
  let '(a, spare, ok) := fold_left decode_Attribute_member ms (zeroAttribute, [], true) in
  Name a = default "" (last (omap string_value (field_values Attribute_fields 0 ms)))
  /\ Default a
     = default None (last (omap interface_value (field_values Attribute_fields 2 ms)))
  /\ ok = forallb attribute_member_fits ms
  /\ (field_values Attribute_fields 1 ms = [] -> Names a = [] /\ spare = [])
  /\ (forall v, field_values Attribute_fields 1 ms = [v] -> Names a = names_of v).
Proof.
  induction ms as [|m ms IH] using rev_ind.
  { cbn. repeat split; try reflexivity. intros v Hv. discriminate Hv. }
  rewrite fold_left_app. cbn [fold_left].
  destruct (fold_left decode_Attribute_member ms (zeroAttribute, [], true))
    as [[a spare] ok].
  destruct IH as (Hname & Hdef & Hok & Hnil & Hone).
  rewrite forallb_app, !field_values_snoc, !last_omap_snoc. cbn [forallb].
  rewrite andb_true_r, <- Hok, <- Hname, <- Hdef.
  unfold decode_Attribute_member, attribute_member_fits.
  change (field_index ["name"; "names"; "default"] (fst m)) with
    (field_index Attribute_fields (fst m)).
  destruct (field_index Attribute_fields (fst m)) as [[|[|i]]|] eqn:Hi.
  - rewrite decode_string_spec.
    decide_indices.
    rewrite !app_nil_r. cbn [Name Names Default].
    repeat apply conj; try reflexivity; assumption.
  - decide_indices.
    pose proof (decode_string_slice_ok (snd m) (Names a) spare) as Hs.
    destruct (decode_string_slice (snd m) (Names a) spare) as [[x spare'] ok'] eqn:Hd.
    cbn [snd] in Hs. subst ok'. cbn [Name Names Default].
    repeat apply conj; try reflexivity.
    + intros Hv. destruct (field_values Attribute_fields 1 ms); discriminate Hv.
    + intros v Hv.
      destruct (field_values Attribute_fields 1 ms) as [|v' vs] eqn:Hvs;
        [|destruct vs; discriminate Hv].
      injection Hv as <-. destruct (Hnil eq_refl) as [Hn Hsp].
      rewrite Hn, Hsp, decode_string_slice_fresh in Hd. congruence.
  - assert (i = 0) as -> by (apply field_index_bound in Hi; cbn in Hi; lia).
    rewrite decode_interface_spec.
    decide_indices.
    rewrite !app_nil_r. cbn [Name Names Default].
    repeat apply conj; try reflexivity; assumption.
  - decide_indices.
    rewrite !app_nil_r, andb_true_r.
    repeat apply conj; try reflexivity; assumption.
Qed.

Lemma decode_Attribute_shape v : snd (decode_Attribute v zeroAttribute) = attribute_shape v.
Proof.
  destruct v as [| | | | |ms]; try reflexivity.
  unfold decode_Attribute, attribute_shape.
  pose proof (decode_Attribute_members ms) as Hm.
  destruct (fold_left decode_Attribute_member ms (zeroAttribute, [], true))
    as [[a spare] ok].
  destruct Hm as (_ & _ & Hok & _). exact Hok.
Qed.

(** An object that gives [names] at most once decodes to the attribute
    read off its members. *)
Lemma decode_Attribute_read v :
  names_once v -> fst (decode_Attribute v zeroAttribute) = attribute_of v.
Proof.
  destruct v as [| | | | |ms]; try reflexivity.
  unfold names_once, decode_Attribute, attribute_of, attribute_read. intros Honce.
  pose proof (decode_Attribute_members ms) as Hm.
  destruct (fold_left decode_Attribute_member ms (zeroAttribute, [], true))
    as [[a spare] ok].
  destruct Hm as (Hname & Hdef & _ & Hnil & Hone). cbn [fst].
  destruct a as [name names dflt]. cbn [Name Names Default] in *.
  rewrite <- Hname, <- Hdef. f_equal.
  destruct (field_values Attribute_fields 1 ms) as [|v [|v' vs]].
  - apply Hnil. reflexivity.
  - apply Hone. reflexivity.
  - cbn [length] in Honce. lia.
Qed.

Lemma decode_Keys_shape entries : forall keys ok,
  snd (fold_left decode_Keys_member entries (keys, ok))
  = ok && forallb (fun e => attribute_shape (snd e)) entries.
Proof.
  induction entries as [|e entries IH]; intros keys ok; cbn [fold_left forallb].
  - rewrite andb_true_r. reflexivity.
  - unfold decode_Keys_member at 2.
    pose proof (decode_Attribute_shape (snd e)) as Hs.
    destruct (decode_Attribute (snd e) zeroAttribute) as [a ok']. cbn [snd] in Hs.
    rewrite IH, Hs, andb_assoc. reflexivity.
Qed.

Lemma decode_Keys_read entries : forall keys ok,
  Forall (fun e => names_once (snd e)) entries ->
  fst (fold_left decode_Keys_member entries (keys, ok))
  = fold_left (fun keys e => <[fst e := attribute_of (snd e)]> keys) entries keys.
Proof.
  induction entries as [|e entries IH]; intros keys ok Honce; [reflexivity|].
  apply Forall_cons_1 in Honce as [He Honce]. cbn [fold_left].
  unfold decode_Keys_member at 2.
  pose proof (decode_Attribute_read (snd e) He) as Hr.
  destruct (decode_Attribute (snd e) zeroAttribute) as [a ok']. cbn [fst] in Hr.
  rewrite IH by exact Honce. rewrite Hr. reflexivity.
Qed.

Lemma decode_Keys_ok v old : snd (decode_Keys v old) = keys_shape v.
Proof.
  destruct v as [| | | | |entries]; try reflexivity.
  unfold decode_Keys, keys_shape. rewrite decode_Keys_shape. reflexivity.
Qed.

Lemma field_index_keys k i : field_index ["keys"] k = Some i -> i = 0.
Proof. intros Hi. apply field_index_bound in Hi. cbn in Hi. lia. Qed.

(** What decoding the members of an object into an [AttributeMapping]
    yields. *)
Lemma decode_AttributeMapping_members ms :
  let '(am, ok) := fold_left decode_AttributeMapping_member ms
                     (zeroAttributeMapping, true) in
  ok = forallb mapping_member_fits ms
  /\ (field_values ["keys"] 0 ms = [] -> Keys am = ∅)
  /\ (forall entries,
        field_values ["keys"] 0 ms = [JObject entries] ->
        Forall (fun e => names_once (snd e)) entries ->
        Keys am = keys_read entries).
Proof.
  induction ms as [|m ms IH] using rev_ind.
  { cbn. repeat split; try reflexivity. intros entries Hv. discriminate Hv. }
  rewrite fold_left_app. cbn [fold_left].
  destruct (fold_left decode_AttributeMapping_member ms (zeroAttributeMapping, true))
    as [am ok].
  destruct IH as (Hok & Hnil & Hone).
  rewrite forallb_app, !field_values_snoc. cbn [forallb].
  rewrite andb_true_r, <- Hok.
  unfold decode_AttributeMapping_member, mapping_member_fits.
  destruct (field_index ["keys"] (fst m)) as [i|] eqn:Hi.
  - assert (i = 0) as -> by (eapply field_index_keys; exact Hi).
    decide_indices.
    pose proof (decode_Keys_ok (snd m) (Keys am)) as Hs.
    destruct (decode_Keys (snd m) (Keys am)) as [k ok'] eqn:Hd.
    cbn [snd] in Hs. subst ok'. cbn [Keys].
    repeat apply conj; try reflexivity.
    + intros Hv. destruct (field_values ["keys"] 0 ms); discriminate Hv.
    + intros entries Hv Honce.
      destruct (field_values ["keys"] 0 ms) as [|v' vs] eqn:Hvs;
        [|destruct vs; discriminate Hv].
      injection Hv as Hv. rewrite Hv in Hd. cbn [decode_Keys] in Hd.
      rewrite (Hnil eq_refl) in Hd.
      pose proof (decode_Keys_read entries ∅ true Honce) as Hr.
      rewrite Hd in Hr. exact Hr.
  - decide_indices. rewrite !app_nil_r, andb_true_r.
    repeat apply conj; try reflexivity; assumption.
Qed.

Lemma decode_AttributeMapping_shape v :
  snd (decode_AttributeMapping v zeroAttributeMapping) = mapping_shape v.
Proof.
  destruct v as [| | | | |ms]; try reflexivity.
  unfold decode_AttributeMapping, mapping_shape.
  pose proof (decode_AttributeMapping_members ms) as Hm.
  destruct (fold_left decode_AttributeMapping_member ms (zeroAttributeMapping, true))
    as [am ok].
  destruct Hm as (Hok & _). exact Hok.
Qed.

(** The mapping a text decodes to, in the terms of the text: an error
    unless the text is JSON of the shape of a mapping; the keys read off
    the object [keys] when the text gives it once. *)
Lemma Unmarshal_AttributeMapping value :
  match parse value with
  | Parsed v =>
    snd (Unmarshal decode_AttributeMapping value zeroAttributeMapping)
    = (if mapping_shape v then None else Some UnmarshalTypeError)
    /\ (forall ms entries,
          v = JObject ms -> field_values ["keys"] 0 ms = [JObject entries] ->
          Forall (fun e => names_once (snd e)) entries ->
          Keys (fst (Unmarshal decode_AttributeMapping value zeroAttributeMapping))
          = keys_read entries)
  | _ => Unmarshal decode_AttributeMapping value zeroAttributeMapping
         = (zeroAttributeMapping, Some SyntaxError)
  end.
Proof.
  unfold Unmarshal. destruct (parse value) as [v| |]; try reflexivity.
  pose proof (decode_AttributeMapping_shape v) as Hs.
  destruct (decode_AttributeMapping v zeroAttributeMapping) as [am ok] eqn:Hd.
  cbn [fst snd] in *. subst ok. split; [reflexivity|].
  intros ms entries -> Hv Honce. cbn [decode_AttributeMapping] in Hd.
  pose proof (decode_AttributeMapping_members ms) as Hm.
  rewrite Hd in Hm. destruct Hm as (_ & _ & Hone). apply Hone; assumption.
Qed.

Lemma mjoin_nil {A} (ls : list (list A)) : mjoin ls = [] <-> Forall (fun l => l = []) ls.
Proof.
  induction ls as [|l ls IH]; [split; [constructor|reflexivity]|].
  change (mjoin (l :: ls)) with (l ++ mjoin ls). split.
  - intros Hj. apply app_eq_nil in Hj as [Hl Hj]. constructor; [exact Hl|apply IH, Hj].
  - intros Hf. apply Forall_cons_1 in Hf as [-> Hf]. apply IH, Hf.
Qed.

Lemma empty_positions_nil names : empty_positions names = [] <-> "" ∉ names.
Proof.
  split.
  - intros He Hin. apply list_elem_of_lookup in Hin as [j Hj].
    apply empty_positions_spec in Hj. rewrite He in Hj. apply elem_of_nil in Hj. exact Hj.
  - intros Hn. destruct (empty_positions names) as [|j l] eqn:He; [reflexivity|].
    exfalso. apply Hn. assert (Hj : j ∈ empty_positions names) by (rewrite He; left).
    apply empty_positions_spec in Hj. eapply list_elem_of_lookup_2. exact Hj.
Qed.

Section Keys.
Context `{GoLib}.

Lemma validate_names key names : forall i,
  mjoin (imap (fun j => validate_name key (i + j)) names)
  = map (empty_name_diag key) (empty_positions_from i names).
Proof.
  induction names as [|n names IH]; intros i; [reflexivity|].
  rewrite imap_cons. cbn [empty_positions_from].
  change (mjoin (?x :: ?l)) with (x ++ mjoin l).
  rewrite map_app. f_equal.
  - unfold validate_name. rewrite Nat.add_0_r.
    destruct (String.eqb n ""); reflexivity.
  - rewrite <- IH. f_equal. apply imap_ext. intros j x _. cbn. f_equal. lia.
Qed.

Lemma validate_key_spec entry : validate_key entry = key_diags entry.
Proof.
  destruct entry as [key a]. unfold validate_key, key_diags. cbn [fst snd].
  destruct (decide (nothing_set a)) as [(Hn & Hns & Hd)|Hset].
  - rewrite Hn, Hns, Hd. reflexivity.
  - destruct (String.eqb (Name a) "" && (length (Names a) =? 0)%nat
              && is_nil (Default a)) eqn:Hcond.
    + exfalso. apply Hset.
      apply andb_true_iff in Hcond as [Hcond Hd].
      apply andb_true_iff in Hcond as [Hn Hns].
      apply String.eqb_eq in Hn. apply Nat.eqb_eq in Hns.
      repeat split; [exact Hn|destruct (Names a); [reflexivity|discriminate]|].
      destruct (Default a); [discriminate|reflexivity].
    + destruct (Names a) as [|n names] eqn:Hns; [reflexivity|].
      cbn [length Nat.ltb Nat.leb].
      exact (validate_names key (n :: names) 0).
Qed.

End Keys.

Section Mapping.
Context `{GoLib}.

Lemma validate_attribute_mapping_ok value mapping :
  Unmarshal decode_AttributeMapping value zeroAttributeMapping = (mapping, None) ->
  validate_attribute_mapping value = mjoin (map validate_key (map_to_list (Keys mapping))).
Proof. intros Hu. unfold validate_attribute_mapping. rewrite Hu. reflexivity. Qed.

Lemma length_mjoin_map {A B} (f : A -> list B) (l : list A) :
  length (mjoin (map f l)) = sum_list_with (fun x => length (f x)) l.
Proof.
  induction l as [|x l IH]; [reflexivity|].
  change (mjoin (map f (x :: l))) with (f x ++ mjoin (map f l)).
  rewrite length_app, IH. reflexivity.
Qed.

Lemma key_diags_errors entry : Forall (fun d => Severity_ d = Error) (key_diags entry).
Proof.
  unfold key_diags. destruct (decide (nothing_set (snd entry))).
  - constructor; [reflexivity|constructor].
  - apply Forall_forall. intros d Hd. apply list_elem_of_fmap in Hd as (i & -> & _).
    reflexivity.
Qed.

Lemma key_diags_nil entry :
  key_diags entry = [] <-> ~ nothing_set (snd entry) /\ "" ∉ Names (snd entry).
Proof.
  unfold key_diags. destruct (decide (nothing_set (snd entry))) as [Hn|Hn].
  - split; [discriminate|]. intros [Hc _]. contradiction.
  - rewrite <- empty_positions_nil. split.
    + intros Hm. split; [exact Hn|]. destruct (empty_positions _); [reflexivity|discriminate].
    + intros [_ ->]. reflexivity.
Qed.

Lemma validate_attribute_mapping_read value ms entries :
  parse value = Parsed (JObject ms) -> mapping_shape (JObject ms) = true ->
  field_values ["keys"] 0 ms = [JObject entries] ->
  Forall (fun e => names_once (snd e)) entries ->
  Unmarshal decode_AttributeMapping value zeroAttributeMapping
  = ({| Keys := keys_read entries |}, None)
  /\ validate_attribute_mapping value
     = mjoin (map key_diags (map_to_list (keys_read entries))).
Proof.
  intros Hp Hs Hk Honce. pose proof (Unmarshal_AttributeMapping value) as Hu.
  rewrite Hp, Hs in Hu. destruct Hu as [Herr Hkeys].
  specialize (Hkeys ms entries eq_refl Hk Honce).
  assert (Heq : Unmarshal decode_AttributeMapping value zeroAttributeMapping
                = ({| Keys := keys_read entries |}, None)).
  { destruct (Unmarshal decode_AttributeMapping value zeroAttributeMapping) as [[k] e].
    cbn [fst snd Keys] in *. subst. reflexivity. }
  split; [exact Heq|].
  rewrite (validate_attribute_mapping_ok value _ Heq). cbn [Keys].
  f_equal. apply map_ext. intros entry. apply validate_key_spec.
Qed.

(** C5.  The text is decoded first.  A text that is not JSON, and JSON
    that is not of the shape of an attribute mapping, get the one error
    that says the value must be valid JSON.  For JSON of that shape, read
    here off the text itself where the object gives [keys] once and each
    key [names] at most once: a key that gives no name (or an empty one),
    no names (or an empty list) and no default (or [null]) produces exactly
    one error; any other key produces exactly one error for each position
    of its names that holds the empty string or [null]; the validator
    returns the errors of all keys together, in whatever order Go walks
    the map, so their number is the sum over the keys, and it returns
    none exactly when every key has something set and no empty name.
    Whatever the text, a mapping that decodes gets the errors of its keys,
    and every diagnostic is an error. *)
Theorem attribute_mapping_validation (value : string) :
  ((forall v, parse value <> Parsed v) ->
     validate_attribute_mapping value = [invalid_json_diag value SyntaxError])
  /\ (forall v, parse value = Parsed v -> mapping_shape v = false ->
        validate_attribute_mapping value = [invalid_json_diag value UnmarshalTypeError])
  /\ (forall ms entries,
        parse value = Parsed (JObject ms) -> mapping_shape (JObject ms) = true ->
        field_values ["keys"] 0 ms = [JObject entries] ->
        Forall (fun e => names_once (snd e)) entries ->
        validate_attribute_mapping value
        = mjoin (map key_diags (map_to_list (keys_read entries)))
        /\ (forall order, order ≡ₚ map_to_list (keys_read entries) ->
              mjoin (map key_diags order) ≡ₚ validate_attribute_mapping value)
        /\ length (validate_attribute_mapping value)
           = sum_list_with
               (fun entry => if decide (nothing_set (snd entry)) then 1
                             else length (empty_positions (Names (snd entry))))
               (map_to_list (keys_read entries))
        /\ (validate_attribute_mapping value = [] <->
            forall key a, keys_read entries !! key = Some a ->
                          ~ nothing_set a /\ "" ∉ Names a))
  /\ (forall key a,
        key_diags (key, a)
        = if decide (nothing_set a) then [nothing_set_diag key]
          else map (empty_name_diag key) (empty_positions (Names a)))
  /\ (forall names j, j ∈ empty_positions names <-> names !! j = Some "")
  /\ (forall names, NoDup (empty_positions names))
  /\ (forall mapping,
        Unmarshal decode_AttributeMapping value zeroAttributeMapping = (mapping, None) ->
        (exists v, parse value = Parsed v /\ mapping_shape v = true)
        /\ validate_attribute_mapping value
           = mjoin (map key_diags (map_to_list (Keys mapping))))
  /\ Forall (fun d => Severity_ d = Error) (validate_attribute_mapping value).
Proof.
  assert (Hgen : forall mapping,
             Unmarshal decode_AttributeMapping value zeroAttributeMapping = (mapping, None) ->
             validate_attribute_mapping value
             = mjoin (map key_diags (map_to_list (Keys mapping)))).
  { intros mapping Hu. rewrite (validate_attribute_mapping_ok value mapping Hu).
    f_equal. apply map_ext. intros entry. apply validate_key_spec. }
  repeat match goal with |- _ /\ _ => split end.
  - intros Hp. unfold validate_attribute_mapping, Unmarshal.
    destruct (parse value) as [v| |]; [exfalso; apply (Hp v); reflexivity| |]; reflexivity.
  - intros v Hp Hs. pose proof (Unmarshal_AttributeMapping value) as Hu.
    rewrite Hp, Hs in Hu. destruct Hu as [Herr _].
    unfold validate_attribute_mapping.
    destruct (Unmarshal decode_AttributeMapping value zeroAttributeMapping) as [am e].
    cbn [snd] in Herr. subst e. reflexivity.
  - intros ms entries Hp Hs Hk Honce.
    destruct (validate_attribute_mapping_read value ms entries Hp Hs Hk Honce)
      as [_ Hv].
    rewrite Hv. repeat match goal with |- _ /\ _ => split end.
    + reflexivity.
    + intros order Ho. rewrite Ho. reflexivity.
    + rewrite length_mjoin_map. clear Hv.
      induction (map_to_list (keys_read entries)) as [|entry l IH]; [reflexivity|].
      cbn [sum_list_with]. rewrite IH. f_equal.
      unfold key_diags. destruct (decide (nothing_set (snd entry))); [reflexivity|].
      apply length_map.
    + split.
      * intros Hnil key a Hka. apply mjoin_nil in Hnil.
        rewrite Forall_forall in Hnil.
        apply (key_diags_nil (key, a)). apply Hnil.
        apply list_elem_of_fmap. exists (key, a). split; [reflexivity|].
        apply elem_of_map_to_list. exact Hka.
      * intros Hall. apply mjoin_nil. apply Forall_forall. intros ds Hds.
        apply list_elem_of_fmap in Hds as ([key a] & -> & Hin).
        apply key_diags_nil. apply (Hall key). apply elem_of_map_to_list. exact Hin.
  - intros key a. reflexivity.
  - apply empty_positions_spec.
  - intros names. apply empty_positions_from_NoDup.
  - intros mapping Hu. split; [|apply Hgen; exact Hu].
    pose proof (Unmarshal_AttributeMapping value) as Hs.
    destruct (parse value) as [v| |]; [|rewrite Hs in Hu; discriminate Hu..].
    exists v. split; [reflexivity|]. destruct Hs as [Hs _]. rewrite Hu in Hs.
    cbn [snd] in Hs. destruct (mapping_shape v); [reflexivity|discriminate Hs].
  - unfold validate_attribute_mapping.
    destruct (Unmarshal decode_AttributeMapping value zeroAttributeMapping)
      as [mapping [err|]].
    + constructor; [reflexivity|constructor].
    + apply Forall_forall. intros d Hd.
      apply list_elem_of_join in Hd as (ds & Hd & Hds).
      apply list_elem_of_fmap in Hds as (entry & -> & _).
      rewrite validate_key_spec in Hd.
      pose proof (key_diags_errors entry) as Herr.
      rewrite Forall_forall in Herr. exact (Herr d Hd).
Qed.
End Mapping.

(** A member given again is decoded into the slice the first has left: an
    element of the older array that lies beyond a shorter one comes back
    under a [null] of a third. *)
Example repeated_names :
  fst (decode_Attribute
         (JObject [("names", JArray [JString "a"; JString "b"]);
                   ("names", JArray [JString "c"]);
                   ("names", JArray [JNull; JNull])])
         zeroAttribute)
  = {| Name := ""; Names := ["c"; "b"]; Default := None |}.
Proof. reflexivity. Qed.

Lemma attribute_mapping_validation_witness :
  exists ms entries,
    parse mapping_example = Parsed (JObject ms)
    /\ field_values ["keys"] 0 ms = [JObject entries]
    /\ @validate_attribute_mapping sample_lib mapping_example
       = mjoin (map (@key_diags sample_lib) (map_to_list (keys_read entries)))
    /\ mjoin (map (@key_diags sample_lib) (map_to_list (keys_read entries)))
       ≡ₚ [@nothing_set_diag sample_lib "b"; @empty_name_diag sample_lib "c" 1;
           @empty_name_diag sample_lib "c" 2].
Proof.
  exists [("keys", JObject [("a", JObject [("name", JString "mail")]);
                            ("b", JObject []);
                            ("c", JObject [("names", JArray [JString "x"; JString ""; JNull])])])],
         [("a", JObject [("name", JString "mail")]);
          ("b", JObject []);
          ("c", JObject [("names", JArray [JString "x"; JString ""; JNull])])].
  assert (Hp : parse mapping_example
               = Parsed (JObject [("keys", JObject [("a", JObject [("name", JString "mail")]);
                            ("b", JObject []);
                            ("c", JObject [("names", JArray [JString "x"; JString ""; JNull])])])]))
    by (vm_compute; reflexivity).
  split; [exact Hp|]. split; [reflexivity|]. split.
  - refine (proj1 (proj1 (proj2 (proj2 (@attribute_mapping_validation sample_lib mapping_example)))
                     _ _ Hp eq_refl eq_refl _)).
    repeat constructor.
  - vm_compute. symmetry. apply (Permutation_cons_append [_; _]).
Defined.

(** C10.  The validator of [attribute_mapping] decodes the value without
    first testing that it is not empty, so the empty string always gets the
    one error that says it must be valid JSON, and never passes; the
    requests of Create and Update are built without decoding an empty
    value. *)
Theorem empty_attribute_mapping `{GoLib} :
  validate_attribute_mapping "" = [invalid_json_diag "" SyntaxError]
  /\ validate_attribute_mapping "" <> []
  /\ (forall d, attribute_mapping (current d) = "" ->
        exists template, create_template d = inr template
                         /\ req_AttributeMapping template = zeroAttributeMapping)
  /\ (forall d, attribute_mapping (current d) = "" ->
        exists template, update_template d = inr template
                         /\ req_AttributeMapping template = zeroAttributeMapping).
Proof.
  assert (Hv : validate_attribute_mapping "" = [invalid_json_diag "" SyntaxError])
    by reflexivity.
  repeat apply conj.
  - exact Hv.
  - rewrite Hv. discriminate.
  - intros d Hd. unfold create_template, GetOk_string, GetOk_domains. rewrite Hd.
    cbn [String.eqb negb andb].
    repeat match goal with
           | |- context [if ?b then _ else _] => destruct b
           end; eexists; (split; [reflexivity|reflexivity]).
  - intros d Hd. unfold update_template, GetOk_string. rewrite Hd.
    cbn [String.eqb negb andb]. rewrite fold_set_Domains.
    destruct (Set_List (domains (current d)));
      repeat match goal with
             | |- context [if ?b then _ else _] => destruct b
             end; eexists; (split; [reflexivity|reflexivity]).
Qed.

End AttributeMappingValidation.

(** ** C2 and C6: the request of an update *)

Module UpdateRequest.
Import Utf8 Regexp Json Adminclient Gotrue Spec Sample.
Import AttributeMappingValidation.

(** The fields of the request [resourceIdentityProviderUpdate] sends. *)
Lemma update_template_fields d template :
  update_template d = inr template ->
  req_MetadataURL template
  = (if HasChange metadata_url d then metadata_url (current d) else "")
  /\ req_MetadataXML template
     = (if HasChange metadata_url d then ""
        else if HasChange metadata_xml d then metadata_xml (current d) else "")
  /\ req_Domains template
     = (if HasChange domains d
        then fold_left append (Set_List (domains (current d))) None else None)
  /\ req_ID template = "" /\ req_ResourceID template = "" /\ req_Type template = "".
Proof.
  unfold update_template. rewrite fold_set_Domains.
  intros Ht.
  destruct (HasChange metadata_url d), (HasChange metadata_xml d),
    (HasChange domains d), (Set_List (domains (current d)));
    repeat case_match; simplify_eq; cbn; repeat apply conj; reflexivity.
Qed.

(** C2, as the code has it.  In the request of an update the two checks are
    an if and an else-if, the address first: when [metadata_url] changed
    the request carries its new value and no metadata XML, whether or not
    [metadata_xml] changed too; when only [metadata_xml] changed it carries
    that and no address; so no request carries both. *)
Theorem update_metadata_exclusive d template :
  update_template d = inr template ->
  (HasChange metadata_url d = true ->
     req_MetadataURL template = metadata_url (current d)
     /\ req_MetadataXML template = "")
  /\ (HasChange metadata_url d = false -> HasChange metadata_xml d = true ->
        req_MetadataXML template = metadata_xml (current d)
        /\ req_MetadataURL template = "")
  /\ (req_MetadataURL template = "" \/ req_MetadataXML template = "").
Proof.
  intros Ht. apply update_template_fields in Ht as (Hurl & Hxml & _).
  rewrite Hurl, Hxml.
  destruct (HasChange metadata_url d), (HasChange metadata_xml d);
    repeat apply conj; intros; try discriminate; auto.
Qed.

Lemma update_metadata_counterexample :
  ~ exists d template,
      HasChange metadata_url d = true /\ HasChange metadata_xml d = true
      /\ update_template d = inr template
      /\ req_MetadataURL template <> "" /\ req_MetadataXML template <> "".
Proof.
  intros (d & template & Hurl & _ & Ht & _ & Hxml).
  apply update_template_fields in Ht as (_ & Hx & _).
  rewrite Hurl in Hx. contradiction.
Qed.

Lemma update_metadata_exclusive_witness :
  update_template both_changed
  = inr (set_MetadataURL "https://idp.example/saml" zeroRequest)
  /\ (req_MetadataURL (set_MetadataURL "https://idp.example/saml" zeroRequest) = ""
      \/ req_MetadataXML (set_MetadataURL "https://idp.example/saml" zeroRequest) = "").
Proof.
  assert (Ht : update_template both_changed
               = inr (set_MetadataURL "https://idp.example/saml" zeroRequest))
    by (vm_compute; reflexivity).
  split; [exact Ht|].
  exact (proj2 (proj2 (update_metadata_exclusive both_changed _ Ht))).
Defined.

Section Update.
Context `{GoLib}.

Lemma member_names_request template :
  req_Domains template = None ->
  "domains" ∉ member_names (Marshal_IdentityProviderRequest template).
Proof.
  intros Hd. unfold Marshal_IdentityProviderRequest, member_names, member_if.
  rewrite Hd.
  destruct (nonempty (req_ID template)), (nonempty (req_ResourceID template)),
    (nonempty (req_Type template)), (nonempty (req_MetadataXML template)),
    (nonempty (req_MetadataURL template)); cbn;
    rewrite ?not_elem_of_cons; repeat split; try discriminate; apply not_elem_of_nil.
Qed.

(** C6.  When the domain set of the desired state equals the stored one,
    the request of an update has a nil domain list, which is not an empty
    list, and its encoding has no member [domains]. *)
Theorem update_unchanged_domains d template :
  update_template d = inr template ->
  domains (prior d) = domains (current d) ->
  req_Domains template = None
  /\ req_Domains template <> Some []
  /\ "domains" ∉ member_names (Marshal_IdentityProviderRequest template).
Proof.
  intros Ht Hsame. apply update_template_fields in Ht as (_ & _ & Hdom & _).
  unfold HasChange in Hdom. rewrite bool_decide_eq_true_2 in Hdom by exact Hsame.
  cbn [negb] in Hdom. repeat apply conj.
  - exact Hdom.
  - rewrite Hdom. discriminate.
  - apply member_names_request. exact Hdom.
Qed.

End Update.

Lemma update_unchanged_domains_witness :
  update_template same_domains
  = inr (set_MetadataURL "https://idp.example/saml2" zeroRequest)
  /\ domains (prior same_domains) = domains (current same_domains)
  /\ req_Domains (set_MetadataURL "https://idp.example/saml2" zeroRequest) = None.
Proof.
  assert (Ht : update_template same_domains
               = inr (set_MetadataURL "https://idp.example/saml2" zeroRequest))
    by (vm_compute; reflexivity).
  split; [exact Ht|]. split; [reflexivity|].
  exact (proj1 (@update_unchanged_domains sample_lib same_domains _ Ht eq_refl)).
Defined.

End UpdateRequest.

(** ** C7 and C4: deletion, and the validator of the address *)

Module DeleteAndAddress.
Import Utf8 Regexp Json Adminclient Gotrue Spec Sample.
Import ApiError.

Section Delete.
Context `{GoLib}.

Lemma send_transport_error c req expected op h err :
  (forall req hdr, fst (Do (HTTPClient_ c) req hdr) = inl err) ->
  fst (send c req expected op h) = inl err.
Proof.
  intros Hdo. unfold send, HTTPClient_Do.
  specialize (Hdo req (h !!! RequestHeader req)).
  destruct (Do (HTTPClient_ c) req (h !!! RequestHeader req)) as [r m].
  cbn [fst] in Hdo. subst r. reflexivity.
Qed.

(** C7.  When the client's Delete succeeds, the record's identifier is
    cleared and nothing else in it changes; when it returns an error, the
    record is returned as it was, with the error as diagnostic.  The client
    returns an error whenever the transport fails and whenever the status
    is not 200. *)
Theorem delete_reconciliation (d : ResourceData) (m : Client) (h : store) :
  (fst (DeleteIdentityProvider m (Id d) h) = None ->
     fst (resourceIdentityProviderDelete d m h) = (SetId "" d, [])
     /\ Id (fst (fst (resourceIdentityProviderDelete d m h))) = "")
  /\ (forall err, fst (DeleteIdentityProvider m (Id d) h) = Some err ->
        fst (resourceIdentityProviderDelete d m h) = (d, FromErr (error_text err)))
  /\ (forall err, NewRequest_error "DELETE"
                    (provider_url m ("/admin/sso/providers/" ++ Id d)) = None ->
        (forall req hdr, fst (Do (HTTPClient_ m) req hdr) = inl err) ->
        fst (DeleteIdentityProvider m (Id d) h) = Some err)
  /\ (forall res, NewRequest_error "DELETE"
                    (provider_url m ("/admin/sso/providers/" ++ Id d)) = None ->
        (forall req hdr, fst (Do (HTTPClient_ m) req hdr) = inr res) ->
        StatusCode res <> StatusOK ->
        is_Some (fst (DeleteIdentityProvider m (Id d) h))).
Proof.
  repeat apply conj.
  - intros Hdel. unfold resourceIdentityProviderDelete.
    destruct (DeleteIdentityProvider m (Id d) h) as [[err|] h']; [discriminate|].
    split; reflexivity.
  - intros err Hdel. unfold resourceIdentityProviderDelete.
    destruct (DeleteIdentityProvider m (Id d) h) as [[err'|] h']; [|discriminate].
    cbn [fst] in Hdel. injection Hdel as ->. reflexivity.
  - intros err Hreq Hdo. unfold DeleteIdentityProvider. rewrite Hreq.
    destruct (Header_Clone (Headers m) h) as [hdr h1].
    match goal with
    | |- context [send m ?req ?e ?op h1] =>
      pose proof (send_transport_error m req e op h1 err Hdo) as Hs;
        destruct (send m req e op h1) as [[err'|r] h2]
    end; cbn [fst] in *; congruence.
  - intros res Hreq Hdo Hst. unfold DeleteIdentityProvider. rewrite Hreq.
    destruct (Header_Clone (Headers m) h) as [hdr h1].
    match goal with
    | |- context [send m ?req ?e ?op h1] =>
      pose proof (send_wrong_status m req e op h1 res Hdo Hst) as Hs;
        destruct (send m req e op h1) as [[err'|r] h2]
    end; cbn [fst] in *; [eexists; reflexivity|discriminate].
Qed.

(** C4.  On an address that is not empty and that [url.ParseRequestURI]
    rejects, the validator of [url] does not return its diagnostics: after
    appending the error it reads the scheme through the nil URL, and
    panics. *)
Theorem validate_url_unparsable (rawURL err : string) :
  rawURL <> "" -> ParseRequestURI rawURL = inl err ->
  validate_url rawURL = Panicked.
Proof.
  intros Hne Hp. unfold validate_url.
  destruct (String.eqb_spec rawURL ""); [contradiction|].
  rewrite Hp. reflexivity.
Qed.

(** The other cases of the validator of the address. *)
Lemma validate_url_cases (rawURL : string) :
  validate_url "" = Returned [{| Severity_ := Error; Summary := "GoTrue URL is empty";
                                 Detail := "" |}]
  /\ (forall u, rawURL <> "" -> ParseRequestURI rawURL = inr u ->
        exists diags, validate_url rawURL = Returned diags
          /\ ((Scheme u <> "http" /\ Scheme u <> "https") ->
              {| Severity_ := Error;
                 Summary := "GoTrue URL is not HTTP(S): " ++ Quote (Scheme u);
                 Detail := "" |} ∈ diags)
          /\ (Scheme u = "http" ->
              Regexp.MatchString loopbackPattern (Host u) = false ->
              diags = [{| Severity_ := Warning;
                          Summary := "GoTrue URL does not use HTTPS";
                          Detail := "Communication with GoTrue should occur over HTTPS whenever possible" |}])).
Proof.
  split; [reflexivity|].
  intros u Hne Hp. unfold validate_url.
  destruct (String.eqb_spec rawURL ""); [contradiction|].
  rewrite Hp. eexists. split; [reflexivity|]. split.
  - intros [Hh Hs].
    destruct (String.eqb_spec (Scheme u) "http"); [contradiction|].
    destruct (String.eqb_spec (Scheme u) "https"); [contradiction|].
    cbn [negb andb app].
    destruct (negb (Regexp.MatchString loopbackPattern (Host u)));
      apply elem_of_cons; left; reflexivity.
  - intros Hs Hl. rewrite Hs, Hl. reflexivity.
Qed.

End Delete.

(** [providerConfigure] warns when no [Authorization] header is configured,
    and panics on an address that does not parse. *)
Example providerConfigure_examples :
  (exists c h,
      @providerConfigure sample_lib
        {| url := "http://localhost:9999"; headers := ∅ |} ∅
      = Returned (c, [{| Severity_ := Warning;
                         Summary := "No Authorization header, requests may fail";
                         Detail := "There was no Authorization header configured, requests may fail (depending on setup)" |}], h))
  /\ (exists c h,
        @providerConfigure sample_lib
          {| url := "http://localhost:9999";
             headers := {[ "Authorization" := "Bearer token" ]} |} ∅
        = Returned (c, [], h))
  /\ @providerConfigure sample_lib {| url := "example.com"; headers := ∅ |} ∅
     = Panicked.
Proof.
  repeat apply conj.
  - eexists _, _. vm_compute. reflexivity.
  - eexists _, _. vm_compute. reflexivity.
  - vm_compute. reflexivity.
Qed.

(** The validator on addresses that parse: a scheme that is neither http
    nor https is an error; http to a host that is not loopback is a warning
    and no error; https, and http to a loopback host, pass.  The dots of
    the loopback pattern are not escaped, so a host such as [127a0b0c1]
    counts as loopback. *)
Example validate_url_examples :
  @validate_url sample_lib "ftp://example.com"
  = Returned [{| Severity_ := Error;
                 Summary := "GoTrue URL is not HTTP(S): " ++ dq ++ "ftp" ++ dq;
                 Detail := "" |}]
  /\ @validate_url sample_lib "http://example.com"
     = Returned [{| Severity_ := Warning;
                    Summary := "GoTrue URL does not use HTTPS";
                    Detail := "Communication with GoTrue should occur over HTTPS whenever possible" |}]
  /\ @validate_url sample_lib "https://example.com" = Returned []
  /\ @validate_url sample_lib "http://localhost:9999" = Returned []
  /\ @validate_url sample_lib "http://127.0.0.1:9999" = Returned []
  /\ @validate_url sample_lib "http://127a0b0c1" = Returned [].
Proof. repeat apply conj; vm_compute; reflexivity. Qed.

Lemma validate_url_unparsable_witness :
  "example.com" <> ""
  /\ @ParseRequestURI sample_lib "example.com"
     = inl (("parse " ++ dq ++ "example.com" ++ dq ++ ": invalid URI for request")%string)
  /\ @validate_url sample_lib "example.com" = Panicked.
Proof.
  split; [discriminate|]. split; [reflexivity|].
  apply (@validate_url_unparsable sample_lib "example.com"
           ("parse " ++ dq ++ "example.com" ++ dq ++ ": invalid URI for request")%string);
    [discriminate|reflexivity].
Defined.

Lemma delete_reconciliation_witness :
  fst (@DeleteIdentityProvider sample_lib
         (client_of (answering {| StatusCode := 200; Body := inl "" |})) "abc" store0)
  = None
  /\ Id (fst (fst (@resourceIdentityProviderDelete sample_lib record0
                     (client_of (answering {| StatusCode := 200; Body := inl "" |}))
                     store0))) = "".
Proof.
  assert (Hd : fst (@DeleteIdentityProvider sample_lib
                      (client_of (answering {| StatusCode := 200; Body := inl "" |}))
                      (Id record0) store0) = None) by (vm_compute; reflexivity).
  split; [exact Hd|].
  exact (proj2 (proj1 (@delete_reconciliation sample_lib record0 _ store0) Hd)).
Defined.

End DeleteAndAddress.

(** ** C8: the domains written to the record *)

Module Synchronisation.
Import Utf8 Regexp Json Adminclient Gotrue Spec Sample Cases.

Lemma insert_sorted_perm x l : insert_sorted x l ≡ₚ x :: l.
Proof.
  induction l as [|y l IH]; [reflexivity|]. cbn [insert_sorted].
  destruct (String.leb x y); [reflexivity|].
  rewrite IH. apply Permutation_swap.
Qed.

Lemma sort_Strings_perm l : sort_Strings l ≡ₚ l.
Proof.
  induction l as [|x l IH]; [reflexivity|].
  unfold sort_Strings in *. cbn [fold_right].
  rewrite insert_sorted_perm, IH. reflexivity.
Qed.

Lemma insert_sorted_HdRel a x l :
  string_le a x -> HdRel string_le a l -> HdRel string_le a (insert_sorted x l).
Proof.
  intros Hax Hal. destruct l as [|y l]; cbn [insert_sorted].
  - constructor. exact Hax.
  - destruct (String.leb x y); constructor; [exact Hax|].
    inversion Hal; assumption.
Qed.

Lemma insert_sorted_Sorted x l :
  Sorted string_le l -> Sorted string_le (insert_sorted x l).
Proof.
  induction 1 as [|y l Hs IH Hhd]; cbn [insert_sorted].
  - repeat constructor.
  - destruct (String.leb x y) eqn:Hxy.
    + constructor; [constructor; assumption|]. constructor. exact Hxy.
    + constructor; [exact IH|]. apply insert_sorted_HdRel; [|exact Hhd].
      destruct (String.leb_total x y) as [Hle|Hle]; [congruence|exact Hle].
Qed.

Lemma sort_Strings_Sorted l : Sorted string_le (sort_Strings l).
Proof.
  induction l as [|x l IH]; [constructor|].
  unfold sort_Strings in *. cbn [fold_right]. apply insert_sorted_Sorted. exact IH.
Qed.

Lemma collect_domains ds : forall acc,
  fold_left (fun domains domain => domains ++ [domain_Domain domain]) ds acc
  = acc ++ map domain_Domain ds.
Proof.
  induction ds as [|d ds IH]; intros acc; cbn [fold_left map].
  - rewrite app_nil_r. reflexivity.
  - rewrite IH, <- app_assoc. reflexivity.
Qed.

(** The order of strings is a total order, so a list has one sorted
    arrangement: what [sort.Strings] returns does not depend on how it
    sorts. *)
Lemma ascii_compare_refl a : Ascii.compare a a = Eq.
Proof. unfold Ascii.compare. apply N.compare_refl. Qed.

Lemma compare_refl s : String.compare s s = Eq.
Proof.
  induction s as [|a s IH]; [reflexivity|]. cbn [String.compare].
  rewrite ascii_compare_refl. exact IH.
Qed.

Lemma compare_lt_trans a : forall b c,
  String.compare a b = Lt -> String.compare b c = Lt -> String.compare a c = Lt.
Proof.
  induction a as [|a0 a IH]; intros [|b0 b] [|c0 c]; cbn [String.compare];
    try discriminate; try reflexivity.
  destruct (Ascii.compare a0 b0) eqn:Hab; try discriminate;
    destruct (Ascii.compare b0 c0) eqn:Hbc; try discriminate; intros H1 H2.
  - apply Ascii.compare_eq_iff in Hab, Hbc. subst.
    rewrite ascii_compare_refl. eapply IH; eassumption.
  - apply Ascii.compare_eq_iff in Hab. subst. rewrite Hbc. reflexivity.
  - apply Ascii.compare_eq_iff in Hbc. subst. rewrite Hab. reflexivity.
  - unfold Ascii.compare in *. rewrite N.compare_lt_iff in Hab, Hbc.
    assert (Hac : (N_of_ascii a0 ?= N_of_ascii c0)%N = Lt)
      by (apply N.compare_lt_iff; lia).
    rewrite Hac. reflexivity.
Qed.

Lemma string_le_trans a b c : string_le a b -> string_le b c -> string_le a c.
Proof.
  unfold string_le, String.leb. intros Hab Hbc.
  destruct (String.compare a b) eqn:H1; try discriminate.
  - apply String.compare_eq_iff in H1. subst. exact Hbc.
  - destruct (String.compare b c) eqn:H2; try discriminate.
    + apply String.compare_eq_iff in H2. subst. rewrite H1. reflexivity.
    + rewrite (compare_lt_trans a b c H1 H2). reflexivity.
Qed.

Lemma Sorted_head_least x l y :
  Sorted string_le (x :: l) -> y ∈ x :: l -> string_le x y.
Proof.
  intros Hs Hy. apply Sorted_StronglySorted in Hs; [|exact string_le_trans].
  apply StronglySorted_inv in Hs as [_ Hall].
  apply elem_of_cons in Hy as [->|Hy].
  - unfold string_le, String.leb. rewrite compare_refl. reflexivity.
  - rewrite List.Forall_forall in Hall. apply Hall, list_elem_of_In, Hy.
Qed.

Lemma sorted_unique l1 : forall l2,
  Sorted string_le l1 -> Sorted string_le l2 -> l1 ≡ₚ l2 -> l1 = l2.
Proof.
  induction l1 as [|x l1 IH]; intros l2 H1 H2 Hp.
  - apply Permutation_nil_l in Hp. congruence.
  - destruct l2 as [|y l2]; [apply Permutation_nil_r in Hp; discriminate|].
    assert (x = y) as <-.
    { apply String.leb_antisym.
      - apply (Sorted_head_least x l1 y H1). rewrite Hp. apply elem_of_cons. auto.
      - apply (Sorted_head_least y l2 x H2). rewrite <- Hp. apply elem_of_cons. auto. }
    f_equal. apply IH.
    + inversion H1; assumption.
    + inversion H2; assumption.
    + apply Permutation_cons_inv in Hp. exact Hp.
Qed.

Lemma sort_Strings_unique l sorted :
  Sorted string_le sorted -> sorted ≡ₚ l -> sorted = sort_Strings l.
Proof.
  intros Hs Hp. apply sorted_unique; [exact Hs|apply sort_Strings_Sorted|].
  rewrite Hp, sort_Strings_perm. reflexivity.
Qed.


Lemma sorted_domains_perm provider :
  sorted_domains provider ≡ₚ map domain_Domain (Domains provider).
Proof.
  unfold sorted_domains. rewrite sort_Strings_perm, collect_domains. reflexivity.
Qed.

Lemma string_le_refl a : string_le a a.
Proof. unfold string_le, String.leb. rewrite compare_refl. reflexivity. Qed.

(** In a sorted list, the first string with a property is the least one
    with it. *)
Lemma head_filter_sorted (P : string -> Prop) `{forall x, Decision (P x)} l y :
  Sorted string_le l ->
  head (filter P l) = Some y <->
  y ∈ l /\ P y /\ (forall x, x ∈ l -> P x -> string_le y x).
Proof.
  intros Hs. apply Sorted_StronglySorted in Hs; [|exact string_le_trans].
  induction Hs as [|a l Hs IH Hall].
  - rewrite filter_nil. cbn. split; [discriminate|].
    intros [Hy _]. apply elem_of_nil in Hy. contradiction.
  - rewrite List.Forall_forall in Hall.
    rewrite filter_cons. destruct (decide (P a)) as [Ha|Ha].
    + cbn [head]. split.
      * intros [= <-]. split; [apply elem_of_cons; auto|]. split; [exact Ha|].
        intros x Hx _. apply elem_of_cons in Hx as [->|Hx].
        -- apply string_le_refl.
        -- apply Hall, list_elem_of_In, Hx.
      * intros (Hy & HPy & Hmin). f_equal.
        apply elem_of_cons in Hy as [->|Hy]; [reflexivity|].
        apply String.leb_antisym.
        -- apply Hall, list_elem_of_In, Hy.
        -- apply Hmin; [apply elem_of_cons; auto|exact Ha].
    + rewrite IH. split.
      * intros (Hy & HPy & Hmin). split; [apply elem_of_cons; auto|].
        split; [exact HPy|]. intros x Hx HPx.
        apply elem_of_cons in Hx as [->|Hx]; [contradiction|]. auto.
      * intros (Hy & HPy & Hmin).
        apply elem_of_cons in Hy as [->|Hy]; [contradiction|].
        split; [exact Hy|]. split; [exact HPy|].
        intros x Hx HPx. apply Hmin; [apply elem_of_cons; auto|exact HPx].
Qed.

(** What a set holds under a code once the items of a list are added:
    what it held, or else the first item of the list with that code. *)
Lemma fold_Set_Add_lookup l : forall (s : gmap string string) code,
  fold_left (fun s domain => Set_Add domain s) l s !! code
  = match s !! code with
    | Some y => Some y
    | None => head (filter (fun x => Set_hash x = code) l)
    end.
Proof.
  induction l as [|x l IH]; intros s code; cbn [fold_left].
  - rewrite filter_nil. destruct (s !! code); reflexivity.
  - rewrite IH, filter_cons. unfold Set_Add.
    destruct (s !! Set_hash x) as [z|] eqn:Hx.
    + destruct (s !! code) as [y|] eqn:Hc; [reflexivity|].
      destruct (decide (Set_hash x = code)) as [<-|_]; [congruence|reflexivity].
    + destruct (decide (Set_hash x = code)) as [<-|Hne].
      * rewrite lookup_insert_eq, Hx. reflexivity.
      * rewrite lookup_insert_ne by exact Hne. reflexivity.
Qed.

Lemma domainsSet_lookup provider code y :
  domainsSet provider !! code = Some y <->
  y ∈ map domain_Domain (Domains provider) /\ Set_hash y = code
  /\ (forall x, x ∈ map domain_Domain (Domains provider) ->
                Set_hash x = code -> string_le y x).
Proof.
  unfold domainsSet, NewSet. rewrite fold_Set_Add_lookup, lookup_empty.
  rewrite (head_filter_sorted (fun x => Set_hash x = code))
    by apply sort_Strings_Sorted.
  assert (Hmem : forall x, x ∈ sorted_domains provider
                           <-> x ∈ map domain_Domain (Domains provider))
    by (intros x; rewrite sorted_domains_perm; reflexivity).
  split.
  - intros (Hy & Hc & Hmin). split; [apply Hmem; exact Hy|].
    split; [exact Hc|]. intros x Hx. apply Hmin, Hmem, Hx.
  - intros (Hy & Hc & Hmin). split; [apply Hmem; exact Hy|].
    split; [exact Hc|]. intros x Hx. apply Hmin, Hmem, Hx.
Qed.

(** The items [Set.List] enumerates. *)
Lemma Set_List_elem (s : gmap string string) y :
  y ∈ Set_List s <-> exists code, s !! code = Some y.
Proof.
  unfold Set_List. rewrite list_elem_of_omap. split.
  - intros (code & _ & Hc). exists code. exact Hc.
  - intros (code & Hc). exists code. split; [|exact Hc].
    rewrite sort_Strings_perm. apply list_elem_of_fmap.
    exists (code, y). split; [reflexivity|]. apply elem_of_map_to_list. exact Hc.
Qed.

Lemma NoDup_omap_inj {A B} (f : A -> option B) (l : list A) :
  NoDup l ->
  (forall a1 a2 b, f a1 = Some b -> f a2 = Some b -> a1 = a2) ->
  NoDup (omap f l).
Proof.
  intros Hl Hinj. induction Hl as [|a l Ha Hl IH]; [constructor|].
  cbn [omap list_omap]. destruct (f a) as [b|] eqn:Hb; [|exact IH].
  constructor; [|exact IH].
  rewrite list_elem_of_omap. intros (a' & Ha' & Hb').
  rewrite (Hinj a a' b Hb Hb') in Ha. contradiction.
Qed.

(** A set whose items sit under their own codes lists no item twice. *)
Lemma Set_List_NoDup (s : gmap string string) :
  (forall code y, s !! code = Some y -> Set_hash y = code) ->
  NoDup (Set_List s).
Proof.
  intros Hwf. unfold Set_List. apply NoDup_omap_inj.
  - rewrite sort_Strings_perm. apply NoDup_fst_map_to_list.
  - intros c1 c2 y H1 H2. rewrite <- (Hwf c1 y H1), <- (Hwf c2 y H2). reflexivity.
Qed.

(** The codes of the items [Set.List] enumerates are the keys of the set
    in increasing order. *)
Lemma omap_lookup_codes (s : gmap string string) (ks : list string) :
  (forall code y, s !! code = Some y -> Set_hash y = code) ->
  Forall (fun k => is_Some (s !! k)) ks ->
  map Set_hash (omap (fun code => s !! code) ks) = ks.
Proof.
  intros Hwf. induction 1 as [|k ks [y Hy] _ IH]; [reflexivity|].
  cbn [omap list_omap]. rewrite Hy. cbn [map]. cbn in IH. rewrite IH.
  rewrite (Hwf k y Hy). reflexivity.
Qed.

Lemma Set_List_codes (s : gmap string string) :
  (forall code y, s !! code = Some y -> Set_hash y = code) ->
  map Set_hash (Set_List s) = sort_Strings (map fst (map_to_list s)).
Proof.
  intros Hwf. unfold Set_List. apply omap_lookup_codes; [exact Hwf|].
  apply Forall_forall. intros k Hk. rewrite sort_Strings_perm in Hk.
  apply list_elem_of_fmap in Hk as ([k' y] & -> & Hin).
  apply elem_of_map_to_list in Hin. exists y. exact Hin.
Qed.

Lemma domainsSet_represents provider y :
  y ∈ map domain_Domain (Domains provider) ->
  exists x, domainsSet provider !! Set_hash y = Some x.
Proof.
  intros Hy. unfold domainsSet, NewSet. rewrite fold_Set_Add_lookup, lookup_empty.
  assert (Hin : y ∈ filter (fun x => Set_hash x = Set_hash y) (sorted_domains provider)).
  { apply list_elem_of_filter. split; [reflexivity|].
    rewrite sorted_domains_perm. exact Hy. }
  destruct (filter _ (sorted_domains provider)) as [|x l]; [apply elem_of_nil in Hin; contradiction|].
  exists x. reflexivity.
Qed.

Lemma domainsSet_strings provider :
  domainsSet provider
  = fold_left (fun s domain => Set_Add domain s)
      (sort_Strings (map domain_Domain (Domains provider))) NewSet.
Proof. unfold domainsSet, sorted_domains. rewrite collect_domains. reflexivity. Qed.

Section Sync.
Context `{GoLib}.

Lemma Set_domains_written provider d :
  domains (current (fst (resourceIdentityProviderSet provider d))) = domainsSet provider.
Proof.
  unfold resourceIdentityProviderSet.
  destruct (nonempty (saml_MetadataURL (SAML_ provider)));
    [|destruct (nonempty (saml_MetadataXML (SAML_ provider)))]; reflexivity.
Qed.

(** C8, as the code has it.  The strings of the response's domains are
    sorted in increasing order and added one by one to a new set, which is
    written to the record.  The set holds, under each hash code, the least
    of the domains with that code: every item is a domain of the response,
    no item is listed twice, and every domain is in the set, itself or a
    lesser domain with its hash code in its place.  The set lists its
    items in the order of their hash codes, which is not the order of the
    strings: for the domains [c.com], [a.com], [b.com], [a.com] it lists
    [a.com], [c.com], [b.com].  Two responses whose domains differ only in
    order or repetition give the same set. *)
Theorem synchronised_domains (provider : IdentityProviderResponse) (d : ResourceData) :
  let written := domains (current (fst (resourceIdentityProviderSet provider d))) in
  let strings := map domain_Domain (Domains provider) in
  written = domainsSet provider
  /\ Sorted string_le (sorted_domains provider)
  /\ sorted_domains provider ≡ₚ strings
  /\ (forall code y,
        written !! code = Some y <->
        y ∈ strings /\ Set_hash y = code
        /\ (forall x, x ∈ strings -> Set_hash x = code -> string_le y x))
  /\ NoDup (Set_List written)
  /\ (forall y, y ∈ Set_List written -> y ∈ strings)
  /\ (forall y, y ∈ strings ->
        exists x, x ∈ Set_List written /\ Set_hash x = Set_hash y /\ string_le x y)
  /\ ((forall x y, x ∈ strings -> y ∈ strings -> Set_hash x = Set_hash y -> x = y) ->
      forall y, y ∈ Set_List written <-> y ∈ strings)
  /\ Sorted string_le (map Set_hash (Set_List written))
  /\ (forall provider' d',
        (forall x, x ∈ map domain_Domain (Domains provider') <-> x ∈ strings) ->
        domains (current (fst (resourceIdentityProviderSet provider' d'))) = written)
  /\ (strings = ["c.com"; "a.com"; "b.com"; "a.com"] ->
      Set_List written = ["a.com"; "c.com"; "b.com"]
      /\ map Set_hash (Set_List written) = ["3110759961"; "3282713977"; "4274656457"])
  /\ (strings = ["plumless"; "buckeroo"] -> Set_List written = ["buckeroo"]).
Proof.
  intros written strings. subst written strings. rewrite Set_domains_written.
  assert (Hwf : forall code y, domainsSet provider !! code = Some y -> Set_hash y = code).
  { intros code y Hy. apply domainsSet_lookup in Hy as (_ & Hc & _). exact Hc. }
  repeat match goal with |- _ /\ _ => split end.
  - reflexivity.
  - apply sort_Strings_Sorted.
  - apply sorted_domains_perm.
  - apply domainsSet_lookup.
  - apply Set_List_NoDup. exact Hwf.
  - intros y Hy. apply Set_List_elem in Hy as (code & Hy).
    apply domainsSet_lookup in Hy as (Hy & _). exact Hy.
  - intros y Hy. destruct (domainsSet_represents provider y Hy) as [x Hx].
    exists x. split; [apply Set_List_elem; eexists; exact Hx|].
    apply domainsSet_lookup in Hx as (_ & Hc & Hmin).
    split; [exact Hc|]. apply Hmin; [exact Hy|reflexivity].
  - intros Hinj y. split.
    + intros Hy. apply Set_List_elem in Hy as (code & Hy).
      apply domainsSet_lookup in Hy as (Hy & _). exact Hy.
    + intros Hy. apply Set_List_elem. exists (Set_hash y).
      apply domainsSet_lookup. split; [exact Hy|]. split; [reflexivity|].
      intros x Hx Hc. rewrite (Hinj x y Hx Hy Hc). apply string_le_refl.
  - rewrite Set_List_codes by exact Hwf. apply sort_Strings_Sorted.
  - intros provider' d' Hsame. rewrite Set_domains_written.
    apply map_eq. intros code. apply option_eq. intros y.
    rewrite !domainsSet_lookup. rewrite Hsame. split.
    + intros (Hy & Hc & Hmin). split; [exact Hy|]. split; [exact Hc|].
      intros x Hx. apply Hmin. apply Hsame. exact Hx.
    + intros (Hy & Hc & Hmin). split; [exact Hy|]. split; [exact Hc|].
      intros x Hx. apply Hmin. apply Hsame. exact Hx.
  - intros Hs. rewrite domainsSet_strings, Hs. split; vm_compute; reflexivity.
  - intros Hs. rewrite domainsSet_strings, Hs. vm_compute. reflexivity.
Qed.

End Sync.

(** C8 as the specification states it fails: the set written for the
    domains [a.com], [b.com], [c.com] lists them as [a.com], [c.com],
    [b.com]. *)
Lemma synchronised_domains_counterexample :
  Set_List (domains (current (fst (@resourceIdentityProviderSet sample_lib
                                     (response_of ["a.com"; "b.com"; "c.com"]) record0))))
  = ["a.com"; "c.com"; "b.com"]
  /\ ~ Sorted string_le
       (Set_List (domains (current (fst (@resourceIdentityProviderSet sample_lib
                                           (response_of ["a.com"; "b.com"; "c.com"])
                                           record0))))).
Proof.
  assert (Hl : Set_List (domains (current (fst (@resourceIdentityProviderSet sample_lib
                                     (response_of ["a.com"; "b.com"; "c.com"]) record0))))
               = ["a.com"; "c.com"; "b.com"]) by (vm_compute; reflexivity).
  split; [exact Hl|]. rewrite Hl. intros Hs.
  apply Sorted_inv in Hs as [Hs _]. apply Sorted_inv in Hs as [_ Hd].
  apply HdRel_inv in Hd. unfold string_le in Hd. vm_compute in Hd. discriminate Hd.
Qed.

(** Two domains with one hash code: the set written holds the lesser. *)
Example colliding_domains :
  Set_List (domainsSet {| ID := "abc"; ResourceID := "";
                          Domains := [{| domain_Domain := "plumless" |};
                                      {| domain_Domain := "buckeroo" |}];
                          SAML_ := {| saml_MetadataXML := ""; saml_MetadataURL := "";
                                      saml_AttributeMapping := zeroAttributeMapping |};
                          CreatedAt := 0%Z; UpdatedAt := 0%Z |})
  = ["buckeroo"].
Proof. vm_compute. reflexivity. Qed.

End Synchronisation.

(** ** C9: the client's headers are never mutated *)

Module HeaderFrame.
Import Utf8 Regexp Json Adminclient Gotrue Spec Sample.

Lemma alloc_fresh m (h : gmap positive (gmap string (list string))) :
  h !! fst (alloc m h) = None /\ snd (alloc m h) = <[fst (alloc m h) := m]> h.
Proof.
  unfold alloc. cbn [fst snd]. split; [|reflexivity].
  apply not_elem_of_dom. apply is_fresh.
Qed.

Section Frame.
Context `{GoLib}.

Lemma Header_Clone_frame l (h : gmap positive (gmap string (list string))) :
  h !! fst (Header_Clone l h) = None
  /\ snd (Header_Clone l h) = <[fst (Header_Clone l h) := h !!! l]> h.
Proof. apply alloc_fresh. Qed.

Lemma Header_Add_insert l key value (h : gmap positive (gmap string (list string))) :
  Header_Add l key value h = <[l := with_header key value (h !!! l)]> h.
Proof. reflexivity. Qed.

Lemma send_store c req expected op (h : gmap positive (gmap string (list string))) :
  exists m, snd (send c req expected op h) = <[RequestHeader req := m]> h.
Proof.
  unfold send, HTTPClient_Do.
  destruct (Do (HTTPClient_ c) req (h !!! RequestHeader req)) as [[err|res] m].
  - exists m. reflexivity.
  - exists m. destruct (bool_decide (StatusCode res ≠ expected)); reflexivity.
Qed.

Lemma send_fst c req expected op (h : gmap positive (gmap string (list string))) :
  match fst (send c req expected op h) with
  | inl err => inl err
  | inr res => decode_provider res
  end = answer expected op (fst (Do (HTTPClient_ c) req (h !!! RequestHeader req))).
Proof.
  unfold send, HTTPClient_Do, answer.
  destruct (Do (HTTPClient_ c) req (h !!! RequestHeader req)) as [[err|res] m];
    cbn [fst]; [reflexivity|].
  destruct (bool_decide (StatusCode res ≠ expected)); reflexivity.
Qed.

Lemma insert_fresh_subseteq (h h' : gmap positive (gmap string (list string))) l m :
  h !! l = None -> h ⊆ h' -> h ⊆ <[l := m]> h'.
Proof. intros Hl Hsub. apply insert_subseteq_r; assumption. Qed.

Lemma Get_frame c id (h : gmap positive (gmap string (list string))) :
  h ⊆ snd (GetIdentityProvider c id h).
Proof.
  unfold GetIdentityProvider.
  destruct (NewRequest_error _ _); [reflexivity|].
  destruct (Header_Clone_frame (Headers c) h) as [Hfresh Hst].
  destruct (Header_Clone (Headers c) h) as [hdr h1]. cbn [fst snd] in *. subst h1.
  match goal with
  | |- context [send c ?req ?e ?op ?h1] =>
    destruct (send_store c req e op h1) as [m Hs];
      destruct (send c req e op h1) as [[err|res] h2]
  end; cbn [fst snd RequestHeader] in *; subst h2;
    repeat apply insert_fresh_subseteq; auto.
Qed.

Lemma Delete_frame c id (h : gmap positive (gmap string (list string))) :
  h ⊆ snd (DeleteIdentityProvider c id h).
Proof.
  unfold DeleteIdentityProvider.
  destruct (NewRequest_error _ _); [reflexivity|].
  destruct (Header_Clone_frame (Headers c) h) as [Hfresh Hst].
  destruct (Header_Clone (Headers c) h) as [hdr h1]. cbn [fst snd] in *. subst h1.
  match goal with
  | |- context [send c ?req ?e ?op ?h1] =>
    destruct (send_store c req e op h1) as [m Hs];
      destruct (send c req e op h1) as [[err|res] h2]
  end; cbn [fst snd RequestHeader] in *; subst h2;
    repeat apply insert_fresh_subseteq; auto.
Qed.

Lemma Create_frame c template (h : gmap positive (gmap string (list string))) :
  h ⊆ snd (CreateIdentityProvider c template h).
Proof.
  unfold CreateIdentityProvider.
  destruct (NewRequest_error _ _); [reflexivity|].
  destruct (Header_Clone_frame (Headers c) h) as [Hfresh Hst].
  destruct (Header_Clone (Headers c) h) as [hdr h1]. cbn [fst snd] in *. subst h1.
  rewrite Header_Add_insert.
  match goal with
  | |- context [send c ?req ?e ?op ?h1] =>
    destruct (send_store c req e op h1) as [m Hs];
      destruct (send c req e op h1) as [[err|res] h2]
  end; cbn [fst snd RequestHeader] in *; subst h2;
    repeat apply insert_fresh_subseteq; auto.
Qed.

Lemma Update_frame c id template (h : gmap positive (gmap string (list string))) :
  h ⊆ snd (UpdateIdentityProvider c id template h).
Proof.
  unfold UpdateIdentityProvider.
  destruct (NewRequest_error _ _); [reflexivity|].
  destruct (Header_Clone_frame (Headers c) h) as [Hfresh Hst].
  destruct (Header_Clone (Headers c) h) as [hdr h1]. cbn [fst snd] in *. subst h1.
  rewrite Header_Add_insert.
  match goal with
  | |- context [send c ?req ?e ?op ?h1] =>
    destruct (send_store c req e op h1) as [m Hs];
      destruct (send c req e op h1) as [[err|res] h2]
  end; cbn [fst snd RequestHeader] in *; subst h2;
    repeat apply insert_fresh_subseteq; auto.
Qed.

(** What the transport is handed by [CreateIdentityProvider]: a request
    whose header map is a new object holding the client's headers and the
    content type. *)
Lemma Create_request c template (h : gmap positive (gmap string (list string))) :
  NewRequest_error "POST" (provider_url c "/admin/sso/providers") = None ->
  h !! fresh (dom h) = None
  /\ fst (CreateIdentityProvider c template h)
     = answer StatusCreated "creating new identity provider"
         (fst (Do (HTTPClient_ c)
                 {| Method := "POST";
                    RequestURL := provider_url c "/admin/sso/providers";
                    RequestHeader := fresh (dom h);
                    RequestBody :=
                      Some (json_text (Marshal_IdentityProviderRequest template)) |}
                 (with_header "Content-Type" "application/json" (h !!! Headers c)))).
Proof.
  intros Hreq. split; [apply not_elem_of_dom, is_fresh|].
  unfold CreateIdentityProvider. rewrite Hreq.
  unfold Header_Clone, alloc. rewrite Header_Add_insert.
  rewrite lookup_total_insert_eq, insert_insert_eq.
  match goal with
  | |- context [send c ?req ?e ?op ?h1] =>
    pose proof (send_fst c req e op h1) as Hs;
      destruct (send c req e op h1) as [[err|res] h2]
  end; cbn [fst RequestHeader] in *; rewrite lookup_total_insert_eq in Hs; exact Hs.
Qed.

Lemma Update_request c id template (h : gmap positive (gmap string (list string))) :
  NewRequest_error "PUT" (provider_url c ("/admin/sso/providers/" ++ id)) = None ->
  h !! fresh (dom h) = None
  /\ fst (UpdateIdentityProvider c id template h)
     = answer StatusOK ("updating identity provider with ID " ++ Quote id)
         (fst (Do (HTTPClient_ c)
                 {| Method := "PUT";
                    RequestURL := provider_url c ("/admin/sso/providers/" ++ id);
                    RequestHeader := fresh (dom h);
                    RequestBody :=
                      Some (json_text (Marshal_IdentityProviderRequest template)) |}
                 (with_header "Content-Type" "application/json" (h !!! Headers c)))).
Proof.
  intros Hreq. split; [apply not_elem_of_dom, is_fresh|].
  unfold UpdateIdentityProvider. rewrite Hreq.
  unfold Header_Clone, alloc. rewrite Header_Add_insert.
  rewrite lookup_total_insert_eq, insert_insert_eq.
  match goal with
  | |- context [send c ?req ?e ?op ?h1] =>
    pose proof (send_fst c req e op h1) as Hs;
      destruct (send c req e op h1) as [[err|res] h2]
  end; cbn [fst RequestHeader] in *; rewrite lookup_total_insert_eq in Hs; exact Hs.
Qed.

(** [New] with the options [providerConfigure] passes: the client's header
    map is a new object with the entries of the caller's map. *)
Lemma New_copies_headers url l x (h : gmap positive (gmap string (list string))) :
  h !! l = Some x ->
  let c := fst (New [WithBaseURL url; WithHeaders (Some l)] h) in
  let h' := snd (New [WithBaseURL url; WithHeaders (Some l)] h) in
  Headers c <> l /\ h !! Headers c = None /\ h' !! Headers c = Some x
  /\ h ⊆ h'
  /\ (forall y, <[l := y]> h' !! Headers c = Some x).
Proof.
  intros Hl c h'. subst c h'. unfold New, WithBaseURL, WithHeaders.
  cbn [fold_left fst snd client_Headers zero_client client_HTTPClient client_BaseURL].
  unfold Header_Clone, alloc.
  cbn [fst snd client_Headers Headers].
  assert (Hfresh : h !! fresh (dom h) = None) by apply not_elem_of_dom, is_fresh.
  assert (Hne : fresh (dom h) <> l) by congruence.
  repeat apply conj.
  - exact Hne.
  - exact Hfresh.
  - rewrite lookup_insert_eq. unfold lookup_total, map_lookup_total.
    rewrite Hl. reflexivity.
  - apply insert_subseteq. exact Hfresh.
  - intros y. rewrite lookup_insert_ne by congruence.
    rewrite lookup_insert_eq. unfold lookup_total, map_lookup_total.
    rewrite Hl. reflexivity.
Qed.

(** C9.  A method of the client leaves the client's header map as it was
    (and every other map object that existed before the call): the request
    carries a new map object, a copy of the client's, and the content type
    that Create and Update add is added to that copy, which is what the
    transport is handed.  [New] stores a copy of the caller's header map, so
    what the caller later does to its own map does not reach the client. *)
Theorem headers_frame (c : Client) (h : gmap positive (gmap string (list string)))
    (hdr : gmap string (list string)) :
  h !! Headers c = Some hdr ->
  (forall id, snd (GetIdentityProvider c id h) !! Headers c = Some hdr)
  /\ (forall template, snd (CreateIdentityProvider c template h) !! Headers c = Some hdr)
  /\ (forall id template,
        snd (UpdateIdentityProvider c id template h) !! Headers c = Some hdr)
  /\ (forall id, snd (DeleteIdentityProvider c id h) !! Headers c = Some hdr)
  /\ (forall template,
        NewRequest_error "POST" (provider_url c "/admin/sso/providers") = None ->
        fresh (dom h) <> Headers c
        /\ fst (CreateIdentityProvider c template h)
           = answer StatusCreated "creating new identity provider"
               (fst (Do (HTTPClient_ c)
                       {| Method := "POST";
                          RequestURL := provider_url c "/admin/sso/providers";
                          RequestHeader := fresh (dom h);
                          RequestBody :=
                            Some (json_text (Marshal_IdentityProviderRequest template)) |}
                       (with_header "Content-Type" "application/json" hdr))))
  /\ (forall id template,
        NewRequest_error "PUT" (provider_url c ("/admin/sso/providers/" ++ id)) = None ->
        fresh (dom h) <> Headers c
        /\ fst (UpdateIdentityProvider c id template h)
           = answer StatusOK ("updating identity provider with ID " ++ Quote id)
               (fst (Do (HTTPClient_ c)
                       {| Method := "PUT";
                          RequestURL := provider_url c ("/admin/sso/providers/" ++ id);
                          RequestHeader := fresh (dom h);
                          RequestBody :=
                            Some (json_text (Marshal_IdentityProviderRequest template)) |}
                       (with_header "Content-Type" "application/json" hdr))))
  /\ (forall url l x (h0 : gmap positive (gmap string (list string))),
        h0 !! l = Some x ->
        let c' := fst (New [WithBaseURL url; WithHeaders (Some l)] h0) in
        let h' := snd (New [WithBaseURL url; WithHeaders (Some l)] h0) in
        Headers c' <> l /\ h0 !! Headers c' = None /\ h' !! Headers c' = Some x
        /\ h0 ⊆ h'
        /\ (forall y, <[l := y]> h' !! Headers c' = Some x)).
Proof.
  intros Hc.
  assert (Htot : h !!! Headers c = hdr)
    by (unfold lookup_total, map_lookup_total; rewrite Hc; reflexivity).
  assert (Hne : fresh (dom h) <> Headers c).
  { intros Heq. pose proof (is_fresh (dom h)) as Hf. rewrite Heq in Hf.
    apply Hf, elem_of_dom. eexists; exact Hc. }
  repeat apply conj.
  - intros id. eapply lookup_weaken; [exact Hc|apply Get_frame].
  - intros template. eapply lookup_weaken; [exact Hc|apply Create_frame].
  - intros id template. eapply lookup_weaken; [exact Hc|apply Update_frame].
  - intros id. eapply lookup_weaken; [exact Hc|apply Delete_frame].
  - intros template Hreq. split; [exact Hne|].
    rewrite <- Htot. apply Create_request. exact Hreq.
  - intros id template Hreq. split; [exact Hne|].
    rewrite <- Htot. apply Update_request. exact Hreq.
  - intros url l x h0 Hl. apply New_copies_headers. exact Hl.
Qed.

End Frame.

Lemma headers_frame_witness :
  store0 !! Headers (client_of (answering {| StatusCode := 201; Body := inl "{}" |}))
  = Some {[ "Authorization" := ["Bearer token"] ]}
  /\ snd (@CreateIdentityProvider sample_lib
            (client_of (answering {| StatusCode := 201; Body := inl "{}" |}))
            zeroRequest store0)
     !! Headers (client_of (answering {| StatusCode := 201; Body := inl "{}" |}))
     = Some {[ "Authorization" := ["Bearer token"] ]}.
Proof.
  assert (Hc : store0 !! Headers (client_of (answering {| StatusCode := 201; Body := inl "{}" |}))
               = Some {[ "Authorization" := ["Bearer token"] ]}) by reflexivity.
  split; [exact Hc|].
  exact (proj1 (proj2 (@headers_frame sample_lib _ store0 _ Hc)) zeroRequest).
Defined.

End HeaderFrame.

(** ** Empty and non-empty strings *)

Module Basics.
Import Adminclient.

Lemma nonempty_true s : nonempty s = true <-> s <> "".
Proof.
  unfold nonempty. destruct (String.eqb_spec s ""); cbn; split; try congruence; auto.
Qed.

Lemma nonempty_false s : nonempty s = false <-> s = "".
Proof.
  unfold nonempty. destruct (String.eqb_spec s ""); cbn; split; try congruence; auto.
Qed.

End Basics.

(** ** The options of the client *)

Module ClientOptions.
Import Utf8 Regexp Json Adminclient Gotrue Spec Sample Notions Cases.

Lemma TrimSuffix_slash_app p : TrimSuffix_slash (p ++ "/") = p.
Proof.
  induction p as [|c p IH]; [reflexivity|].
  change (String c p ++ "/")%string with (String c (p ++ "/")).
  cbn [TrimSuffix_slash]. rewrite IH.
  destruct p; reflexivity.
Qed.

Lemma TrimSuffix_slash_other s :
  (forall p, s <> (p ++ "/")%string) -> TrimSuffix_slash s = s.
Proof.
  induction s as [|c s IH]; intros Hs; [reflexivity|].
  destruct s as [|c' s'].
  - cbn. destruct (Ascii.eqb_spec c "/") as [->|]; [|reflexivity].
    exfalso. apply (Hs ""). reflexivity.
  - change (TrimSuffix_slash (String c (String c' s')))
      with (String c (TrimSuffix_slash (String c' s'))).
    rewrite IH; [reflexivity|].
    intros p Hp. apply (Hs (String c p)). cbn. rewrite Hp. reflexivity.
Qed.

(** X1.  [WithBaseURL] stores the address with one trailing slash taken
    off its path: a path [p/] becomes [p], so that [p//] keeps one slash,
    and a path that does not end in a slash is kept.  The option touches
    nothing else of the client and no header map. *)
Theorem WithBaseURL_trims_one_slash (url : URL) (c : client)
    (h : gmap positive (gmap string (list string))) :
  snd (WithBaseURL url c h) = h
  /\ client_HTTPClient (fst (WithBaseURL url c h)) = client_HTTPClient c
  /\ client_Headers (fst (WithBaseURL url c h)) = client_Headers c
  /\ Scheme (client_BaseURL (fst (WithBaseURL url c h))) = Scheme url
  /\ Host (client_BaseURL (fst (WithBaseURL url c h))) = Host url
  /\ (forall p, Path url = (p ++ "/")%string ->
        Path (client_BaseURL (fst (WithBaseURL url c h))) = p)
  /\ ((forall p, Path url <> (p ++ "/")%string) ->
        Path (client_BaseURL (fst (WithBaseURL url c h))) = Path url).
Proof.
  unfold WithBaseURL. cbn [fst snd client_HTTPClient client_Headers client_BaseURL
                            Scheme Host Path].
  repeat apply conj; try reflexivity.
  - intros p ->. apply TrimSuffix_slash_app.
  - apply TrimSuffix_slash_other.
Qed.

(** The options applied one after the other, as [New] does. *)
Lemma New_fold `{GoLib} (options : list Option) (h : gmap positive (gmap string (list string))) :
  New options h
  = let st := fold_left (fun st (option : Option) => option (fst st) (snd st))
                options (zero_client, h) in
    let lh := match client_Headers (fst st) with
              | Some l => (l, snd st)
              | None => alloc ∅ (snd st)
              end in
    ({| HTTPClient_ := default DefaultClient (client_HTTPClient (fst st));
        BaseURL := client_BaseURL (fst st);
        Headers := fst lh |}, snd lh).
Proof.
  unfold New.
  destruct (fold_left _ options (zero_client, h)) as [c h1]. cbn [fst snd].
  destruct (client_Headers c); reflexivity.
Qed.

Lemma later_keep_transport (later : list Option) : forall st,
  Forall (fun o => (exists u, o = WithBaseURL u) \/ (exists l, o = WithHeaders l)) later ->
  client_HTTPClient
    (fst (fold_left (fun st (option : Option) => option (fst st) (snd st)) later st))
  = client_HTTPClient (fst st).
Proof.
  induction later as [|o later IH]; intros st Hl; [reflexivity|].
  apply Forall_cons in Hl as [Ho Hl]. cbn [fold_left]. rewrite IH by exact Hl.
  destruct Ho as [[u ->]|[[l|] ->]]; unfold WithBaseURL, WithHeaders; reflexivity.
Qed.

Lemma later_keep_address (later : list Option) : forall st,
  Forall (fun o => (exists t, o = WithHTTPClient t) \/ (exists l, o = WithHeaders l)) later ->
  client_BaseURL
    (fst (fold_left (fun st (option : Option) => option (fst st) (snd st)) later st))
  = client_BaseURL (fst st).
Proof.
  induction later as [|o later IH]; intros st Hl; [reflexivity|].
  apply Forall_cons in Hl as [Ho Hl]. cbn [fold_left]. rewrite IH by exact Hl.
  destruct Ho as [[u ->]|[[l|] ->]]; unfold WithHTTPClient, WithHeaders; reflexivity.
Qed.

Section Options.
Context `{GoLib}.

(** X2.  [New] without options gives a client with the default transport,
    the empty address and a new, empty header map.  Each option sets its
    own field only, so the last option of a kind decides: the transport is
    the one of the last [WithHTTPClient], and the default one when that
    option passes nil; the address is the one of the last [WithBaseURL];
    after [WithHeaders] of a nil map the client gets a new, empty map. *)
Theorem New_options (options later : list Option)
    (h : gmap positive (gmap string (list string))) :
  New [] h
  = ({| HTTPClient_ := DefaultClient;
        BaseURL := {| Scheme := ""; Host := ""; Path := "" |};
        Headers := fresh (dom h) |}, <[fresh (dom h) := ∅]> h)
  /\ (forall httpClient,
        Forall (fun o => (exists u, o = WithBaseURL u) \/ (exists l, o = WithHeaders l))
          later ->
        HTTPClient_ (fst (New (options ++ WithHTTPClient httpClient :: later) h))
        = default DefaultClient httpClient)
  /\ (forall url,
        Forall (fun o => (exists t, o = WithHTTPClient t) \/ (exists l, o = WithHeaders l))
          later ->
        BaseURL (fst (New (options ++ WithBaseURL url :: later) h))
        = {| Scheme := Scheme url; Host := Host url;
             Path := TrimSuffix_slash (Path url) |})
  /\ (let h1 := snd (fold_left (fun st (option : Option) => option (fst st) (snd st))
                       options (zero_client, h)) in
      let c := fst (New (options ++ [WithHeaders None]) h) in
      h1 !! Headers c = None
      /\ snd (New (options ++ [WithHeaders None]) h) = <[Headers c := ∅]> h1).
Proof.
  repeat apply conj.
  - reflexivity.
  - intros httpClient Hl. rewrite New_fold. cbn [HTTPClient_ fst].
    rewrite fold_left_app. cbn [fold_left].
    rewrite later_keep_transport by exact Hl. reflexivity.
  - intros url Hl. rewrite New_fold. cbn [BaseURL fst].
    rewrite fold_left_app. cbn [fold_left].
    rewrite later_keep_address by exact Hl. reflexivity.
  - rewrite New_fold. rewrite fold_left_app. cbn [fold_left].
    destruct (fold_left _ options (zero_client, h)) as [c0 h1].
    unfold WithHeaders, alloc. cbn [fst snd client_Headers Headers].
    apply not_elem_of_dom, is_fresh.
  - rewrite New_fold. rewrite fold_left_app. cbn [fold_left].
    destruct (fold_left _ options (zero_client, h)) as [c0 h1].
    reflexivity.
Qed.

End Options.

Lemma New_options_witness :
  Forall (fun o => (exists u, o = WithBaseURL u) \/ (exists l, o = WithHeaders l))
    [WithBaseURL {| Scheme := "http"; Host := "localhost"; Path := "/" |};
     WithHeaders None]
  /\ HTTPClient_
       (fst (@New sample_lib
               ([WithHTTPClient (Some (answering res422))]
                ++ WithHTTPClient None
                   :: [WithBaseURL {| Scheme := "http"; Host := "localhost"; Path := "/" |};
                       WithHeaders None]) ∅))
     = @DefaultClient sample_lib.
Proof.
  assert (Hl : Forall (fun o => (exists u, o = WithBaseURL u) \/ (exists l, o = WithHeaders l))
                 [WithBaseURL {| Scheme := "http"; Host := "localhost"; Path := "/" |};
                  WithHeaders None]).
  { apply Forall_cons. split; [left; eexists; reflexivity|].
    apply Forall_cons. split; [right; eexists; reflexivity|]. apply Forall_nil_2. }
  split; [exact Hl|].
  exact (proj1 (proj2 (@New_options sample_lib [WithHTTPClient (Some (answering res422))]
                         _ ∅)) None Hl).
Defined.

End ClientOptions.

(** ** The requests of the client and what it makes of the answers *)

Module Requests.
Import Utf8 Regexp Json Adminclient Gotrue Spec Sample Notions Cases.
Import ApiError HeaderFrame.

Section Ops.
Context `{GoLib}.

(** X3.  Get and Delete hand the transport a request without a body, for
    the address of the client with [/admin/sso/providers/] and the
    identifier appended to its path, with a new copy of the client's
    headers and nothing added to it.  They return the error of the
    transport, or the API error when the status is not 200; on status 200
    Get returns what the body decodes to, and Delete nil without reading
    the body.  When the request cannot be made, nothing is sent and no
    header map is made. *)
Theorem get_and_delete_requests (c : Client) (id : string)
    (h : gmap positive (gmap string (list string))) :
  (forall err,
      NewRequest_error "GET" (provider_url c ("/admin/sso/providers/" ++ id)) = Some err ->
      GetIdentityProvider c id h = (inl err, h))
  /\ (NewRequest_error "GET" (provider_url c ("/admin/sso/providers/" ++ id)) = None ->
      fst (GetIdentityProvider c id h)
      = match fst (Do (HTTPClient_ c)
                     {| Method := "GET";
                        RequestURL := provider_url c ("/admin/sso/providers/" ++ id);
                        RequestHeader := fresh (dom h);
                        RequestBody := None |}
                     (h !!! Headers c)) with
        | inl err => inl err
        | inr res =>
          if bool_decide (StatusCode res = 200%Z) then decode_provider res
          else inl (parseError res 200
                      ("fetching identity provider with id " ++ Quote id))
        end)
  /\ (forall err,
        NewRequest_error "DELETE" (provider_url c ("/admin/sso/providers/" ++ id)) = Some err ->
        DeleteIdentityProvider c id h = (Some err, h))
  /\ (NewRequest_error "DELETE" (provider_url c ("/admin/sso/providers/" ++ id)) = None ->
      fst (DeleteIdentityProvider c id h)
      = match fst (Do (HTTPClient_ c)
                     {| Method := "DELETE";
                        RequestURL := provider_url c ("/admin/sso/providers/" ++ id);
                        RequestHeader := fresh (dom h);
                        RequestBody := None |}
                     (h !!! Headers c)) with
        | inl err => Some err
        | inr res =>
          if bool_decide (StatusCode res = 200%Z) then None
          else Some (parseError res 200
                       ("deleting identity provider with ID " ++ Quote id))
        end).
Proof.
  repeat apply conj.
  - intros err Hreq. unfold GetIdentityProvider. rewrite Hreq. reflexivity.
  - apply Get_request.
  - intros err Hreq. unfold DeleteIdentityProvider. rewrite Hreq. reflexivity.
  - apply Delete_request.
Qed.

(** X4.  A method returns a provider, and Delete nil, only when the
    transport has answered its request with the status the method expects:
    200 for Get, Update and Delete, 201 for Create, so that an answer 200
    to Create is an error. *)
Theorem success_needs_expected_status (c : Client)
    (h : gmap positive (gmap string (list string))) :
  (forall id provider,
      fst (GetIdentityProvider c id h) = inr provider ->
      exists req hdr res,
        fst (Do (HTTPClient_ c) req hdr) = inr res /\ Method req = "GET"
        /\ StatusCode res = 200%Z /\ decode_provider res = inr provider)
  /\ (forall template provider,
        fst (CreateIdentityProvider c template h) = inr provider ->
        exists req hdr res,
          fst (Do (HTTPClient_ c) req hdr) = inr res /\ Method req = "POST"
          /\ StatusCode res = 201%Z /\ decode_provider res = inr provider)
  /\ (forall id template provider,
        fst (UpdateIdentityProvider c id template h) = inr provider ->
        exists req hdr res,
          fst (Do (HTTPClient_ c) req hdr) = inr res /\ Method req = "PUT"
          /\ StatusCode res = 200%Z /\ decode_provider res = inr provider)
  /\ (forall id,
        fst (DeleteIdentityProvider c id h) = None ->
        exists req hdr res,
          fst (Do (HTTPClient_ c) req hdr) = inr res /\ Method req = "DELETE"
          /\ StatusCode res = 200%Z)
  /\ (forall template res,
        (forall req hdr, fst (Do (HTTPClient_ c) req hdr) = inr res) ->
        StatusCode res = 200%Z ->
        exists err, fst (CreateIdentityProvider c template h) = inl err).
Proof.
  repeat apply conj.
  - intros id provider. unfold GetIdentityProvider.
    destruct (NewRequest_error _ _); [discriminate|].
    destruct (Header_Clone (Headers c) h) as [hdr h1]. rewrite send_then.
    match goal with
    | |- context [Do (HTTPClient_ c) ?req ?m] =>
      destruct (fst (Do (HTTPClient_ c) req m)) as [err|res] eqn:Hdo;
        [discriminate|];
        destruct (bool_decide_reflect (StatusCode res = StatusOK)); [|discriminate];
        intros Hp; exists req, m, res
    end.
    repeat apply conj; auto.
  - intros template provider. unfold CreateIdentityProvider.
    destruct (NewRequest_error _ _); [discriminate|].
    destruct (Header_Clone (Headers c) h) as [hdr h1]. rewrite send_then.
    match goal with
    | |- context [Do (HTTPClient_ c) ?req ?m] =>
      destruct (fst (Do (HTTPClient_ c) req m)) as [err|res] eqn:Hdo;
        [discriminate|];
        destruct (bool_decide_reflect (StatusCode res = StatusCreated)); [|discriminate];
        intros Hp; exists req, m, res
    end.
    repeat apply conj; auto.
  - intros id template provider. unfold UpdateIdentityProvider.
    destruct (NewRequest_error _ _); [discriminate|].
    destruct (Header_Clone (Headers c) h) as [hdr h1]. rewrite send_then.
    match goal with
    | |- context [Do (HTTPClient_ c) ?req ?m] =>
      destruct (fst (Do (HTTPClient_ c) req m)) as [err|res] eqn:Hdo;
        [discriminate|];
        destruct (bool_decide_reflect (StatusCode res = StatusOK)); [|discriminate];
        intros Hp; exists req, m, res
    end.
    repeat apply conj; auto.
  - intros id. unfold DeleteIdentityProvider.
    destruct (NewRequest_error _ _); [discriminate|].
    destruct (Header_Clone (Headers c) h) as [hdr h1]. rewrite send_then_delete.
    match goal with
    | |- context [Do (HTTPClient_ c) ?req ?m] =>
      destruct (fst (Do (HTTPClient_ c) req m)) as [err|res] eqn:Hdo;
        [discriminate|];
        destruct (bool_decide_reflect (StatusCode res = StatusOK)); [|discriminate];
        intros Hp; exists req, m, res
    end.
    repeat apply conj; auto.
  - intros template res Hdo Hst. unfold CreateIdentityProvider.
    destruct (NewRequest_error _ _) as [err|]; [exists err; reflexivity|].
    destruct (Header_Clone (Headers c) h) as [hdr h1].
    rewrite send_then, Hdo, bool_decide_eq_false_2; [eexists; reflexivity|].
    rewrite Hst. discriminate.
Qed.

(** X5.  When the transport answers the request of a method with a status
    other than the one expected and a body that cannot be read, the method
    returns the error of the read, and no API error. *)
Theorem unreadable_error_body (c : Client)
    (h : gmap positive (gmap string (list string))) (res : Response) (err : string) :
  Body res = inr err ->
  (forall id,
      NewRequest_error "GET" (provider_url c ("/admin/sso/providers/" ++ id)) = None ->
      fst (Do (HTTPClient_ c)
             {| Method := "GET";
                RequestURL := provider_url c ("/admin/sso/providers/" ++ id);
                RequestHeader := fresh (dom h);
                RequestBody := None |}
             (h !!! Headers c)) = inr res ->
      StatusCode res <> 200%Z ->
      fst (GetIdentityProvider c id h) = inl (OtherError err))
  /\ (forall template,
        NewRequest_error "POST" (provider_url c "/admin/sso/providers") = None ->
        fst (Do (HTTPClient_ c)
               {| Method := "POST";
                  RequestURL := provider_url c "/admin/sso/providers";
                  RequestHeader := fresh (dom h);
                  RequestBody :=
                    Some (json_text (Marshal_IdentityProviderRequest template)) |}
               (with_header "Content-Type" "application/json" (h !!! Headers c)))
        = inr res ->
        StatusCode res <> 201%Z ->
        fst (CreateIdentityProvider c template h) = inl (OtherError err))
  /\ (forall id template,
        NewRequest_error "PUT" (provider_url c ("/admin/sso/providers/" ++ id)) = None ->
        fst (Do (HTTPClient_ c)
               {| Method := "PUT";
                  RequestURL := provider_url c ("/admin/sso/providers/" ++ id);
                  RequestHeader := fresh (dom h);
                  RequestBody :=
                    Some (json_text (Marshal_IdentityProviderRequest template)) |}
               (with_header "Content-Type" "application/json" (h !!! Headers c)))
        = inr res ->
        StatusCode res <> 200%Z ->
        fst (UpdateIdentityProvider c id template h) = inl (OtherError err))
  /\ (forall id,
        NewRequest_error "DELETE" (provider_url c ("/admin/sso/providers/" ++ id)) = None ->
        fst (Do (HTTPClient_ c)
               {| Method := "DELETE";
                  RequestURL := provider_url c ("/admin/sso/providers/" ++ id);
                  RequestHeader := fresh (dom h);
                  RequestBody := None |}
               (h !!! Headers c)) = inr res ->
        StatusCode res <> 200%Z ->
        fst (DeleteIdentityProvider c id h) = Some (OtherError err)).
Proof.
  intros Hbody.
  assert (Hp : forall expected op, parseError res expected op = OtherError err).
  { intros expected op. unfold parseError. rewrite Hbody. reflexivity. }
  repeat apply conj.
  - intros id Hreq Hdo Hst. rewrite Get_request by exact Hreq.
    rewrite Hdo, bool_decide_eq_false_2 by exact Hst. apply f_equal, Hp.
  - intros template Hreq Hdo Hst. rewrite Create_sent by exact Hreq.
    rewrite Hdo, bool_decide_eq_false_2 by exact Hst. apply f_equal, Hp.
  - intros id template Hreq Hdo Hst. rewrite Update_sent by exact Hreq.
    rewrite Hdo, bool_decide_eq_false_2 by exact Hst. apply f_equal, Hp.
  - intros id Hreq Hdo Hst. rewrite Delete_request by exact Hreq.
    rewrite Hdo, bool_decide_eq_false_2 by exact Hst. apply f_equal, Hp.
Qed.

End Ops.

Lemma unreadable_error_body_witness :
  Body broken_body = inr "unexpected EOF"
  /\ fst (@GetIdentityProvider sample_lib
            (client_of (routing broken_body {| StatusCode := 200; Body := inl "{}" |}))
            "abc" store0)
     = inl (OtherError "unexpected EOF").
Proof.
  split; [reflexivity|].
  refine (proj1 (@unreadable_error_body sample_lib
                   (client_of (routing broken_body {| StatusCode := 200; Body := inl "{}" |}))
                   store0 broken_body "unexpected EOF" eq_refl) "abc" eq_refl eq_refl _).
  discriminate.
Defined.

End Requests.

(** ** Reconciliation: Read, Create and Update on the record *)

Module Reconcile.
Import Utf8 Regexp Json Adminclient Gotrue Spec Sample Notions Cases.
Import Basics ApiError.

Section Ops.
Context `{GoLib}.

(** What synchronisation leaves in the record. *)
Lemma Set_fields (provider : IdentityProviderResponse) (d : ResourceData) :
  fst (resourceIdentityProviderSet provider d)
  = {| Id := ID provider;
       prior := prior d;
       current :=
         {| metadata_url :=
              if nonempty (saml_MetadataURL (SAML_ provider))
              then saml_MetadataURL (SAML_ provider) else metadata_url (current d);
            metadata_xml :=
              if nonempty (saml_MetadataURL (SAML_ provider)) then metadata_xml (current d)
              else if nonempty (saml_MetadataXML (SAML_ provider))
                   then saml_MetadataXML (SAML_ provider) else metadata_xml (current d);
            domains := domainsSet provider;
            attribute_mapping :=
              json_text (Marshal_AttributeMapping (saml_AttributeMapping (SAML_ provider)));
            created_at := Format_RFC3339_UTC (CreatedAt provider);
            updated_at := Format_RFC3339_UTC (UpdatedAt provider) |} |}.
Proof.
  unfold resourceIdentityProviderSet. cbn [fst].
  destruct (nonempty (saml_MetadataURL (SAML_ provider)));
    [|destruct (nonempty (saml_MetadataXML (SAML_ provider)))]; reflexivity.
Qed.

(** X6.  What synchronisation writes.  The identifier, the two times, the
    domains and the attribute mapping of the record become those of the
    response.  Of the two metadata fields at most one is written: the
    address when the response has one, else the XML when it has that; the
    other field is left as it was, and so are both when the response has
    neither.  The prior state is not touched and no diagnostic is
    returned. *)
Theorem set_writes (provider : IdentityProviderResponse) (d : ResourceData) :
  snd (resourceIdentityProviderSet provider d) = []
  /\ Id (fst (resourceIdentityProviderSet provider d)) = ID provider
  /\ prior (fst (resourceIdentityProviderSet provider d)) = prior d
  /\ created_at (current (fst (resourceIdentityProviderSet provider d)))
     = Format_RFC3339_UTC (CreatedAt provider)
  /\ updated_at (current (fst (resourceIdentityProviderSet provider d)))
     = Format_RFC3339_UTC (UpdatedAt provider)
  /\ domains (current (fst (resourceIdentityProviderSet provider d))) = domainsSet provider
  /\ attribute_mapping (current (fst (resourceIdentityProviderSet provider d)))
     = json_text (Marshal_AttributeMapping (saml_AttributeMapping (SAML_ provider)))
  /\ (saml_MetadataURL (SAML_ provider) <> "" ->
      metadata_url (current (fst (resourceIdentityProviderSet provider d)))
      = saml_MetadataURL (SAML_ provider)
      /\ metadata_xml (current (fst (resourceIdentityProviderSet provider d)))
         = metadata_xml (current d))
  /\ (saml_MetadataURL (SAML_ provider) = "" -> saml_MetadataXML (SAML_ provider) <> "" ->
      metadata_xml (current (fst (resourceIdentityProviderSet provider d)))
      = saml_MetadataXML (SAML_ provider)
      /\ metadata_url (current (fst (resourceIdentityProviderSet provider d)))
         = metadata_url (current d))
  /\ (saml_MetadataURL (SAML_ provider) = "" -> saml_MetadataXML (SAML_ provider) = "" ->
      metadata_url (current (fst (resourceIdentityProviderSet provider d)))
      = metadata_url (current d)
      /\ metadata_xml (current (fst (resourceIdentityProviderSet provider d)))
         = metadata_xml (current d)).
Proof.
  rewrite Set_fields. cbn [Id prior current metadata_url metadata_xml domains
                             attribute_mapping created_at updated_at].
  destruct (nonempty (saml_MetadataURL (SAML_ provider))) eqn:Hu;
    [|destruct (nonempty (saml_MetadataXML (SAML_ provider))) eqn:Hx];
    rewrite ?nonempty_true, ?nonempty_false in *;
    repeat apply conj; try reflexivity; intros; try contradiction; split; reflexivity.
Qed.

(** X7.  Synchronising the same response a second time changes nothing. *)
Theorem set_idempotent (provider : IdentityProviderResponse) (d : ResourceData) :
  resourceIdentityProviderSet provider (fst (resourceIdentityProviderSet provider d))
  = resourceIdentityProviderSet provider d.
Proof.
  unfold resourceIdentityProviderSet. cbn [fst].
  destruct (nonempty (saml_MetadataURL (SAML_ provider)));
    [|destruct (nonempty (saml_MetadataXML (SAML_ provider)))]; reflexivity.
Qed.

(** What the operations of the resource return, by what the client returns. *)
Lemma Read_fst d m (h : gmap positive (gmap string (list string))) :
  fst (resourceIdentityProviderRead d m h)
  = match fst (GetIdentityProvider m (Id d) h) with
    | inl err => (d, FromErr (error_text err))
    | inr provider => resourceIdentityProviderSet provider d
    end.
Proof.
  unfold resourceIdentityProviderRead.
  destruct (GetIdentityProvider m (Id d) h) as [[err|provider] h']; reflexivity.
Qed.

Lemma Delete_fst d m (h : gmap positive (gmap string (list string))) :
  fst (resourceIdentityProviderDelete d m h)
  = match fst (DeleteIdentityProvider m (Id d) h) with
    | Some err => (d, FromErr (error_text err))
    | None => (SetId "" d, [])
    end.
Proof.
  unfold resourceIdentityProviderDelete.
  destruct (DeleteIdentityProvider m (Id d) h) as [[err|] h']; reflexivity.
Qed.

(** The text of an API error. *)
Lemma parseError_text res expected op body :
  Body res = inl body ->
  exists e, parseError res expected op = APIError e
    /\ api_error_of res expected op body e
    /\ error_text (parseError res expected op)
       = ("adminclient: expected HTTP " ++ pretty expected ++ " when " ++ op
          ++ ", got HTTP " ++ pretty (Code e) ++ ": " ++ Message e)%string.
Proof.
  intros Hb. destruct (parseError_spec res expected op body Hb) as (e & He & Hspec).
  exists e. split; [exact He|]. split; [exact Hspec|].
  rewrite He. unfold error_text, Error_Error.
  destruct Hspec as (-> & -> & _). reflexivity.
Qed.

(** X10.  What the user is shown when the server answers the request of
    Read or of Delete with a status other than 200 and a body that can be
    read.  The record is as it was: Read does not take a provider that is
    missing off the record.  The one diagnostic is an error whose summary
    is the text of the API error: it names the status expected, the
    operation with the identifier, then the code and the message of the
    payload, or the HTTP status and the raw body where the payload gives
    none. *)
Theorem failed_status_diagnostic (d : ResourceData) (m : Client)
    (h : gmap positive (gmap string (list string))) (res : Response) (body : string) :
  Body res = inl body -> StatusCode res <> 200%Z ->
  exists code msg,
    match parse body with
    | Parsed v => code = default (StatusCode res) (payload_code v)
                  /\ msg = if error_shape v then default "" (payload_msg v) else body
    | _ => code = StatusCode res /\ msg = body
    end
    /\ (NewRequest_error "GET" (provider_url m ("/admin/sso/providers/" ++ Id d)) = None ->
        fst (Do (HTTPClient_ m)
               {| Method := "GET";
                  RequestURL := provider_url m ("/admin/sso/providers/" ++ Id d);
                  RequestHeader := fresh (dom h);
                  RequestBody := None |}
               (h !!! Headers m)) = inr res ->
        fst (resourceIdentityProviderRead d m h)
        = (d, [{| Severity_ := Error;
                  Summary := ("adminclient: expected HTTP 200 when fetching identity provider with id "
                              ++ Quote (Id d) ++ ", got HTTP " ++ pretty code ++ ": " ++ msg)%string;
                  Detail := "" |}]))
    /\ (NewRequest_error "DELETE" (provider_url m ("/admin/sso/providers/" ++ Id d)) = None ->
        fst (Do (HTTPClient_ m)
               {| Method := "DELETE";
                  RequestURL := provider_url m ("/admin/sso/providers/" ++ Id d);
                  RequestHeader := fresh (dom h);
                  RequestBody := None |}
               (h !!! Headers m)) = inr res ->
        fst (resourceIdentityProviderDelete d m h)
        = (d, [{| Severity_ := Error;
                  Summary := ("adminclient: expected HTTP 200 when deleting identity provider with ID "
                              ++ Quote (Id d) ++ ", got HTTP " ++ pretty code ++ ": " ++ msg)%string;
                  Detail := "" |}])).
Proof.
  intros Hbody Hst.
  destruct (parseError_text res StatusOK
              ("fetching identity provider with id " ++ Quote (Id d)) body Hbody)
    as (e1 & He1 & (_ & _ & Hs1) & Ht1).
  destruct (parseError_text res StatusOK
              ("deleting identity provider with ID " ++ Quote (Id d)) body Hbody)
    as (e2 & He2 & (_ & _ & Hs2) & Ht2).
  assert (Hsame : Code e2 = Code e1 /\ Message e2 = Message e1).
  { destruct (parse body) as [v| |]; destruct Hs1 as [-> ->], Hs2 as [-> ->];
      split; reflexivity. }
  destruct Hsame as [Hc Hm]. rewrite Hc, Hm in Ht2. unfold StatusOK in Ht1, Ht2.
  exists (Code e1), (Message e1). split; [exact Hs1|]. split.
  - intros Hreq Hdo. rewrite Read_fst, Get_request by exact Hreq.
    rewrite Hdo, bool_decide_eq_false_2 by exact Hst.
    unfold FromErr. rewrite Ht1. reflexivity.
  - intros Hreq Hdo. rewrite Delete_fst, Delete_request by exact Hreq.
    rewrite Hdo, bool_decide_eq_false_2 by exact Hst.
    unfold FromErr. rewrite Ht2. reflexivity.
Qed.

End Ops.

Lemma failed_status_diagnostic_witness :
  Body not_found = inl (jq "{'code':404,'msg':'not found'}")
  /\ StatusCode not_found <> 200%Z
  /\ exists (code : Z) (msg : string),
       fst (@resourceIdentityProviderRead sample_lib record0
              (client_of (routing not_found {| StatusCode := 200; Body := inl "{}" |}))
              store0)
       = (record0,
          [{| Severity_ := Error;
              Summary := ("adminclient: expected HTTP 200 when fetching identity provider with id "
                          ++ @Quote sample_lib (Id record0) ++ ", got HTTP " ++ pretty code
                          ++ ": " ++ msg)%string;
              Detail := "" |}]).
Proof.
  assert (Hst : StatusCode not_found <> 200%Z) by discriminate.
  split; [reflexivity|]. split; [exact Hst|].
  destruct (@failed_status_diagnostic sample_lib record0
              (client_of (routing not_found {| StatusCode := 200; Body := inl "{}" |}))
              store0 not_found
              (jq "{'code':404,'msg':'not found'}") eq_refl Hst)
    as (code & msg & _ & Hread & _).
  exists code, msg. exact (Hread eq_refl eq_refl).
Defined.

End Reconcile.

(** ** The requests Create and Update build *)

Module Templates.
Import Utf8 Regexp Json Adminclient Gotrue Spec Sample Notions Cases.
Import Basics AttributeMappingValidation UpdateRequest Synchronisation.

Lemma Set_List_nil (s : gmap string string) : Set_List s = [] <-> s = ∅.
Proof.
  split.
  - intros Hl. apply map_empty. intros code.
    destruct (s !! code) as [y|] eqn:Hc; [|reflexivity].
    assert (Hy : y ∈ Set_List s) by (apply Set_List_elem; eauto).
    rewrite Hl in Hy. apply elem_of_nil in Hy. contradiction.
  - intros ->. reflexivity.
Qed.

Lemma fold_append l : forall acc,
  fold_left append l acc = match l with
                           | [] => acc
                           | _ :: _ => Some (default [] acc ++ l)
                           end.
Proof.
  induction l as [|x l IH]; intros acc; [reflexivity|].
  cbn [fold_left]. rewrite IH. unfold append.
  destruct l; [reflexivity|]. cbn [default from_option].
  unfold id. rewrite <- app_assoc. reflexivity.
Qed.

(** The domain list of a request built from a set: nil for the empty set,
    else the items in the order [Set.List] gives them. *)
Lemma domains_of_set (s : gmap string string) :
  fold_left append (Set_List s) None
  = if decide (s = ∅) then None else Some (Set_List s).
Proof.
  rewrite fold_append. destruct (decide (s = ∅)) as [->|Hne]; [reflexivity|].
  destruct (Set_List s) eqn:Hl; [|reflexivity].
  apply Set_List_nil in Hl. contradiction.
Qed.

Lemma create_template_fields d template :
  create_template d = inr template ->
  req_Type template = "saml" /\ req_ID template = "" /\ req_ResourceID template = ""
  /\ req_MetadataURL template = metadata_url (current d)
  /\ req_MetadataXML template
     = (if nonempty (metadata_url (current d)) then "" else metadata_xml (current d))
  /\ req_Domains template
     = (if decide (domains (current d) = ∅) then None
        else Some (Set_List (domains (current d)))).
Proof.
  unfold create_template, GetOk_string, GetOk_domains, Set_Len.
  rewrite domains_of_set.
  intros Ht.
  assert (Hsz : (size (domains (current d)) =? 0)%nat
                = bool_decide (domains (current d) = ∅)).
  { destruct (decide (domains (current d) = ∅)) as [He|Hne].
    - rewrite He, bool_decide_eq_true_2 by reflexivity. reflexivity.
    - rewrite bool_decide_eq_false_2 by exact Hne. apply Nat.eqb_neq.
      intros Hs. apply map_size_empty_iff in Hs. contradiction. }
  rewrite Hsz in Ht.
  unfold nonempty in *.
  destruct (String.eqb_spec (metadata_url (current d)) "") as [Hu|Hu];
    destruct (String.eqb_spec (metadata_xml (current d)) "") as [Hx|Hx];
    destruct (decide (domains (current d) = ∅)) as [He|He];
    rewrite ?(bool_decide_eq_true_2 _ He), ?(bool_decide_eq_false_2 _ He) in Ht;
    cbn [negb andb] in Ht;
    repeat case_match; simplify_eq; cbn; rewrite ?Hu, ?Hx; repeat apply conj; reflexivity.
Qed.

Lemma update_template_mapping d :
  match update_template d with
  | inl e =>
    HasChange attribute_mapping d = true /\ attribute_mapping (current d) <> ""
    /\ snd (Unmarshal decode_AttributeMapping (attribute_mapping (current d))
              zeroAttributeMapping) = Some e
  | inr template =>
    (req_AttributeMapping template = zeroAttributeMapping
     /\ (HasChange attribute_mapping d = false \/ attribute_mapping (current d) = ""))
    \/ (HasChange attribute_mapping d = true /\ attribute_mapping (current d) <> ""
        /\ Unmarshal decode_AttributeMapping (attribute_mapping (current d))
             zeroAttributeMapping = (req_AttributeMapping template, None))
  end.
Proof.
  unfold update_template, GetOk_string. rewrite fold_set_Domains.
  destruct (HasChange attribute_mapping d).
  2:{ left. split; [|left; reflexivity].
      destruct (Set_List (domains (current d)));
        repeat match goal with
               | |- context [if ?b then _ else _] => destruct b
               end; reflexivity. }
  unfold nonempty.
  destruct (String.eqb_spec (attribute_mapping (current d)) "") as [Hk|Hk].
  { cbn [negb andb]. left. split; [|right; exact Hk].
    destruct (Set_List (domains (current d)));
      repeat match goal with
             | |- context [if ?b then _ else _] => destruct b
             end; reflexivity. }
  cbn [negb andb].
  match goal with
  | |- context [Unmarshal decode_AttributeMapping ?k ?old] =>
    replace old with zeroAttributeMapping
      by (destruct (Set_List (domains (current d)));
          repeat match goal with
                 | |- context [if ?b then _ else _] => destruct b
                 end; reflexivity)
  end.
  destruct (Unmarshal decode_AttributeMapping (attribute_mapping (current d))
              zeroAttributeMapping) as [am [e|]].
  - repeat split; assumption.
  - right. repeat split; assumption.
Qed.

Lemma create_template_mapping d :
  match create_template d with
  | inl e =>
    attribute_mapping (current d) <> ""
    /\ snd (Unmarshal decode_AttributeMapping (attribute_mapping (current d))
              zeroAttributeMapping) = Some e
  | inr template =>
    (req_AttributeMapping template = zeroAttributeMapping
     /\ attribute_mapping (current d) = "")
    \/ (attribute_mapping (current d) <> ""
        /\ Unmarshal decode_AttributeMapping (attribute_mapping (current d))
             zeroAttributeMapping = (req_AttributeMapping template, None))
  end.
Proof.
  unfold create_template, GetOk_string, GetOk_domains.
  unfold nonempty.
  destruct (String.eqb_spec (attribute_mapping (current d)) "") as [Hk|Hk].
  { cbn [negb andb]. left. split; [|exact Hk].
    repeat match goal with
           | |- context [if ?b then _ else _] => destruct b
           end; reflexivity. }
  cbn [negb andb].
  match goal with
  | |- context [Unmarshal decode_AttributeMapping ?k ?old] =>
    replace old with zeroAttributeMapping
      by (repeat match goal with
                 | |- context [if ?b then _ else _] => destruct b
                 end; reflexivity)
  end.
  destruct (Unmarshal decode_AttributeMapping (attribute_mapping (current d))
              zeroAttributeMapping) as [am [e|]].
  - repeat split; assumption.
  - right. repeat split; assumption.
Qed.

(** X11.  The request of Create.  Its type is always "saml".  It carries the
    configured metadata address, and the metadata XML only when no address
    is configured, so never both.  Its domain list is nil when no domain is
    configured, else the configured domains as [Set.List] gives them, and
    never an empty list.  Its attribute mapping is the configured one,
    decoded, or the zero mapping when none is configured. *)
Theorem create_request (d : ResourceData) (template : IdentityProviderRequest) :
  create_template d = inr template ->
  req_Type template = "saml" /\ req_ID template = "" /\ req_ResourceID template = ""
  /\ req_MetadataURL template = metadata_url (current d)
  /\ (metadata_url (current d) = "" -> req_MetadataXML template = metadata_xml (current d))
  /\ (metadata_url (current d) <> "" -> req_MetadataXML template = "")
  /\ (req_MetadataURL template = "" \/ req_MetadataXML template = "")
  /\ (domains (current d) = ∅ -> req_Domains template = None)
  /\ (domains (current d) <> ∅ ->
      req_Domains template = Some (Set_List (domains (current d))))
  /\ req_Domains template <> Some []
  /\ (attribute_mapping (current d) = "" ->
      req_AttributeMapping template = zeroAttributeMapping)
  /\ (attribute_mapping (current d) <> "" ->
      Unmarshal decode_AttributeMapping (attribute_mapping (current d))
        zeroAttributeMapping = (req_AttributeMapping template, None)).
Proof.
  intros Ht. pose proof (create_template_mapping d) as Hm. rewrite Ht in Hm.
  apply create_template_fields in Ht as (Hty & Hid & Hrid & Hurl & Hxml & Hdom).
  rewrite Hty, Hid, Hrid, Hurl, Hxml, Hdom. unfold nonempty.
  repeat apply conj; try reflexivity.
  - intros ->. reflexivity.
  - intros Hu. destruct (String.eqb_spec (metadata_url (current d)) ""); [contradiction|].
    reflexivity.
  - destruct (String.eqb_spec (metadata_url (current d)) ""); auto.
  - intros He. rewrite decide_True by exact He. reflexivity.
  - intros He. rewrite decide_False by exact He. reflexivity.
  - destruct (decide (domains (current d) = ∅)) as [He|He]; [discriminate|].
    intros [= Hl]. apply Set_List_nil in Hl. contradiction.
  - intros Hk. destruct Hm as [[Hz _]|[Hne _]]; [exact Hz|contradiction].
  - intros Hk. destruct Hm as [[_ He]|[_ Hu]]; [contradiction|exact Hu].
Qed.

(** X12.  The domains of the request of Update when the domain set changed: the
    domains of the desired state, as [Set.List] gives them; but nil when
    the desired state has no domain, and then the encoded request has no
    member [domains], as when the domains did not change at all. *)
Theorem update_changed_domains `{GoLib} (d : ResourceData)
    (template : IdentityProviderRequest) :
  update_template d = inr template ->
  domains (prior d) <> domains (current d) ->
  (domains (current d) <> ∅ ->
   req_Domains template = Some (Set_List (domains (current d)))
   /\ ("domains", JArray (map JString (Set_List (domains (current d)))))
      ∈ members (Marshal_IdentityProviderRequest template))
  /\ (domains (current d) = ∅ ->
      req_Domains template = None
      /\ "domains" ∉ member_names (Marshal_IdentityProviderRequest template))
  /\ req_Domains template <> Some [].
Proof.
  intros Ht Hch. apply update_template_fields in Ht as (_ & _ & Hdom & _).
  unfold HasChange in Hdom. rewrite bool_decide_eq_false_2 in Hdom by exact Hch.
  cbn [negb] in Hdom. rewrite domains_of_set in Hdom.
  repeat apply conj.
  - intros He. rewrite decide_False in Hdom by exact He. split; [exact Hdom|].
    unfold Marshal_IdentityProviderRequest, members. rewrite Hdom.
    rewrite !elem_of_app. right. right. right. left.
    apply list_elem_of_singleton. reflexivity.
  - intros He. rewrite decide_True in Hdom by exact He. split; [exact Hdom|].
    apply member_names_request. exact Hdom.
  - rewrite Hdom. destruct (decide (domains (current d) = ∅)) as [He|He]; [discriminate|].
    intros [= Hl]. apply Set_List_nil in Hl. contradiction.
Qed.

Lemma elem_of_if (k k' : string) (b : bool) :
  k ∈ (if b then [k'] else []) <-> b = true /\ k = k'.
Proof.
  destruct b; [rewrite list_elem_of_singleton|rewrite elem_of_nil].
  - split; [intros ->; split; reflexivity|intros [_ ->]; reflexivity].
  - split; [contradiction|intros [Hb _]; discriminate Hb].
Qed.

Ltac member_iff :=
  split;
  [ intros Hx; decompose [and or] Hx; congruence
  | intros Hx; repeat first [left; split; [exact Hx|reflexivity] | right] ].

Section Body.
Context `{GoLib}.

Lemma member_names_cases (r : IdentityProviderRequest) :
  member_names (Marshal_IdentityProviderRequest r)
  = (if nonempty (req_ID r) then ["id"] else [])
    ++ (if nonempty (req_ResourceID r) then ["resource_id"] else [])
    ++ (if nonempty (req_Type r) then ["type"] else [])
    ++ match req_Domains r with
       | Some _ => ["domains"]
       | None => []
       end
    ++ (if nonempty (req_MetadataXML r) then ["metadata_xml"] else [])
    ++ (if nonempty (req_MetadataURL r) then ["metadata_url"] else [])
    ++ ["attribute_mapping"; "created_at"; "updated_at"].
Proof.
  unfold Marshal_IdentityProviderRequest, member_names, member_if.
  destruct (nonempty (req_ID r)), (nonempty (req_ResourceID r)),
    (nonempty (req_Type r)), (req_Domains r), (nonempty (req_MetadataXML r)),
    (nonempty (req_MetadataURL r)); reflexivity.
Qed.

(** X13.  The members of an encoded request.  They come in the order of the
    fields of the struct, none twice.  The attribute mapping and the two
    times are structs, which [omitempty] never leaves out: these three
    members are in every request.  Each of the others is there exactly when
    its field is not empty.  So the request of Create has the member
    [type] with the value "saml", and the request of Update has no member
    [type], [id] or [resource_id]. *)
Theorem request_body_members (r : IdentityProviderRequest) :
  sublist (member_names (Marshal_IdentityProviderRequest r)) Request_fields
  /\ NoDup (member_names (Marshal_IdentityProviderRequest r))
  /\ "attribute_mapping" ∈ member_names (Marshal_IdentityProviderRequest r)
  /\ "created_at" ∈ member_names (Marshal_IdentityProviderRequest r)
  /\ "updated_at" ∈ member_names (Marshal_IdentityProviderRequest r)
  /\ ("id" ∈ member_names (Marshal_IdentityProviderRequest r) <-> req_ID r <> "")
  /\ ("resource_id" ∈ member_names (Marshal_IdentityProviderRequest r)
      <-> req_ResourceID r <> "")
  /\ ("type" ∈ member_names (Marshal_IdentityProviderRequest r) <-> req_Type r <> "")
  /\ ("domains" ∈ member_names (Marshal_IdentityProviderRequest r)
      <-> req_Domains r <> None)
  /\ ("metadata_xml" ∈ member_names (Marshal_IdentityProviderRequest r)
      <-> req_MetadataXML r <> "")
  /\ ("metadata_url" ∈ member_names (Marshal_IdentityProviderRequest r)
      <-> req_MetadataURL r <> "")
  /\ (forall d, create_template d = inr r ->
        ("type", JString "saml") ∈ members (Marshal_IdentityProviderRequest r))
  /\ (forall d, update_template d = inr r ->
        ("type" ∉ member_names (Marshal_IdentityProviderRequest r))
        /\ ("id" ∉ member_names (Marshal_IdentityProviderRequest r))
        /\ ("resource_id" ∉ member_names (Marshal_IdentityProviderRequest r))).
Proof.
  assert (Hsub : sublist (member_names (Marshal_IdentityProviderRequest r)) Request_fields).
  { rewrite member_names_cases. unfold Request_fields.
    destruct (nonempty (req_ID r)), (nonempty (req_ResourceID r)),
      (nonempty (req_Type r)), (req_Domains r), (nonempty (req_MetadataXML r)),
      (nonempty (req_MetadataURL r)); cbn [app];
      repeat first [apply sublist_nil | apply sublist_skip | apply sublist_cons]. }
  assert (Hnd : NoDup Request_fields).
  { unfold Request_fields.
    repeat (apply NoDup_cons; split;
            [rewrite ?not_elem_of_cons; repeat split; try discriminate;
             apply not_elem_of_nil|]).
    apply NoDup_nil_2. }
  split; [exact Hsub|]. split; [eapply sublist_NoDup; eassumption|].
  assert (Hin : forall k,
            k ∈ member_names (Marshal_IdentityProviderRequest r) <->
            (req_ID r <> "" /\ k = "id") \/ (req_ResourceID r <> "" /\ k = "resource_id")
            \/ (req_Type r <> "" /\ k = "type") \/ (req_Domains r <> None /\ k = "domains")
            \/ (req_MetadataXML r <> "" /\ k = "metadata_xml")
            \/ (req_MetadataURL r <> "" /\ k = "metadata_url")
            \/ k = "attribute_mapping" \/ k = "created_at" \/ k = "updated_at").
  { intros k. rewrite member_names_cases, !elem_of_app, !elem_of_if, !nonempty_true.
    rewrite !elem_of_cons, elem_of_nil.
    destruct (req_Domains r); [rewrite list_elem_of_singleton|rewrite elem_of_nil];
      intuition congruence. }
  repeat match goal with |- _ /\ _ => split end.
  - apply Hin. tauto.
  - apply Hin. tauto.
  - apply Hin. tauto.
  - rewrite Hin. member_iff.
  - rewrite Hin. member_iff.
  - rewrite Hin. member_iff.
  - rewrite Hin. member_iff.
  - rewrite Hin. member_iff.
  - rewrite Hin. member_iff.
  - intros d Hd. apply create_template_fields in Hd as (Hty & _).
    unfold Marshal_IdentityProviderRequest, members. rewrite Hty.
    rewrite !elem_of_app. right. right. left. cbn. apply list_elem_of_singleton.
    reflexivity.
  - intros d Hd. apply update_template_fields in Hd as (_ & _ & _ & Hid & Hrid & Hty).
    rewrite !Hin, Hid, Hrid, Hty.
    repeat match goal with |- _ /\ _ => split end;
      intros Hx; decompose [and or] Hx; congruence.
Qed.

End Body.

(** X14.  Create fails before any request exactly when an attribute mapping is
    configured and does not decode, Update when moreover the attribute
    mapping changed.  A value that the validator of the field passes never
    makes them fail, and the mapping they send is the one the validator
    looked at. *)
Theorem attribute_mapping_decides `{GoLib} (d : ResourceData) :
  (forall e, create_template d = inl e <->
             attribute_mapping (current d) <> ""
             /\ snd (Unmarshal decode_AttributeMapping (attribute_mapping (current d))
                       zeroAttributeMapping) = Some e)
  /\ (forall e, update_template d = inl e <->
                HasChange attribute_mapping d = true
                /\ attribute_mapping (current d) <> ""
                /\ snd (Unmarshal decode_AttributeMapping (attribute_mapping (current d))
                          zeroAttributeMapping) = Some e)
  /\ (validate_attribute_mapping (attribute_mapping (current d)) = [] ->
      exists mapping,
        Unmarshal decode_AttributeMapping (attribute_mapping (current d))
          zeroAttributeMapping = (mapping, None)
        /\ (exists template, create_template d = inr template
                             /\ req_AttributeMapping template = mapping)
        /\ (exists template, update_template d = inr template
                             /\ (HasChange attribute_mapping d = true ->
                                 req_AttributeMapping template = mapping))).
Proof.
  pose proof (create_template_mapping d) as Hc.
  pose proof (update_template_mapping d) as Hu.
  split; [|split].
  - intros e. split.
    + intros He. rewrite He in Hc. exact Hc.
    + intros [Hne Hs]. destruct (create_template d) as [e'|template].
      * destruct Hc as [_ Hc]. congruence.
      * destruct Hc as [[_ Hk]|[_ Hk]]; [contradiction|].
        rewrite Hk in Hs. discriminate Hs.
  - intros e. split.
    + intros He. rewrite He in Hu. exact Hu.
    + intros (Hch & Hne & Hs). destruct (update_template d) as [e'|template].
      * destruct Hu as (_ & _ & Hu). congruence.
      * destruct Hu as [[_ [Hk|Hk]]|(_ & _ & Hk)]; [congruence|contradiction|].
        rewrite Hk in Hs. discriminate Hs.
  - intros Hv. unfold validate_attribute_mapping in Hv.
    destruct (Unmarshal decode_AttributeMapping (attribute_mapping (current d))
                zeroAttributeMapping) as [mapping [e|]] eqn:Hd; [discriminate Hv|].
    assert (Hne : attribute_mapping (current d) <> "").
    { intros Hk. rewrite Hk in Hd. vm_compute in Hd. discriminate Hd. }
    exists mapping. split; [reflexivity|]. split.
    + destruct (create_template d) as [e'|template].
      * destruct Hc as [_ Hc]. discriminate Hc.
      * exists template. split; [reflexivity|].
        destruct Hc as [[_ Hk]|[_ Hk]]; [contradiction|congruence].
    + destruct (update_template d) as [e'|template].
      * destruct Hu as (_ & _ & Hu). discriminate Hu.
      * exists template. split; [reflexivity|]. intros Hch.
        destruct Hu as [[_ [Hk|Hk]]|(_ & _ & Hk)]; [congruence|contradiction|congruence].
Qed.

(** X15.  An update of a record in which nothing changed still sends a
    request: the zero request, whose encoding has the three members that
    are never left out and no other. *)
Theorem update_without_change `{GoLib} (d : ResourceData) (m : Client)
    (h : gmap positive (gmap string (list string))) :
  prior d = current d ->
  update_template d = inr zeroRequest
  /\ member_names (Marshal_IdentityProviderRequest zeroRequest)
     = ["attribute_mapping"; "created_at"; "updated_at"]
  /\ resourceIdentityProviderUpdate d m h
     = match UpdateIdentityProvider m (Id d) zeroRequest h with
       | (inl err, h') => (d, FromErr (error_text err), h')
       | (inr provider, h') => (resourceIdentityProviderSet provider d, h')
       end.
Proof.
  intros Hsame.
  assert (Ht : update_template d = inr zeroRequest).
  { unfold update_template, HasChange. rewrite Hsame.
    rewrite !bool_decide_eq_true_2 by reflexivity. reflexivity. }
  split; [exact Ht|]. split; [reflexivity|].
  unfold resourceIdentityProviderUpdate. rewrite Ht. reflexivity.
Qed.

Lemma create_request_witness :
  create_template configured
  = inr (set_AttributeMapping email_mapping
           (set_Domains (Some ["example.com"])
              (set_MetadataURL "https://idp.example/saml"
                 (set_Type "saml" zeroRequest))))
  /\ req_MetadataXML
       (set_AttributeMapping email_mapping
          (set_Domains (Some ["example.com"])
             (set_MetadataURL "https://idp.example/saml"
                (set_Type "saml" zeroRequest)))) = "".
Proof.
  assert (Ht : create_template configured
               = inr (set_AttributeMapping email_mapping
                        (set_Domains (Some ["example.com"])
                           (set_MetadataURL "https://idp.example/saml"
                              (set_Type "saml" zeroRequest)))))
    by (vm_compute; reflexivity).
  split; [exact Ht|].
  refine (proj1 (proj2 (proj2 (proj2 (proj2 (proj2 (create_request configured _ Ht))))))
            _).
  discriminate.
Defined.

Lemma update_changed_domains_witness :
  update_template domains_removed = inr zeroRequest
  /\ domains (prior domains_removed) <> domains (current domains_removed)
  /\ req_Domains zeroRequest = None.
Proof.
  assert (Ht : update_template domains_removed = inr zeroRequest)
    by (vm_compute; reflexivity).
  assert (Hch : domains (prior domains_removed) <> domains (current domains_removed)).
  { intros Heq. apply (f_equal Set_Len) in Heq. vm_compute in Heq. discriminate Heq. }
  split; [exact Ht|]. split; [exact Hch|].
  exact (proj1 (proj1 (proj2 (@update_changed_domains sample_lib domains_removed _ Ht Hch))
                  eq_refl)).
Defined.

Lemma update_without_change_witness :
  prior record0 = current record0
  /\ update_template record0 = inr zeroRequest.
Proof.
  split; [reflexivity|].
  exact (proj1 (@update_without_change sample_lib record0
                  (client_of (answering not_found)) store0 eq_refl)).
Defined.

End Templates.

(** ** Read, Create and Update, from the record to the transport *)

Module Outcomes.
Import Utf8 Regexp Json Adminclient Gotrue Spec Sample Notions Cases.
Import Basics ApiError HeaderFrame Reconcile Templates.

Section Ops.
Context `{GoLib}.

Lemma Create_fst d m (h : gmap positive (gmap string (list string))) template :
  create_template d = inr template ->
  fst (resourceIdentityProviderCreate d m h)
  = match fst (CreateIdentityProvider m template h) with
    | inl err => (d, FromErr (error_text err))
    | inr provider => resourceIdentityProviderSet provider d
    end.
Proof.
  intros Ht. unfold resourceIdentityProviderCreate. rewrite Ht.
  destruct (CreateIdentityProvider m template h) as [[err|provider] h']; reflexivity.
Qed.

Lemma Update_fst d m (h : gmap positive (gmap string (list string))) template :
  update_template d = inr template ->
  fst (resourceIdentityProviderUpdate d m h)
  = match fst (UpdateIdentityProvider m (Id d) template h) with
    | inl err => (d, FromErr (error_text err))
    | inr provider => resourceIdentityProviderSet provider d
    end.
Proof.
  intros Ht. unfold resourceIdentityProviderUpdate. rewrite Ht.
  destruct (UpdateIdentityProvider m (Id d) template h) as [[err|provider] h']; reflexivity.
Qed.

Lemma outcome_of_cases d expected op result :
  (exists text, outcome_of d expected op result
                = (d, [{| Severity_ := Error; Summary := text; Detail := "" |}]))
  \/ (exists res provider,
        result = inr res /\ StatusCode res = expected
        /\ decode_provider res = inr provider
        /\ outcome_of d expected op result = resourceIdentityProviderSet provider d).
Proof.
  unfold outcome_of. destruct result as [err|res].
  - left. eexists. reflexivity.
  - destruct (bool_decide_reflect (StatusCode res = expected)) as [Hst|Hst].
    + destruct (decode_provider res) as [err|provider] eqn:Hd.
      * left. eexists. reflexivity.
      * right. exists res, provider. auto.
    + left. eexists. reflexivity.
Qed.

Lemma Read_outcome d m (h : gmap positive (gmap string (list string))) :
  NewRequest_error "GET" (provider_url m ("/admin/sso/providers/" ++ Id d)) = None ->
  fst (resourceIdentityProviderRead d m h)
  = outcome_of d 200 ("fetching identity provider with id " ++ Quote (Id d))
      (fst (Do (HTTPClient_ m)
              {| Method := "GET";
                 RequestURL := provider_url m ("/admin/sso/providers/" ++ Id d);
                 RequestHeader := fresh (dom h);
                 RequestBody := None |}
              (h !!! Headers m))).
Proof.
  intros Hreq. rewrite Read_fst, Get_request by exact Hreq. unfold outcome_of.
  destruct (fst (Do _ _ _)) as [err|res]; [reflexivity|].
  destruct (bool_decide (StatusCode res = 200%Z)); reflexivity.
Qed.

Lemma Create_outcome d m (h : gmap positive (gmap string (list string))) template :
  create_template d = inr template ->
  NewRequest_error "POST" (provider_url m "/admin/sso/providers") = None ->
  fst (resourceIdentityProviderCreate d m h)
  = outcome_of d 201 "creating new identity provider"
      (fst (Do (HTTPClient_ m)
              {| Method := "POST";
                 RequestURL := provider_url m "/admin/sso/providers";
                 RequestHeader := fresh (dom h);
                 RequestBody :=
                   Some (json_text (Marshal_IdentityProviderRequest template)) |}
              (with_header "Content-Type" "application/json" (h !!! Headers m)))).
Proof.
  intros Ht Hreq. rewrite (Create_fst d m h template Ht), Create_sent by exact Hreq.
  unfold outcome_of.
  destruct (fst (Do _ _ _)) as [err|res]; [reflexivity|].
  destruct (bool_decide (StatusCode res = 201%Z)); reflexivity.
Qed.

Lemma Update_outcome d m (h : gmap positive (gmap string (list string))) template :
  update_template d = inr template ->
  NewRequest_error "PUT" (provider_url m ("/admin/sso/providers/" ++ Id d)) = None ->
  fst (resourceIdentityProviderUpdate d m h)
  = outcome_of d 200 ("updating identity provider with ID " ++ Quote (Id d))
      (fst (Do (HTTPClient_ m)
              {| Method := "PUT";
                 RequestURL := provider_url m ("/admin/sso/providers/" ++ Id d);
                 RequestHeader := fresh (dom h);
                 RequestBody :=
                   Some (json_text (Marshal_IdentityProviderRequest template)) |}
              (with_header "Content-Type" "application/json" (h !!! Headers m)))).
Proof.
  intros Ht Hreq. rewrite (Update_fst d m h template Ht), Update_sent by exact Hreq.
  unfold outcome_of.
  destruct (fst (Do _ _ _)) as [err|res]; [reflexivity|].
  destruct (bool_decide (StatusCode res = 200%Z)); reflexivity.
Qed.

Lemma Read_frame d m (h : gmap positive (gmap string (list string))) :
  h ⊆ snd (resourceIdentityProviderRead d m h).
Proof.
  pose proof (Get_frame m (Id d) h) as Hf. unfold resourceIdentityProviderRead.
  destruct (GetIdentityProvider m (Id d) h) as [[err|provider] h']; exact Hf.
Qed.

Lemma Create_op_frame d m (h : gmap positive (gmap string (list string))) :
  h ⊆ snd (resourceIdentityProviderCreate d m h).
Proof.
  unfold resourceIdentityProviderCreate.
  destruct (create_template d) as [e|template]; [reflexivity|].
  pose proof (Create_frame m template h) as Hf.
  destruct (CreateIdentityProvider m template h) as [[err|provider] h']; exact Hf.
Qed.

Lemma Update_op_frame d m (h : gmap positive (gmap string (list string))) :
  h ⊆ snd (resourceIdentityProviderUpdate d m h).
Proof.
  unfold resourceIdentityProviderUpdate.
  destruct (update_template d) as [e|template]; [reflexivity|].
  pose proof (Update_frame m (Id d) template h) as Hf.
  destruct (UpdateIdentityProvider m (Id d) template h) as [[err|provider] h']; exact Hf.
Qed.

Lemma create_template_fails d e :
  attribute_mapping (current d) <> "" ->
  snd (Unmarshal decode_AttributeMapping (attribute_mapping (current d))
         zeroAttributeMapping) = Some e ->
  create_template d = inl e.
Proof.
  intros Hne Hu. pose proof (create_template_mapping d) as Hm.
  destruct (create_template d) as [e'|template].
  - destruct Hm as [_ He]. congruence.
  - destruct Hm as [[_ Hm]|[_ Hm]]; [contradiction|].
    rewrite Hm in Hu. discriminate Hu.
Qed.

Lemma update_template_fails d e :
  HasChange attribute_mapping d = true ->
  attribute_mapping (current d) <> "" ->
  snd (Unmarshal decode_AttributeMapping (attribute_mapping (current d))
         zeroAttributeMapping) = Some e ->
  update_template d = inl e.
Proof.
  intros Hc Hne Hu. pose proof (update_template_mapping d) as Hm.
  destruct (update_template d) as [e'|template].
  - destruct Hm as (_ & _ & He). congruence.
  - destruct Hm as [[_ [Hm|Hm]]|(_ & _ & Hm)]; [congruence|contradiction|].
    rewrite Hm in Hu. discriminate Hu.
Qed.

(** X8.  Read, down to the transport.  When the request cannot be made,
    none is sent and the header maps are as they were.  Otherwise the
    transport is handed the GET request for the identifier of the record,
    and the record is synchronised only when it answers with status 200
    and a body that decodes to a provider; when the transport fails, when
    the status is another, when the body does not decode, the record is
    returned as it was, identifier included.  So Read returns either the
    record as it was with exactly one diagnostic, an error, or the record
    synchronised with a provider the transport has answered.  Every header
    map that existed before the call is as it was. *)
Theorem read_reconciliation (d : ResourceData) (m : Client)
    (h : gmap positive (gmap string (list string))) :
  (forall err,
      NewRequest_error "GET" (provider_url m ("/admin/sso/providers/" ++ Id d)) = Some err ->
      resourceIdentityProviderRead d m h = (d, FromErr (error_text err), h))
  /\ (NewRequest_error "GET" (provider_url m ("/admin/sso/providers/" ++ Id d)) = None ->
      let reply :=
        fst (Do (HTTPClient_ m)
               {| Method := "GET";
                  RequestURL := provider_url m ("/admin/sso/providers/" ++ Id d);
                  RequestHeader := fresh (dom h);
                  RequestBody := None |}
               (h !!! Headers m)) in
      (forall err, reply = inl err ->
         fst (resourceIdentityProviderRead d m h) = (d, FromErr (error_text err)))
      /\ (forall res, reply = inr res -> StatusCode res <> 200%Z ->
            fst (resourceIdentityProviderRead d m h)
            = (d, FromErr (error_text
                             (parseError res 200
                                ("fetching identity provider with id " ++ Quote (Id d))))))
      /\ (forall res err, reply = inr res -> StatusCode res = 200%Z ->
            decode_provider res = inl err ->
            fst (resourceIdentityProviderRead d m h) = (d, FromErr (error_text err)))
      /\ (forall res provider, reply = inr res -> StatusCode res = 200%Z ->
            decode_provider res = inr provider ->
            fst (resourceIdentityProviderRead d m h)
            = resourceIdentityProviderSet provider d))
  /\ ((exists text,
         fst (resourceIdentityProviderRead d m h)
         = (d, [{| Severity_ := Error; Summary := text; Detail := "" |}]))
      \/ (exists req hdr res provider,
            fst (Do (HTTPClient_ m) req hdr) = inr res /\ Method req = "GET"
            /\ StatusCode res = 200%Z /\ decode_provider res = inr provider
            /\ fst (resourceIdentityProviderRead d m h)
               = resourceIdentityProviderSet provider d))
  /\ h ⊆ snd (resourceIdentityProviderRead d m h).
Proof.
  repeat match goal with |- _ /\ _ => split end.
  - intros err Hreq. unfold resourceIdentityProviderRead, GetIdentityProvider.
    rewrite Hreq. reflexivity.
  - intros Hreq reply. subst reply. rewrite Read_outcome by exact Hreq.
    unfold outcome_of. repeat apply conj.
    + intros err ->. reflexivity.
    + intros res -> Hst. rewrite bool_decide_eq_false_2 by exact Hst. reflexivity.
    + intros res err -> Hst Hd. rewrite bool_decide_eq_true_2 by exact Hst.
      rewrite Hd. reflexivity.
    + intros res provider -> Hst Hd. rewrite bool_decide_eq_true_2 by exact Hst.
      rewrite Hd. reflexivity.
  - destruct (NewRequest_error "GET" (provider_url m ("/admin/sso/providers/" ++ Id d)))
      as [err|] eqn:Hreq.
    + left. exists (error_text err).
      unfold resourceIdentityProviderRead, GetIdentityProvider. rewrite Hreq. reflexivity.
    + rewrite Read_outcome by exact Hreq.
      match goal with
      | |- context [outcome_of d ?e ?op ?r] =>
        destruct (outcome_of_cases d e op r) as [Hl|(res & provider & Hr & Hst & Hd & Ho)]
      end; [left; exact Hl|].
      right. eexists _, _, res, provider. split; [exact Hr|]. auto.
  - apply Read_frame.
Qed.

(** X9.  Create and Update, down to the transport.  When the attribute
    mapping is not empty (and, for Update, has changed) and does not
    decode, the operation returns that error without a request: the
    result is the same whatever the client, and the header maps are as
    they were.  When the request is built, the transport is handed the
    POST request (the PUT request for the identifier of the record) whose
    body is the encoded request, with the content type added to the copy
    of the client's headers; the record is synchronised only when the
    answer has status 201 (200 for Update) and a body that decodes to a
    provider, and is returned as it was otherwise.  So each operation
    returns either the record as it was with exactly one diagnostic, an
    error, or the record synchronised with a provider the transport has
    answered.  Every header map that existed before the call is as it
    was. *)
Theorem create_update_reconciliation (d : ResourceData) (m : Client)
    (h : gmap positive (gmap string (list string))) :
  (forall e,
      attribute_mapping (current d) <> "" ->
      snd (Unmarshal decode_AttributeMapping (attribute_mapping (current d))
             zeroAttributeMapping) = Some e ->
      resourceIdentityProviderCreate d m h
      = (d, FromErr (json_error_text (attribute_mapping (current d)) e), h)
      /\ (HasChange attribute_mapping d = true ->
          resourceIdentityProviderUpdate d m h
          = (d, FromErr (json_error_text (attribute_mapping (current d)) e), h)))
  /\ (forall template,
        create_template d = inr template ->
        NewRequest_error "POST" (provider_url m "/admin/sso/providers") = None ->
        fst (resourceIdentityProviderCreate d m h)
        = outcome_of d 201 "creating new identity provider"
            (fst (Do (HTTPClient_ m)
                    {| Method := "POST";
                       RequestURL := provider_url m "/admin/sso/providers";
                       RequestHeader := fresh (dom h);
                       RequestBody :=
                         Some (json_text (Marshal_IdentityProviderRequest template)) |}
                    (with_header "Content-Type" "application/json" (h !!! Headers m)))))
  /\ (forall template,
        update_template d = inr template ->
        NewRequest_error "PUT" (provider_url m ("/admin/sso/providers/" ++ Id d)) = None ->
        fst (resourceIdentityProviderUpdate d m h)
        = outcome_of d 200 ("updating identity provider with ID " ++ Quote (Id d))
            (fst (Do (HTTPClient_ m)
                    {| Method := "PUT";
                       RequestURL := provider_url m ("/admin/sso/providers/" ++ Id d);
                       RequestHeader := fresh (dom h);
                       RequestBody :=
                         Some (json_text (Marshal_IdentityProviderRequest template)) |}
                    (with_header "Content-Type" "application/json" (h !!! Headers m)))))
  /\ ((exists text,
         fst (resourceIdentityProviderCreate d m h)
         = (d, [{| Severity_ := Error; Summary := text; Detail := "" |}]))
      \/ (exists req hdr res provider,
            fst (Do (HTTPClient_ m) req hdr) = inr res /\ Method req = "POST"
            /\ StatusCode res = 201%Z /\ decode_provider res = inr provider
            /\ fst (resourceIdentityProviderCreate d m h)
               = resourceIdentityProviderSet provider d))
  /\ ((exists text,
         fst (resourceIdentityProviderUpdate d m h)
         = (d, [{| Severity_ := Error; Summary := text; Detail := "" |}]))
      \/ (exists req hdr res provider,
            fst (Do (HTTPClient_ m) req hdr) = inr res /\ Method req = "PUT"
            /\ StatusCode res = 200%Z /\ decode_provider res = inr provider
            /\ fst (resourceIdentityProviderUpdate d m h)
               = resourceIdentityProviderSet provider d))
  /\ h ⊆ snd (resourceIdentityProviderCreate d m h)
  /\ h ⊆ snd (resourceIdentityProviderUpdate d m h).
Proof.
  repeat match goal with |- _ /\ _ => split end.
  - intros e Hne Hu. split.
    + unfold resourceIdentityProviderCreate.
      rewrite (create_template_fails d e Hne Hu). reflexivity.
    + intros Hc. unfold resourceIdentityProviderUpdate.
      rewrite (update_template_fails d e Hc Hne Hu). reflexivity.
  - intros template Ht Hreq. apply Create_outcome; assumption.
  - intros template Ht Hreq. apply Update_outcome; assumption.
  - destruct (create_template d) as [e|template] eqn:Ht.
    { left. eexists. unfold resourceIdentityProviderCreate. rewrite Ht. reflexivity. }
    destruct (NewRequest_error "POST" (provider_url m "/admin/sso/providers"))
      as [err|] eqn:Hreq.
    { left. exists (error_text err).
      unfold resourceIdentityProviderCreate, CreateIdentityProvider.
      rewrite Ht, Hreq. reflexivity. }
    rewrite (Create_outcome d m h template Ht Hreq).
    match goal with
    | |- context [outcome_of d ?e ?op ?r] =>
      destruct (outcome_of_cases d e op r) as [Hl|(res & provider & Hr & Hst & Hd & Ho)]
    end; [left; exact Hl|].
    right. eexists _, _, res, provider. split; [exact Hr|]. auto.
  - destruct (update_template d) as [e|template] eqn:Ht.
    { left. eexists. unfold resourceIdentityProviderUpdate. rewrite Ht. reflexivity. }
    destruct (NewRequest_error "PUT" (provider_url m ("/admin/sso/providers/" ++ Id d)))
      as [err|] eqn:Hreq.
    { left. exists (error_text err).
      unfold resourceIdentityProviderUpdate, UpdateIdentityProvider.
      rewrite Ht, Hreq. reflexivity. }
    rewrite (Update_outcome d m h template Ht Hreq).
    match goal with
    | |- context [outcome_of d ?e ?op ?r] =>
      destruct (outcome_of_cases d e op r) as [Hl|(res & provider & Hr & Hst & Hd & Ho)]
    end; [left; exact Hl|].
    right. eexists _, _, res, provider. split; [exact Hr|]. auto.
  - apply Create_op_frame.
  - apply Update_op_frame.
Qed.

End Ops.

End Outcomes.

(** ** The validator of the address, and loopback hosts *)

Module Address.
Import Utf8 Regexp Json Adminclient Gotrue Spec Sample Notions Cases.
Import RegexpFacts Utf8Facts DomainValidation.

Lemma Matches_Literal s : Matches (Literal s) (bytes s).
Proof.
  induction s as [|c s IH]; [constructor|].
  change (bytes (String c s)) with ([N_of_ascii c] ++ bytes s).
  assert (Hc : Matches (Literal1 c) [N_of_ascii c]).
  { constructor. unfold in_class, existsb. rewrite N.leb_refl. reflexivity. }
  destruct s as [|c' s'].
  - exact Hc.
  - change (Literal (String c (String c' s')))
      with (Concat (Literal1 c) (Literal (String c' s'))).
    constructor; assumption.
Qed.

Lemma Matches_Literal1_inv c w : Matches (Literal1 c) w -> w = [N_of_ascii c].
Proof.
  intros Hm. inversion Hm as [|cls r Hr| | | | |]; subst. f_equal.
  unfold in_class, existsb in Hr. rewrite orb_false_r in Hr.
  apply andb_true_iff in Hr as [H1 H2]. apply N.leb_le in H1, H2. lia.
Qed.

Lemma Matches_Literal_inv s : forall w, Matches (Literal s) w -> w = bytes s.
Proof.
  induction s as [|c s IH]; intros w Hm.
  - inversion Hm. reflexivity.
  - destruct s as [|c' s'].
    + apply Matches_Literal1_inv in Hm. exact Hm.
    + change (Literal (String c (String c' s')))
        with (Concat (Literal1 c) (Literal (String c' s'))) in Hm.
      apply Matches_Concat_inv in Hm as (w1 & w2 & -> & H1 & H2).
      apply Matches_Literal1_inv in H1. apply IH in H2. subst. reflexivity.
Qed.

Lemma is_digit_class b : in_class [(ch "0", ch "9")] b = is_digit b.
Proof. unfold in_class, existsb, is_digit. apply orb_false_r. Qed.

Lemma is_digit_ascii b : is_digit b = true -> (b < 0x80)%N.
Proof.
  unfold is_digit. intros Hb. apply andb_true_iff in Hb as [_ Hb].
  apply N.leb_le in Hb. change (ch "9") with 57%N in Hb. lia.
Qed.

Lemma is_digits_class s :
  is_digits s = true ->
  Forall (fun b => in_class [(ch "0", ch "9")] b = true) (bytes s)
  /\ Forall (fun b => (b < 0x80)%N) (bytes s).
Proof.
  unfold is_digits. intros Hs. rewrite forallb_forall in Hs. split.
  - apply Forall_forall. intros b Hb. rewrite is_digit_class.
    apply Hs, list_elem_of_In, Hb.
  - apply Forall_forall. intros b Hb. apply is_digit_ascii, Hs, list_elem_of_In, Hb.
Qed.

Lemma Matches_digits s :
  is_digits s = true -> s <> "" -> Matches (Plus digit) (bytes s).
Proof.
  intros Hs Hne. apply is_digits_class in Hs as [Hs _].
  destruct s as [|c s]; [contradiction|].
  change (bytes (String c s)) with (N_of_ascii c :: bytes s) in *.
  apply Matches_Plus_class. exact Hs.
Qed.

Lemma Matches_octet s : octet s = true -> Matches (Repeat13 digit) (bytes s).
Proof.
  unfold octet. intros Hs.
  apply andb_true_iff in Hs as [Hs Hmax]. apply andb_true_iff in Hs as [Hs Hmin].
  apply Nat.leb_le in Hmin, Hmax. apply is_digits_class in Hs as [Hs _].
  rewrite <- bytes_length in Hmin, Hmax.
  assert (Hd : forall b, in_class [(ch "0", ch "9")] b = true -> Matches digit [b])
    by (intros b Hb; constructor; exact Hb).
  destruct (bytes s) as [|a [|b [|c [|e w]]]]; cbn [length] in *; try lia.
  - apply Forall_cons_1 in Hs as [Ha _].
    change [a] with ([a] ++ []). unfold Repeat13, Quest.
    constructor; [apply Hd, Ha|]. apply M_AltR. constructor.
  - apply Forall_cons_1 in Hs as [Ha Hs]. apply Forall_cons_1 in Hs as [Hb _].
    change [a; b] with ([a] ++ ([b] ++ [])). unfold Repeat13, Quest.
    constructor; [apply Hd, Ha|]. apply M_AltL.
    constructor; [apply Hd, Hb|]. apply M_AltR. constructor.
  - apply Forall_cons_1 in Hs as [Ha Hs]. apply Forall_cons_1 in Hs as [Hb Hs].
    apply Forall_cons_1 in Hs as [Hc _].
    change [a; b; c] with ([a] ++ ([b] ++ [c])). unfold Repeat13, Quest.
    constructor; [apply Hd, Ha|]. apply M_AltL.
    constructor; [apply Hd, Hb|]. apply M_AltL. apply Hd, Hc.
Qed.

Lemma octet_ascii s : octet s = true -> Forall (fun b => (b < 0x80)%N) (bytes s).
Proof.
  unfold octet. intros Hs.
  apply andb_true_iff in Hs as [Hs _]. apply andb_true_iff in Hs as [Hs _].
  apply is_digits_class in Hs as [_ Hs]. exact Hs.
Qed.

(** The runes of a text that starts with an ASCII character. *)
Lemma runes_ascii_cons c s :
  (N_of_ascii c < 0x80)%N -> runes (String c s) = N_of_ascii c :: runes s.
Proof.
  intros Hc. unfold runes, decode.
  change (bytes (String c s)) with (N_of_ascii c :: bytes s).
  cbn [length decode_loop DecodeRune]. apply N.ltb_lt in Hc. rewrite Hc. reflexivity.
Qed.

Lemma N_of_ascii_inj a b : N_of_ascii a = N_of_ascii b -> a = b.
Proof. intros Hab. rewrite <- (ascii_N_embedding a), <- (ascii_N_embedding b), Hab. reflexivity. Qed.

(** A text whose runes start with the bytes of an ASCII text starts with
    that text. *)
Lemma runes_prefix p : forall s rest,
  Forall (fun b => (b < 0x80)%N) (bytes p) ->
  runes s = bytes p ++ rest ->
  exists s', s = (p ++ s')%string /\ runes s' = rest.
Proof.
  induction p as [|a p IH]; intros s rest Hp Hr.
  - exists s. split; [reflexivity|exact Hr].
  - change (bytes (String a p)) with (N_of_ascii a :: bytes p) in *.
    apply Forall_cons_1 in Hp as [Ha Hp].
    destruct s as [|c s]; [discriminate Hr|].
    destruct (runes_head c s) as (r & w & Hrun & Hlt & Hge).
    rewrite Hrun in Hr. injection Hr as -> ->.
    destruct (N.lt_ge_cases (N_of_ascii c) 0x80) as [Hc|Hc].
    + pose proof (Hlt Hc) as Heq. apply N_of_ascii_inj in Heq. subst c.
      rewrite runes_ascii_cons in Hrun by exact Ha. injection Hrun as Hw.
      destruct (IH s rest Hp Hw) as (s' & -> & Hs').
      exists s'. split; [reflexivity|exact Hs'].
    + specialize (Hge Hc). lia.
Qed.

Lemma runes_ascii s : Forall (fun b => (b < 0x80)%N) (bytes s) -> runes s = bytes s.
Proof. apply decode_ascii. Qed.

(** A text whose runes are all ASCII is made of these runes. *)
Lemma runes_ascii_inv s :
  Forall (fun r => (r < 0x80)%N) (runes s) -> runes s = bytes s.
Proof.
  induction s as [|c s IH]; intros Hr; [reflexivity|].
  destruct (N.lt_ge_cases (N_of_ascii c) 0x80) as [Hc|Hc].
  - rewrite runes_ascii_cons in * by exact Hc.
    apply Forall_cons_1 in Hr as [_ Hr].
    change (bytes (String c s)) with (N_of_ascii c :: bytes s).
    f_equal. apply IH. exact Hr.
  - destruct (runes_head c s) as (r & w & Hrun & _ & Hge).
    rewrite Hrun in Hr. apply Forall_cons_1 in Hr as [Hr _].
    specialize (Hge Hc). lia.
Qed.

Lemma bytes_inj s1 s2 : bytes s1 = bytes s2 -> s1 = s2.
Proof.
  revert s2. induction s1 as [|a s1 IH]; intros [|b s2] Hb; try discriminate Hb.
  - reflexivity.
  - change (bytes (String a s1)) with (N_of_ascii a :: bytes s1) in Hb.
    change (bytes (String b s2)) with (N_of_ascii b :: bytes s2) in Hb.
    injection Hb as Hab Hs. apply N_of_ascii_inj in Hab. subst.
    f_equal. apply IH. exact Hs.
Qed.

Lemma Matches_Star_class_inv cls w :
  Matches (Star (CharClass cls)) w -> Forall (fun c => in_class cls c = true) w.
Proof.
  intros Hm. remember (Star (CharClass cls)) as r eqn:Hr.
  induction Hm as [| | | | | |r0 w1 w2 H1 _ H2 IH2]; try discriminate Hr.
  - constructor.
  - injection Hr as ->. inversion H1; subst. constructor; [assumption|].
    apply IH2. reflexivity.
Qed.

Lemma Matches_Plus_class_inv cls w :
  Matches (Plus (CharClass cls)) w ->
  w <> [] /\ Forall (fun c => in_class cls c = true) w.
Proof.
  intros Hm. apply Matches_Concat_inv in Hm as (w1 & w2 & -> & H1 & H2).
  inversion H1; subst. apply Matches_Star_class_inv in H2.
  split; [discriminate|]. constructor; assumption.
Qed.

Lemma loopback_accepts base port :
  Matches loopback_base (bytes base) -> Forall (fun b => (b < 0x80)%N) (bytes base) ->
  is_digits port = true ->
  MatchString loopbackPattern (with_port base port) = true.
Proof.
  intros Hb Ha Hp. apply MatchString_anchored. cbn [body loopbackPattern].
  fold loopback_base. unfold with_port.
  destruct (String.eqb_spec port "") as [->|Hne].
  - rewrite runes_ascii by exact Ha. rewrite <- (app_nil_r (bytes base)).
    constructor; [exact Hb|]. apply M_AltR. constructor.
  - pose proof (Matches_digits port Hp Hne) as Hd.
    apply is_digits_class in Hp as [_ Hpa].
    rewrite runes_ascii.
    + rewrite !bytes_app. constructor; [exact Hb|]. apply M_AltL.
      constructor; [|exact Hd]. change (bytes ":") with [N_of_ascii ":"].
      constructor. unfold in_class, existsb. rewrite N.leb_refl. reflexivity.
    + rewrite !bytes_app. apply Forall_app. split; [exact Ha|].
      apply Forall_app. split; [|exact Hpa].
      constructor; [vm_compute; reflexivity|constructor].
Qed.

Lemma dot_octet s :
  octet s = true ->
  Matches (Concat AnyCharNotNL (Repeat13 digit)) (bytes ("." ++ s))
  /\ Forall (fun b => (b < 0x80)%N) (bytes ("." ++ s)).
Proof.
  intros Hs. change (bytes ("." ++ s)) with ([N_of_ascii "."] ++ bytes s). split.
  - constructor; [|apply Matches_octet; exact Hs]. constructor. vm_compute. reflexivity.
  - apply Forall_app. split; [|apply octet_ascii; exact Hs].
    constructor; [vm_compute; reflexivity|constructor].
Qed.

Lemma bytes_of_digits ds :
  Forall (fun c => is_digit c = true) ds -> bytes (of_bytes ds) = ds.
Proof.
  induction 1 as [|b ds Hb _ IH]; [reflexivity|].
  unfold of_bytes, bytes in *. cbn [map string_of_list_ascii list_ascii_of_string].
  rewrite IH. f_equal. apply N_ascii_embedding.
  apply is_digit_ascii in Hb. lia.
Qed.

(** What a loopback host is made of. *)
Lemma loopback_necessary host :
  MatchString loopbackPattern host = true ->
  (exists port, is_digits port = true /\ host = with_port "localhost" port)
  \/ (exists rest, host = ("127" ++ rest)%string).
Proof.
  intros Hm. apply MatchString_anchored in Hm. cbn [body loopbackPattern] in Hm.
  apply Matches_Concat_inv in Hm as (w1 & w2 & Hw & H1 & H2).
  apply Matches_Alternate_inv in H1 as [H1|H1].
  - left. apply Matches_Literal_inv in H1. subst w1.
    assert (Hw2 : Forall (fun r => (r < 0x80)%N) w2
                  /\ (w2 = [] \/ exists ds, w2 = N_of_ascii ":" :: ds /\ ds <> []
                        /\ Forall (fun c => is_digit c = true) ds)).
    { apply Matches_Alternate_inv in H2 as [H2|H2].
      - apply Matches_Concat_inv in H2 as (w3 & w4 & -> & H3 & H4).
        apply Matches_Literal1_inv in H3. subst w3.
        apply Matches_Plus_class_inv in H4 as [Hne Hall].
        assert (Hd : Forall (fun c => is_digit c = true) w4).
        { eapply Forall_impl; [exact Hall|]. intros c Hc.
          rewrite <- is_digit_class. exact Hc. }
        split.
        + constructor; [vm_compute; reflexivity|].
          eapply Forall_impl; [exact Hd|]. intros c Hc. apply is_digit_ascii, Hc.
        + right. exists w4. repeat split; assumption.
      - inversion H2; subst. split; [constructor|left; reflexivity]. }
    destruct Hw2 as [Hascii Hform].
    assert (Hall : Forall (fun r => (r < 0x80)%N) (runes host)).
    { rewrite Hw. apply Forall_app. split; [|exact Hascii].
      apply Forall_forall. intros r Hr. vm_compute in Hr.
      repeat (apply elem_of_cons in Hr as [->|Hr]; [vm_compute; reflexivity|]).
      apply elem_of_nil in Hr. contradiction. }
    apply runes_ascii_inv in Hall. rewrite Hall in Hw.
    destruct Hform as [->|(ds & -> & Hne & Hds)].
    + exists "". split; [reflexivity|]. apply bytes_inj.
      rewrite Hw, app_nil_r. reflexivity.
    + exists (of_bytes ds). pose proof (bytes_of_digits ds Hds) as Hb. split.
      * unfold is_digits. rewrite Hb. apply forallb_forall.
        intros b Hin. rewrite Forall_forall in Hds. apply Hds, list_elem_of_In, Hin.
      * unfold with_port.
        destruct (String.eqb_spec (of_bytes ds) "") as [He|_].
        { rewrite He in Hb. destruct ds; [contradiction|discriminate Hb]. }
        apply bytes_inj. rewrite Hw, !bytes_app, Hb. reflexivity.
  - right. apply Matches_Concat_inv in H1 as (w3 & w4 & -> & H3 & _).
    apply Matches_Literal_inv in H3. subst w3. rewrite <- !app_assoc in Hw.
    apply runes_prefix in Hw as (s' & -> & _).
    + exists s'. reflexivity.
    + apply Forall_forall. intros r Hr. vm_compute in Hr.
      repeat (apply elem_of_cons in Hr as [->|Hr]; [vm_compute; reflexivity|]).
      apply elem_of_nil in Hr. contradiction.
Qed.

Section Validator.
Context `{GoLib}.

Lemma validate_url_eq (rawURL : string) (u : URL) :
  rawURL <> "" -> ParseRequestURI rawURL = inr u ->
  validate_url rawURL
  = Returned (if String.eqb (Scheme u) "https" then []
              else if String.eqb (Scheme u) "http" then
                     if MatchString loopbackPattern (Host u) then [] else [no_https_diag]
                   else [not_http_diag (Scheme u)]).
Proof.
  intros Hne Hp.
  unfold validate_url. destruct (String.eqb_spec rawURL ""); [contradiction|].
  rewrite Hp.
  destruct (String.eqb_spec (Scheme u) "http") as [Hh|Hh].
  - rewrite Hh. cbn [String.eqb Ascii.eqb Bool.eqb negb andb app].
    destruct (MatchString loopbackPattern (Host u)); reflexivity.
  - destruct (String.eqb_spec (Scheme u) "https") as [Hs|Hs]; cbn [negb andb app];
      destruct (MatchString loopbackPattern (Host u)); reflexivity.
Qed.

(** X16.  The validator of the address on an address that parses.  It
    returns no diagnostic for https; for http none when the host is
    loopback and one warning otherwise; for any other scheme one error:
    never more than one diagnostic, and never an error together with the
    warning. *)
Theorem validate_url_parsed (rawURL : string) (u : URL) :
  rawURL <> "" -> ParseRequestURI rawURL = inr u ->
  validate_url rawURL
  = Returned (if String.eqb (Scheme u) "https" then []
              else if String.eqb (Scheme u) "http" then
                     if MatchString loopbackPattern (Host u) then [] else [no_https_diag]
                   else [not_http_diag (Scheme u)])
  /\ (exists diags, validate_url rawURL = Returned diags /\ length diags <= 1).
Proof.
  intros Hne Hp. pose proof (validate_url_eq rawURL u Hne Hp) as Heq.
  split; [exact Heq|]. eexists. split; [exact Heq|].
  destruct (String.eqb (Scheme u) "https"); [cbn; lia|].
  destruct (String.eqb (Scheme u) "http"); [|cbn; lia].
  destruct (MatchString loopbackPattern (Host u)); cbn; lia.
Qed.

(** X17.  Loopback hosts.  The pattern accepts [localhost] and the addresses
    [127.a.b.c] whose three last parts have one to three digits, each with
    or without a port; and what it accepts is [localhost] with or without a
    port, or starts with [127].  So the validator returns no diagnostic for
    an http address to [localhost], and the warning for an http address to
    a host that starts with neither [localhost] nor [127]. *)
Theorem loopback_hosts :
  (forall port, is_digits port = true ->
     MatchString loopbackPattern (with_port "localhost" port) = true)
  /\ (forall a b c port,
        octet a = true -> octet b = true -> octet c = true -> is_digits port = true ->
        MatchString loopbackPattern (with_port ("127." ++ a ++ "." ++ b ++ "." ++ c) port)
        = true)
  /\ (forall host, MatchString loopbackPattern host = true ->
        (exists port, is_digits port = true /\ host = with_port "localhost" port)
        \/ (exists rest, host = ("127" ++ rest)%string))
  /\ (forall rawURL u, rawURL <> "" -> ParseRequestURI rawURL = inr u ->
        Scheme u = "http" ->
        ((exists port, is_digits port = true /\ Host u = with_port "localhost" port) ->
         validate_url rawURL = Returned [])
        /\ ((forall rest, Host u <> ("localhost" ++ rest)%string
                          /\ Host u <> ("127" ++ rest)%string) ->
            validate_url rawURL = Returned [no_https_diag])).
Proof.
  assert (Hlocal : forall port, is_digits port = true ->
            MatchString loopbackPattern (with_port "localhost" port) = true).
  { intros port Hp. apply loopback_accepts; [| |exact Hp].
    - apply M_AltL. apply Matches_Literal.
    - apply Forall_forall. intros r Hr. vm_compute in Hr.
      repeat (apply elem_of_cons in Hr as [->|Hr]; [vm_compute; reflexivity|]).
      apply elem_of_nil in Hr. contradiction. }
  split; [exact Hlocal|]. split; [|split; [exact loopback_necessary|]].
  - intros a b c port Ha Hb Hc Hp.
    destruct (dot_octet a Ha) as [Ma Aa], (dot_octet b Hb) as [Mb Ab],
      (dot_octet c Hc) as [Mc Ac].
    assert (Hs : ("127." ++ a ++ "." ++ b ++ "." ++ c
                  = "127" ++ ("." ++ a) ++ ("." ++ b) ++ ("." ++ c))%string).
    { reflexivity. }
    rewrite Hs.
    apply loopback_accepts; [| |exact Hp].
    + apply M_AltR. rewrite !bytes_app.
      constructor; [apply Matches_Literal|].
      constructor; [exact Ma|]. constructor; [exact Mb|exact Mc].
    + rewrite !bytes_app.
      repeat (apply Forall_app; split); try (apply octet_ascii; assumption);
        apply Forall_forall; intros r Hr; vm_compute in Hr;
        repeat (apply elem_of_cons in Hr as [->|Hr]; [vm_compute; reflexivity|]);
        apply elem_of_nil in Hr; contradiction.
  - intros rawURL u Hne Hp Hs. rewrite (validate_url_eq rawURL u Hne Hp), Hs. cbn [String.eqb Ascii.eqb Bool.eqb]. split.
    + intros (port & Hd & Hh). rewrite Hh, Hlocal by exact Hd. reflexivity.
    + intros Hnot. destruct (MatchString loopbackPattern (Host u)) eqn:Hm; [|reflexivity].
      exfalso. apply loopback_necessary in Hm as [(port & _ & Hh)|(rest & Hh)].
      * unfold with_port in Hh. destruct (String.eqb port "").
        -- apply (proj1 (Hnot "")). exact Hh.
        -- apply (proj1 (Hnot (":" ++ port)%string)). exact Hh.
      * apply (proj2 (Hnot rest)). exact Hh.
Qed.

End Validator.

Lemma validate_url_parsed_witness :
  "https://example.com" <> ""
  /\ @ParseRequestURI sample_lib "https://example.com"
     = inr {| Scheme := "https"; Host := "example.com"; Path := "" |}
  /\ @validate_url sample_lib "https://example.com" = Returned [].
Proof.
  split; [discriminate|]. split; [reflexivity|].
  refine (proj1 (@validate_url_parsed sample_lib "https://example.com"
                   {| Scheme := "https"; Host := "example.com"; Path := "" |}
                   _ eq_refl)).
  discriminate.
Defined.

End Address.

(** ** The configuration of the provider *)

Module Configure.
Import Utf8 Regexp Json Adminclient Gotrue Spec Sample Notions Cases.
Import ApiError HeaderFrame Requests.

Section Provider.
Context `{GoLib}.

Lemma with_header_lookup key value (m : gmap string (list string)) k :
  with_header key value m !!! k
  = m !!! k ++ (if decide (CanonicalMIMEHeaderKey key = k) then [value] else []).
Proof.
  unfold with_header. destruct (decide (CanonicalMIMEHeaderKey key = k)) as [<-|Hne].
  - rewrite lookup_total_insert_eq. reflexivity.
  - rewrite lookup_total_insert_ne by exact Hne. rewrite app_nil_r. reflexivity.
Qed.

Lemma fold_with_header kvs : forall (m : gmap string (list string)) k,
  fold_left (fun m (kv : string * string) => with_header (fst kv) (snd kv) m) kvs m !!! k
  = m !!! k ++ omap (fun kv => if decide (CanonicalMIMEHeaderKey (fst kv) = k)
                               then Some (snd kv) else None) kvs.
Proof.
  induction kvs as [|kv kvs IH]; intros m k; cbn [fold_left omap list_omap].
  - rewrite app_nil_r. reflexivity.
  - rewrite IH, with_header_lookup, <- app_assoc.
    destruct (decide (CanonicalMIMEHeaderKey (fst kv) = k)); reflexivity.
Qed.

Lemma fold_Header_Add kvs : forall l (m : gmap string (list string))
    (h : gmap positive (gmap string (list string))),
  fold_left (fun h (kv : string * string) => Header_Add l (fst kv) (snd kv) h) kvs
    (<[l := m]> h)
  = <[l := fold_left (fun m (kv : string * string) => with_header (fst kv) (snd kv) m)
             kvs m]> h.
Proof.
  induction kvs as [|kv kvs IH]; intros l m h; cbn [fold_left]; [reflexivity|].
  rewrite Header_Add_insert, lookup_total_insert_eq, insert_insert_eq. apply IH.
Qed.

Lemma built_lookup cfg k :
  built cfg !!! k
  = configured_values cfg k
    ++ (if decide (CanonicalMIMEHeaderKey "User-Agent" = k) then [UserAgent] else []).
Proof.
  unfold built. rewrite with_header_lookup, fold_with_header.
  rewrite lookup_total_empty. reflexivity.
Qed.

Lemma providerConfigure_parsed d (h : gmap positive (gmap string (list string))) u :
  ParseRequestURI (url d) = inr u ->
  exists c h',
    providerConfigure d h
    = Returned (c, if String.eqb (hd "" (built (headers d)
                                         !!! CanonicalMIMEHeaderKey "Authorization")) ""
                   then [no_authorization_diag] else [], h')
    /\ BaseURL c = {| Scheme := Scheme u; Host := Host u;
                      Path := TrimSuffix_slash (Path u) |}
    /\ HTTPClient_ c = DefaultClient
    /\ h !! Headers c = None /\ h ⊆ h'
    /\ h' !! Headers c = Some (built (headers d)).
Proof.
  intros Hp. unfold providerConfigure. rewrite Hp. unfold alloc at 1.
  rewrite fold_Header_Add, Header_Add_insert, lookup_total_insert_eq, insert_insert_eq.
  fold (built (headers d)).
  set (l := fresh (dom h)).
  assert (Hl : h !! l = None) by apply not_elem_of_dom, is_fresh.
  pose proof (New_copies_headers u l (built (headers d))
                (<[l := built (headers d)]> h) (lookup_insert_eq _ _ _)) as Hnew.
  cbn zeta in Hnew.
  destruct (New [WithBaseURL u; WithHeaders (Some l)] (<[l := built (headers d)]> h))
    as [c h'] eqn:HN.
  cbn [fst snd] in Hnew. destruct Hnew as (Hne & Hfresh & Hc & Hsub & _).
  exists c, h'. repeat apply conj.
  - unfold Header_Get. rewrite lookup_total_insert_eq. reflexivity.
  - unfold New in HN. cbn in HN. injection HN as <- _. reflexivity.
  - unfold New in HN. cbn in HN. injection HN as <- _. reflexivity.
  - rewrite lookup_insert_ne in Hfresh by congruence. exact Hfresh.
  - etransitivity; [|exact Hsub]. apply insert_subseteq. exact Hl.
  - exact Hc.
Qed.

Lemma configured_values_elem cfg k v :
  v ∈ configured_values cfg k <->
  exists key, cfg !! key = Some v /\ CanonicalMIMEHeaderKey key = k.
Proof.
  unfold configured_values. rewrite list_elem_of_omap. split.
  - intros ([key v'] & Hin & Hsel). cbn [fst snd] in Hsel.
    destruct (decide (CanonicalMIMEHeaderKey key = k)); [|discriminate Hsel].
    injection Hsel as ->. exists key. split; [|assumption].
    apply elem_of_map_to_list. exact Hin.
  - intros (key & Hl & Hk). exists (key, v). split.
    + apply elem_of_map_to_list. exact Hl.
    + cbn [fst snd]. rewrite decide_True by exact Hk. reflexivity.
Qed.

(** X18.  [providerConfigure] panics exactly when the address does not parse; it
    does not when the validator of the address has returned without an
    error. *)
Theorem configure_needs_parsed_address (d : ProviderData)
    (h : gmap positive (gmap string (list string))) :
  (providerConfigure d h = Panicked <-> exists err, ParseRequestURI (url d) = inl err)
  /\ (forall diags, validate_url (url d) = Returned diags ->
        Forall (fun x => Severity_ x <> Error) diags ->
        providerConfigure d h <> Panicked).
Proof.
  assert (Hiff : providerConfigure d h = Panicked
                 <-> exists err, ParseRequestURI (url d) = inl err).
  { split.
    - intros Hpanic. destruct (ParseRequestURI (url d)) as [err|u] eqn:Hp; [eauto|].
      destruct (providerConfigure_parsed d h u Hp) as (c & h' & Heq & _).
      rewrite Heq in Hpanic. discriminate Hpanic.
    - intros [err Hp]. unfold providerConfigure. rewrite Hp. reflexivity. }
  split; [exact Hiff|].
  intros diags Hv Hok Hpanic. apply Hiff in Hpanic as [err Hp].
  unfold validate_url in Hv. destruct (String.eqb (url d) "").
  - injection Hv as <-. apply Forall_cons_1 in Hok as [Hok _]. apply Hok. reflexivity.
  - rewrite Hp in Hv. discriminate Hv.
Qed.

(** X19.  What [providerConfigure] returns for an address that parses: a client
    for that address, less one trailing slash of its path, with the default
    transport, and with a header map of its own, a new object that holds
    for every name the configured values and, under its name, the user
    agent last; all map objects that existed are as they were; and the
    diagnostics are the one warning about authorization or nothing, never
    an error. *)
Theorem configure_result (d : ProviderData)
    (h : gmap positive (gmap string (list string))) (u : URL) :
  ParseRequestURI (url d) = inr u ->
  exists c diags h',
    providerConfigure d h = Returned (c, diags, h')
    /\ BaseURL c = {| Scheme := Scheme u; Host := Host u;
                      Path := TrimSuffix_slash (Path u) |}
    /\ HTTPClient_ c = DefaultClient
    /\ h !! Headers c = None /\ h ⊆ h'
    /\ (exists m, h' !! Headers c = Some m
                  /\ forall k, m !!! k
                               = configured_values (headers d) k
                                 ++ (if decide (CanonicalMIMEHeaderKey "User-Agent" = k)
                                     then [UserAgent] else []))
    /\ (diags = [] \/ diags = [no_authorization_diag]).
Proof.
  intros Hp.
  destruct (providerConfigure_parsed d h u Hp) as (c & h' & Heq & Hb & Ht & Hf & Hs & Hm).
  eexists c, _, h'. split; [exact Heq|]. repeat apply conj; try assumption.
  - exists (built (headers d)). split; [exact Hm|]. apply built_lookup.
  - destruct (String.eqb _ ""); auto.
Qed.

(** X20.  The warning about authorization.  It is given when every value
    configured under a name that stands for [Authorization] is empty, as
    when there is none; it is not given when there is such a value and all
    such values are non-empty. *)
Theorem authorization_warning (d : ProviderData)
    (h : gmap positive (gmap string (list string))) (u : URL)
    (c : Client) (diags : list Diagnostic) (h' : gmap positive (gmap string (list string))) :
  ParseRequestURI (url d) = inr u ->
  providerConfigure d h = Returned (c, diags, h') ->
  CanonicalMIMEHeaderKey "User-Agent" <> CanonicalMIMEHeaderKey "Authorization" ->
  ((forall key v, headers d !! key = Some v ->
                  CanonicalMIMEHeaderKey key = CanonicalMIMEHeaderKey "Authorization" ->
                  v = "") ->
   diags = [no_authorization_diag])
  /\ ((exists key v, headers d !! key = Some v
                     /\ CanonicalMIMEHeaderKey key = CanonicalMIMEHeaderKey "Authorization") ->
      (forall key v, headers d !! key = Some v ->
                     CanonicalMIMEHeaderKey key = CanonicalMIMEHeaderKey "Authorization" ->
                     v <> "") ->
      diags = []).
Proof.
  intros Hp Hc Hua.
  destruct (providerConfigure_parsed d h u Hp) as (c0 & h0 & Heq & _).
  rewrite Heq in Hc. injection Hc as _ <- _. clear Heq.
  rewrite built_lookup, decide_False, app_nil_r by exact Hua.
  set (vs := configured_values (headers d) (CanonicalMIMEHeaderKey "Authorization")).
  assert (Hvs : forall v, v ∈ vs <->
            exists key, headers d !! key = Some v
                        /\ CanonicalMIMEHeaderKey key = CanonicalMIMEHeaderKey "Authorization")
    by (intros v; apply configured_values_elem).
  split.
  - intros Hempty. destruct vs as [|v vs']; [reflexivity|]. cbn [hd].
    assert (Hv : v = "").
    { destruct (proj1 (Hvs v)) as (key & Hl & Hk); [apply elem_of_cons; auto|].
      exact (Hempty key v Hl Hk). }
    rewrite Hv. reflexivity.
  - intros (key & v & Hl & Hk) Hfull.
    destruct vs as [|v0 vs'].
    + exfalso. eapply elem_of_nil. apply Hvs. eauto.
    + cbn [hd]. destruct (String.eqb_spec v0 "") as [Hv0|]; [|reflexivity].
      exfalso. destruct (proj1 (Hvs v0)) as (key0 & Hl0 & Hk0); [apply elem_of_cons; auto|].
      exact (Hfull key0 v0 Hl0 Hk0 Hv0).
Qed.

(** X21.  The requests of a configured client.  After [providerConfigure],
    Get hands the default transport a request for the configured address,
    less one trailing slash, with the path of the provider appended, and
    with header values that are the configured ones and the user agent;
    Create hands it these and the content type. *)
Theorem configured_requests (d : ProviderData)
    (h : gmap positive (gmap string (list string))) (u : URL)
    (c : Client) (diags : list Diagnostic) (h1 : gmap positive (gmap string (list string))) :
  ParseRequestURI (url d) = inr u ->
  providerConfigure d h = Returned (c, diags, h1) ->
  exists m : gmap string (list string),
    (forall k, m !!! k
               = configured_values (headers d) k
                 ++ (if decide (CanonicalMIMEHeaderKey "User-Agent" = k)
                     then [UserAgent] else []))
    /\ (forall id,
          NewRequest_error "GET"
            (URL_String {| Scheme := Scheme u; Host := Host u;
                           Path := TrimSuffix_slash (Path u)
                                   ++ "/admin/sso/providers/" ++ id |}) = None ->
          fst (GetIdentityProvider c id h1)
          = match fst (Do DefaultClient
                         {| Method := "GET";
                            RequestURL :=
                              URL_String {| Scheme := Scheme u; Host := Host u;
                                            Path := TrimSuffix_slash (Path u)
                                                    ++ "/admin/sso/providers/" ++ id |};
                            RequestHeader := fresh (dom h1);
                            RequestBody := None |} m) with
            | inl err => inl err
            | inr res =>
              if bool_decide (StatusCode res = 200%Z) then decode_provider res
              else inl (parseError res 200
                          ("fetching identity provider with id " ++ Quote id))
            end)
    /\ (forall template,
          NewRequest_error "POST"
            (URL_String {| Scheme := Scheme u; Host := Host u;
                           Path := TrimSuffix_slash (Path u)
                                   ++ "/admin/sso/providers" |}) = None ->
          fst (CreateIdentityProvider c template h1)
          = answer StatusCreated "creating new identity provider"
              (fst (Do DefaultClient
                      {| Method := "POST";
                         RequestURL :=
                           URL_String {| Scheme := Scheme u; Host := Host u;
                                         Path := TrimSuffix_slash (Path u)
                                                 ++ "/admin/sso/providers" |};
                         RequestHeader := fresh (dom h1);
                         RequestBody :=
                           Some (json_text (Marshal_IdentityProviderRequest template)) |}
                      (with_header "Content-Type" "application/json" m)))).
Proof.
  intros Hp Hc.
  destruct (providerConfigure_parsed d h u Hp) as (c0 & h0 & Heq & Hb & Ht & _ & _ & Hm).
  rewrite Heq in Hc. injection Hc as -> _ ->. clear Heq.
  assert (Htot : h1 !!! Headers c = built (headers d))
    by (unfold lookup_total, map_lookup_total; rewrite Hm; reflexivity).
  assert (Hurl : forall suffix,
            provider_url c suffix
            = URL_String {| Scheme := Scheme u; Host := Host u;
                            Path := TrimSuffix_slash (Path u) ++ suffix |}).
  { intros suffix. unfold provider_url. rewrite Hb. reflexivity. }
  exists (built (headers d)). split; [apply built_lookup|]. split.
  - intros id Hreq. rewrite <- Hurl in *. rewrite <- Htot, <- Ht.
    apply Get_request. exact Hreq.
  - intros template Hreq. rewrite <- Hurl in *. rewrite <- Htot, <- Ht.
    apply Create_request. exact Hreq.
Qed.

End Provider.

Lemma configure_result_witness :
  @ParseRequestURI sample_lib (url provider_config)
  = inr {| Scheme := "http"; Host := "localhost:9999"; Path := "/" |}
  /\ exists c diags h',
       @providerConfigure sample_lib provider_config store0 = Returned (c, diags, h')
       /\ BaseURL c = {| Scheme := "http"; Host := "localhost:9999"; Path := "" |}.
Proof.
  split; [reflexivity|].
  destruct (@configure_result sample_lib provider_config store0
              {| Scheme := "http"; Host := "localhost:9999"; Path := "/" |} eq_refl)
    as (c & diags & h' & Hc & Hb & _).
  exists c, diags, h'. split; [exact Hc|exact Hb].
Defined.

Lemma authorization_warning_witness :
  @CanonicalMIMEHeaderKey sample_lib "User-Agent"
  <> @CanonicalMIMEHeaderKey sample_lib "Authorization"
  /\ exists c diags h',
       @providerConfigure sample_lib provider_config store0 = Returned (c, diags, h')
       /\ diags = [].
Proof.
  assert (Hua : @CanonicalMIMEHeaderKey sample_lib "User-Agent"
                <> @CanonicalMIMEHeaderKey sample_lib "Authorization") by discriminate.
  split; [exact Hua|].
  destruct (@providerConfigure_parsed sample_lib provider_config store0
              {| Scheme := "http"; Host := "localhost:9999"; Path := "/" |} eq_refl)
    as (c & h' & Hc & _).
  assert (Hsome : exists key v,
             headers provider_config !! key = Some v
             /\ @CanonicalMIMEHeaderKey sample_lib key
                = @CanonicalMIMEHeaderKey sample_lib "Authorization").
  { exists "Authorization", "Bearer token". split; reflexivity. }
  assert (Hfull : forall key v,
             headers provider_config !! key = Some v ->
             @CanonicalMIMEHeaderKey sample_lib key
             = @CanonicalMIMEHeaderKey sample_lib "Authorization" ->
             v <> "").
  { intros key v Hl _. unfold provider_config in Hl. cbn [headers] in Hl.
    apply lookup_singleton_Some in Hl as [_ <-]. discriminate. }
  eexists c, _, h'. split; [exact Hc|].
  exact (proj2 (@authorization_warning sample_lib provider_config store0
                  {| Scheme := "http"; Host := "localhost:9999"; Path := "/" |}
                  c _ h' eq_refl Hc Hua) Hsome Hfull).
Defined.

Lemma configured_requests_witness :
  exists c diags h1,
    @providerConfigure sample_lib provider_config store0 = Returned (c, diags, h1)
    /\ exists m : gmap string (list string),
         m !!! "Authorization" = ["Bearer token"]
         /\ m !!! "User-Agent" = [@UserAgent sample_lib].
Proof.
  destruct (@providerConfigure_parsed sample_lib provider_config store0
              {| Scheme := "http"; Host := "localhost:9999"; Path := "/" |} eq_refl)
    as (c & h1 & Hc & _).
  eexists c, _, h1. split; [exact Hc|].
  destruct (@configured_requests sample_lib provider_config store0
              {| Scheme := "http"; Host := "localhost:9999"; Path := "/" |}
              c _ h1 eq_refl Hc) as (m & Hm & _).
  exists m. rewrite !Hm. split; vm_compute; reflexivity.
Defined.

End Configure.

(** ** The attribute mapping, encoded and decoded again *)

Module RoundTrip.
Import Utf8 Regexp Json Adminclient Gotrue Spec Sample Notions Cases.
Import Synchronisation Reconcile Templates.

Lemma parse_empty : parse "" = Invalid.
Proof. vm_compute. reflexivity. Qed.

Lemma decode_strings_fresh l : decode_strings (map JString l) [] = (l, true).
Proof.
  induction l as [|x l IH]; [reflexivity|].
  cbn [map decode_strings hd tl decode_string]. rewrite IH. reflexivity.
Qed.

Lemma decode_interface_value v old :
  v <> JNull -> interface_ok v = true -> decode_interface v old = (Some v, true).
Proof.
  intros Hn Hok. destruct v; try contradiction; try (cbn in *; rewrite ?Hok; reflexivity).
  cbn in *. destruct (float_overflows _); [discriminate Hok|reflexivity].
Qed.

Lemma decode_Marshal_Attribute a :
  match Default a with
  | Some v => v <> JNull /\ interface_ok v = true
  | None => True
  end ->
  decode_Attribute (Marshal_Attribute a) zeroAttribute = (a, true).
Proof.
  destruct a as [name names dflt]. cbn [Default]. intros Hd.
  unfold Marshal_Attribute, decode_Attribute, member_if, nonempty.
  cbn [Name Names Default]. rewrite !fold_left_app.
  assert (H1 : fold_left decode_Attribute_member
                 (if negb (String.eqb name "") then [("name", JString name)] else [])
                 (zeroAttribute, [], true)
               = ({| Name := name; Names := []; Default := None |}, [], true)).
  { destruct (String.eqb_spec name "") as [->|_]; reflexivity. }
  rewrite H1.
  assert (H2 : fold_left decode_Attribute_member
                 (if negb (bool_decide (names = []))
                  then [("names", JArray (map JString names))] else [])
                 ({| Name := name; Names := []; Default := None |}, [], true)
               = ({| Name := name; Names := names; Default := None |}, [], true)).
  { destruct names as [|n names]; [reflexivity|].
    rewrite bool_decide_false by discriminate.
    cbn [negb fold_left]. unfold decode_Attribute_member. cbn [fst snd].
    change (field_index ["name"; "names"; "default"] "names") with (Some 1%nat).
    cbn [Names Name Default]. unfold decode_string_slice.
    cbn [map app]. change (JString n :: map JString names) with (map JString (n :: names)).
    rewrite decode_strings_fresh. rewrite drop_nil. reflexivity. }
  rewrite H2.
  destruct dflt as [v|]; [|reflexivity].
  destruct Hd as [Hn Hok]. cbn [fold_left]. unfold decode_Attribute_member.
  cbn [fst snd].
  change (field_index ["name"; "names"; "default"] "default") with (Some 2%nat).
  cbn [Names Name Default]. rewrite decode_interface_value by assumption. reflexivity.
Qed.

(** Decoding the members the encoder writes for the keys of a mapping. *)
Lemma decode_Marshal_Keys am ks : forall m0,
  encodable am ->
  m0 ⊆ Keys am -> (forall k, k ∈ ks -> is_Some (Keys am !! k)) ->
  exists m1,
    fold_left decode_Keys_member
      (omap (fun k => (fun a => (k, Marshal_Attribute a)) <$> Keys am !! k) ks)
      (m0, true) = (m1, true)
    /\ m1 ⊆ Keys am /\ dom m1 = dom m0 ∪ list_to_set ks.
Proof.
  induction ks as [|k ks IH]; intros m0 Henc Hsub Hks.
  - exists m0. split; [reflexivity|]. split; [exact Hsub|].
    rewrite list_to_set_nil, right_id_L; [reflexivity|apply _].
  - destruct (Hks k) as [a Ha]; [apply elem_of_cons; auto|].
    cbn [omap list_omap]. rewrite Ha. cbn [fmap option_fmap option_map fold_left].
    unfold decode_Keys_member at 2. cbn [fst snd].
    rewrite decode_Marshal_Attribute by exact (Henc k a Ha). cbn [andb].
    destruct (IH (<[k := a]> m0) Henc) as (m1 & Hf & Hm1 & Hdom).
    + apply insert_subseteq_l; assumption.
    + intros k' Hk'. apply Hks. apply elem_of_cons. auto.
    + exists m1. split; [exact Hf|]. split; [exact Hm1|].
      rewrite Hdom, dom_insert_L, list_to_set_cons.
      rewrite (comm_L (∪) {[k]} (dom m0)), <- (assoc_L (∪)). reflexivity.
Qed.

Lemma decode_Marshal_AttributeMapping am :
  encodable am ->
  decode_AttributeMapping (Marshal_AttributeMapping am) zeroAttributeMapping = (am, true).
Proof.
  intros Henc. destruct am as [keys].
  unfold Marshal_AttributeMapping, decode_AttributeMapping, member_if. cbn [Keys] in *.
  destruct (bool_decide_reflect (keys = ∅)) as [->|Hne]; [reflexivity|].
  cbn [negb fold_left]. unfold decode_AttributeMapping_member. cbn [fst snd].
  change (field_index ["keys"] "keys") with (Some 0%nat).
  cbn [decode_Keys Keys zeroAttributeMapping].
  destruct (decode_Marshal_Keys {| Keys := keys |}
              (sort_Strings (map fst (map_to_list keys))) ∅ Henc)
    as (m1 & Hf & Hsub & Hdom).
  - apply map_empty_subseteq.
  - intros k Hk. rewrite sort_Strings_perm in Hk.
    apply list_elem_of_fmap in Hk as ([k' a] & -> & Hin).
    apply elem_of_map_to_list in Hin. cbn [Keys fst]. eauto.
  - cbn [Keys] in *. rewrite Hf. cbn [andb]. f_equal. f_equal.
    apply subseteq_dom_eq; [exact Hsub|].
    rewrite Hdom, dom_empty_L, left_id_L by apply _.
    intros k Hk. apply elem_of_list_to_set. rewrite sort_Strings_perm.
    apply elem_of_dom in Hk as [a Ha]. apply list_elem_of_fmap.
    exists (k, a). split; [reflexivity|]. apply elem_of_map_to_list. exact Ha.
Qed.

(** X22.  The attribute mapping survives being encoded and decoded.
    Decoding what the encoder emits for a mapping gives the mapping back:
    the members [omitempty] leaves out are the ones decoding leaves at
    their zero value.  So when the text written to the record by
    synchronisation parses to the value that was encoded, the validator
    looks at the mapping of the response, and a Create from that record
    sends it. *)
Theorem attribute_mapping_round_trip `{GoLib} (am : AttributeMapping) :
  encodable am ->
  decode_AttributeMapping (Marshal_AttributeMapping am) zeroAttributeMapping = (am, true)
  /\ (parse (json_text (Marshal_AttributeMapping am))
      = Parsed (Marshal_AttributeMapping am) ->
      Unmarshal decode_AttributeMapping (json_text (Marshal_AttributeMapping am))
        zeroAttributeMapping = (am, None)
      /\ validate_attribute_mapping (json_text (Marshal_AttributeMapping am))
         = mjoin (map validate_key (map_to_list (Keys am)))
      /\ (forall provider d,
            saml_AttributeMapping (SAML_ provider) = am ->
            exists template,
              create_template (fst (resourceIdentityProviderSet provider d))
              = inr template
              /\ req_AttributeMapping template = am)).
Proof.
  intros Henc. pose proof (decode_Marshal_AttributeMapping am Henc) as Hd.
  split; [exact Hd|]. intros Hparse.
  assert (Hu : Unmarshal decode_AttributeMapping (json_text (Marshal_AttributeMapping am))
                 zeroAttributeMapping = (am, None)).
  { unfold Unmarshal. rewrite Hparse, Hd. reflexivity. }
  split; [exact Hu|]. split.
  - unfold validate_attribute_mapping. rewrite Hu. reflexivity.
  - intros provider d Ham.
    pose proof (create_template_mapping (fst (resourceIdentityProviderSet provider d)))
      as Hc.
    rewrite Set_fields in Hc. cbn [current attribute_mapping] in Hc.
    rewrite Ham, Hu in Hc. rewrite Set_fields, Ham.
    match goal with
    | |- context [create_template ?r] => destruct (create_template r) as [e|template]
    end.
    + destruct Hc as [_ Hc]. discriminate Hc.
    + exists template. split; [reflexivity|].
      destruct Hc as [[_ Hk]|[_ Hk]]; [|congruence].
      rewrite Hk, parse_empty in Hparse. discriminate Hparse.
Qed.

Lemma attribute_mapping_round_trip_witness :
  encodable email_mapping
  /\ Unmarshal decode_AttributeMapping
       (@json_text sample_lib (Marshal_AttributeMapping email_mapping))
       zeroAttributeMapping = (email_mapping, None).
Proof.
  assert (Henc : encodable email_mapping).
  { intros k a Hl. unfold email_mapping in Hl. cbn [Keys] in Hl.
    apply lookup_singleton_Some in Hl as [_ <-]. exact I. }
  split; [exact Henc|].
  refine (proj1 (proj2 (@attribute_mapping_round_trip sample_lib email_mapping Henc) _)).
  vm_compute. reflexivity.
Defined.

End RoundTrip.
(** ** The texts the pattern of a domain accepts *)

Module DomainLanguage.
Import Utf8 Regexp Json Adminclient Gotrue Spec Sample Notions Cases.
Import RegexpFacts Utf8Facts DomainValidation.

Section Validator.
Context `{GoLib}.

(** X23.  The texts the validator of a domain accepts, exactly: runes of
    the class [a-z0-9-] with single other runes between them, none of them
    a line feed; so a text that starts or ends outside the class, or has
    two runes outside the class in a row, gets the error. *)
Theorem domain_language (s : string) :
  MatchString domainPattern s = separated false (runes s)
  /\ (validate_domain s = [] <-> separated false (runes s) = true)
  /\ (validate_domain s = [invalid_domain s] <-> separated false (runes s) = false).
Proof.
  assert (Hm : MatchString domainPattern s = separated false (runes s)).
  { destruct (fullmatch_separated (runes s)) as [H0 _]. rewrite <- H0.
    pose proof (MatchString_anchored (body domainPattern) s) as Ha.
    pose proof (fullmatch_spec (runes s) start) as Hf.
    change (body domainPattern) with start in Ha.
    change {| begin_text := true; body := start; end_text := true |}
      with domainPattern in Ha.
    destruct (MatchString domainPattern s), (fullmatch start (runes s));
      try reflexivity.
    - symmetry. apply Hf, Ha. reflexivity.
    - apply Ha, Hf. reflexivity. }
  split; [exact Hm|]. rewrite validate_domain_eq, Hm.
  destruct (separated false (runes s)); split; split; intros Hx;
    try reflexivity; try discriminate Hx.
Qed.

End Validator.

(** Some texts, by the reading above. *)
Example separated_examples :
  separated false (runes "example.com") = true
  /\ separated false (runes "-bad.com") = true
  /\ separated false (runes "a b") = true
  /\ separated false (runes "a..b") = false
  /\ separated false (runes "example.com.") = false
  /\ separated false (runes ".example.com") = false
  /\ separated false (runes "EXAMPLE.com") = false
  /\ separated false (runes "") = false.
Proof. repeat apply conj; vm_compute; reflexivity. Qed.

End DomainLanguage.

(** ** The validator of the attribute mapping, by the kind of the value *)

Module MappingShapes.
Import Utf8 Regexp Json Adminclient Gotrue Spec Sample Notions Cases.

Lemma decode_without_keys ms : forall am ok,
  (forall m, m ∈ ms -> field_index ["keys"] (fst m) = None) ->
  fold_left decode_AttributeMapping_member ms (am, ok) = (am, ok).
Proof.
  induction ms as [|m ms IH]; intros am ok Hms; [reflexivity|].
  cbn [fold_left]. unfold decode_AttributeMapping_member at 2.
  rewrite (Hms m) by (apply elem_of_cons; auto).
  apply IH. intros m' Hm'. apply Hms. apply elem_of_cons. auto.
Qed.

Section Shapes.
Context `{GoLib}.

(** X24.  The validator of the attribute mapping by the kind of JSON value
    the text holds.  The value [null], and an object without a member for
    the field [keys] (such as the empty object, or one whose member name is
    misspelt), pass without a diagnostic although they define no mapping:
    they decode to the zero mapping.  An array, a string, a number or a
    boolean gets the one error about valid JSON, with the type error of the
    decoder; a text that is not JSON gets it with the syntax error. *)
Theorem mapping_top_level (value : string) :
  (parse value = Parsed JNull -> validate_attribute_mapping value = [])
  /\ (forall ms, parse value = Parsed (JObject ms) ->
        (forall m, m ∈ ms -> field_index ["keys"] (fst m) = None) ->
        validate_attribute_mapping value = []
        /\ Unmarshal decode_AttributeMapping value zeroAttributeMapping
           = (zeroAttributeMapping, None))
  /\ (forall v, parse value = Parsed v ->
        match v with
        | JNull | JObject _ => False
        | _ => True
        end ->
        validate_attribute_mapping value = [invalid_json_diag value UnmarshalTypeError])
  /\ ((forall v, parse value <> Parsed v) ->
      validate_attribute_mapping value = [invalid_json_diag value SyntaxError])
  /\ validate_attribute_mapping "null" = []
  /\ validate_attribute_mapping "{}" = [].
Proof.
  repeat apply conj.
  - intros Hp. unfold validate_attribute_mapping, Unmarshal. rewrite Hp. reflexivity.
  - intros ms Hp Hms.
    assert (Hu : Unmarshal decode_AttributeMapping value zeroAttributeMapping
                 = (zeroAttributeMapping, None)).
    { unfold Unmarshal. rewrite Hp. cbn [decode_AttributeMapping].
      rewrite decode_without_keys by exact Hms. reflexivity. }
    split; [|exact Hu]. unfold validate_attribute_mapping. rewrite Hu. reflexivity.
  - intros v Hp Hv. unfold validate_attribute_mapping, Unmarshal. rewrite Hp.
    destruct v; try contradiction; reflexivity.
  - intros Hp. unfold validate_attribute_mapping, Unmarshal.
    destruct (parse value) as [v| |]; [exfalso; apply (Hp v); reflexivity| |]; reflexivity.
  - vm_compute. reflexivity.
  - vm_compute. reflexivity.
Qed.

End Shapes.
End MappingShapes.
